(** * The parity ("XOR") notebook: data generation, dataset, batching,
    length adjustment, evaluation and the recurrent model.

    Source: [3_Recurrent/3.2-RNN-Introduction.ipynb].

    Python objects that are shared and mutated (numpy arrays, torch tensors)
    live in a store of buffers; an array or tensor value is a window on one
    buffer.  Exceptions are results; the random generators are streams of raw
    draws carried in the state.  Scalars are IEEE floats as specified by
    [SpecFloat]: binary32 for array and tensor elements, binary64 for Python's
    own [float].

    Conventions of the model:
    - sizes and indices of arrays are [nat], Python's integers are [Z], and
      the elements of [int64] arrays are [Z] with the wrap-around written
      out where the code adds them ([np.cumsum]);
    - the lengths vector of [adjust_lengths] is a list of [Z]: the elements
      of an [int64] array when the lengths vary, and of an [int32] tensor,
      with its wrap-around written out, when they do not;
    - [np.random.randint] refuses the sizes that numpy refuses for an [int64]
      array whatever the memory of the machine: a negative dimension, a
      dimension of [2^63] or more, [2^63] bytes or more; it returns the empty
      array for a size without elements before it looks at its bounds;
    - the store has no capacity: running out of memory ([MemoryError]) is
      outside the model, and what is proved to return returns on a machine
      with memory enough for the arrays involved;
    - the arithmetic of the network (sums, products, activations, the
      initialisation and the optimizer's update) is a parameter, [FloatOps];
      what is proved of the model holds for every such arithmetic. *)

From Stdlib Require Import ZArith List Lia Bool Sorting.Sorted.
From Stdlib Require Import Floats.SpecFloat.
From stdpp Require Import base option list sorting gmap.

(* ================================================================== *)
(** * Part I: the model *)
(* ================================================================== *)

(** ** Exceptions and results *)

Inductive exn : Type :=
| ValueError | IndexError | OverflowError | RuntimeError | TypeError | NameError.

Inductive result (A : Type) : Type :=
| Ok (a : A)
| Raise (e : exn).
Arguments Ok {A} a.
Arguments Raise {A} e.

Definition is_ok {A} (r : result A) : bool :=
  match r with Ok _ => true | Raise _ => false end.

(** ** Floats *)

(** Elements of the float32 arrays and tensors. *)
Definition float32 : Type := spec_float.
(** Python's [float]. *)
Definition float64 : Type := spec_float.

(** Conversion of an integer, round to nearest even. *)
Definition f32_of_Z (z : Z) : float32 := binary_normalize 24 128 z 0 false.
Definition f64_of_Z (z : Z) : float64 := binary_normalize 53 1024 z 0 false.
(** [astype('float32')] on a boolean array: [True] is 1.0, [False] is 0.0. *)
Definition f32_of_bool (b : bool) : float32 := f32_of_Z (Z.b2z b).

Definition f32_zero : float32 := f32_of_Z 0.
Definition f32_one : float32 := f32_of_Z 1.

(** Truncation towards zero of a finite float ([int(x)] on its value). *)
Definition float_trunc (f : spec_float) : Z :=
  match f with
  | S754_finite s m e =>
      cond_Zopp s (if (0 <=? e)%Z then Z.shiftl (Z.pos m) e
                   else Z.shiftr (Z.pos m) (- e))
  | _ => 0%Z
  end.

(** ** Arrays *)

(** An n-dimensional array value: its shape and its elements in row-major
    order. *)
Record ndarray (A : Type) : Type := mk_ndarray { shape : list nat; data : list A }.
Arguments mk_ndarray {A} shape data.
Arguments shape {A} n.
Arguments data {A} n.

(** Number of elements of a shape. *)
Definition numel (s : list nat) : nat := foldr Nat.mul 1 s.

Definition nd_map {A B} (f : A -> B) (a : ndarray A) : ndarray B :=
  mk_ndarray (shape a) (map f (data a)).

(** [a[i, t]] of a 2-D array, and row [i]. *)
Definition nd_get2 {A} (a : ndarray A) (i t : nat) : option A :=
  match shape a with
  | [n; m] => if decide (i < n /\ t < m) then data a !! (i * m + t) else None
  | _ => None
  end.

Definition nd_row {A} (m : nat) (l : list A) (i : nat) : list A :=
  take m (drop (i * m) l).

Definition nd_rows {A} (n m : nat) (l : list A) : list (list A) :=
  map (nd_row m l) (seq 0 n).

(** Signed 64-bit wrap-around. *)
Definition wrap64 (z : Z) : Z := ((z + 2 ^ 63) mod 2 ^ 64 - 2 ^ 63)%Z.

(** Signed 32-bit wrap-around. *)
Definition wrap32 (z : Z) : Z := ((z + 2 ^ 31) mod 2 ^ 32 - 2 ^ 31)%Z.

(** Running sum of one row in int64. *)
Fixpoint cumsum_from (acc : Z) (l : list Z) : list Z :=
  match l with
  | [] => []
  | x :: r => let s := wrap64 (acc + x) in s :: cumsum_from s r
  end.

Definition cumsum_row (l : list Z) : list Z :=
  match l with
  | [] => []
  | x :: r => x :: cumsum_from x r
  end.

(** [np.cumsum(a, axis=1)]; an array without a second axis has no axis 1. *)
Definition np_cumsum_axis1 (a : ndarray Z) : result (ndarray Z) :=
  match shape a with
  | [n; m] => Ok (mk_ndarray [n; m] (concat (map cumsum_row (nd_rows n m (data a)))))
  | _ => Raise ValueError
  end.

(** ** The state: buffer store and random generators *)

Record world : Type := mk_world {
  heap : gmap nat (list float32);   (* buffers of arrays and tensors *)
  next_loc : nat;                   (* first unused buffer address *)
  np_rng : nat -> Z;                (* numpy's generator: raw draws to come *)
  torch_rng : nat -> Z              (* torch's generator: raw draws to come *)
}.

(** Computations that read and update the state and may raise. *)
Definition M (A : Type) : Type := world -> result A * world.

Definition ret {A} (a : A) : M A := fun w => (Ok a, w).
Definition raise {A} (e : exn) : M A := fun w => (Raise e, w).
Definition bind {A B} (m : M A) (k : A -> M B) : M B :=
  fun w => match m w with
           | (Ok a, w') => k a w'
           | (Raise e, w') => (Raise e, w')
           end.
Definition lift {A} (r : result A) : M A := fun w => (r, w).

Notation "'let!' x ':=' m 'in' k" := (bind m (fun x => k))
  (at level 10, x pattern, m at level 100, k at level 200).

(** Monadic iteration over a list, left to right. *)
Fixpoint for_each {A} (f : A -> M unit) (l : list A) : M unit :=
  match l with
  | [] => ret tt
  | x :: r => let! _ := f x in for_each f r
  end.

Fixpoint map_M {A B} (f : A -> M B) (l : list A) : M (list B) :=
  match l with
  | [] => ret []
  | x :: r => let! y := f x in let! ys := map_M f r in ret (y :: ys)
  end.

(** ** numpy's random integers *)

Definition rng_take (n : nat) (g : nat -> Z) : list Z * (nat -> Z) :=
  (map g (seq 0 n), fun k => g (n + k)).

(** The sizes of which numpy makes an array with elements of [itemsize]
    bytes ([np.empty]): every dimension is in [[0, 2^63)], and the bytes of
    the array, counted without its dimensions of size 0, are fewer than
    [2^63]. *)
Definition np_empty_ok (itemsize : Z) (size : list Z) : bool :=
  forallb (fun d => (0 <=? d)%Z && (d <? 2 ^ 63)%Z) size &&
  (itemsize * foldr Z.mul 1%Z (List.filter (fun d => negb (d =? 0)%Z) size) <? 2 ^ 63)%Z.

(** [np.random.randint(low, high, size)] with the default [int64] elements:
    integers of [[low, high)], or of [[0, low)] when [high] is absent.  A size
    of which numpy makes no array is refused; an empty result is returned
    before the bounds are looked at; otherwise bounds outside [int64] and
    [low >= high] are refused.  numpy makes these checks at different points;
    every one of them raises [ValueError] before anything is drawn, so their
    order cannot be observed.  Each element is a raw draw reduced to the
    range. *)
Definition np_random_randint (low : Z) (high : option Z) (size : list Z) : M (ndarray Z) :=
  fun w =>
    let '(lo, hi) := match high with Some h => (low, h) | None => (0%Z, low) end in
    if negb (np_empty_ok 8 size) then (Raise ValueError, w)
    else
      let shp := map Z.to_nat size in
      if Nat.eqb (numel shp) 0 then (Ok (mk_ndarray shp []), w)
      else if ((lo <? - 2 ^ 63) || (2 ^ 63 <? hi) || (hi <=? lo))%Z then (Raise ValueError, w)
      else
        let '(raw, g') := rng_take (numel shp) (np_rng w) in
        (Ok (mk_ndarray shp (map (fun r => (lo + r mod (hi - lo))%Z) raw)),
         mk_world (heap w) (next_loc w) g' (torch_rng w)).

(** ** The data generator *)

Definition get_random_bits_parity (num_sequences num_bits : Z)
  : M (ndarray float32 * ndarray float32) :=
  let! bit_sequences := np_random_randint 2 None [num_sequences; num_bits] in
  let! bitsum := lift (np_cumsum_axis1 bit_sequences) in
  let parity := nd_map (fun s => negb (s mod 2 =? 0)%Z) bitsum in
  ret (nd_map f32_of_Z bit_sequences, nd_map f32_of_bool parity).

(** ** Arrays and tensors in the store *)

(** A numpy array or torch tensor object: a contiguous window on a buffer.
    Basic indexing and [expand_dims] give windows on the same buffer. *)
Record array_ref : Type := mk_ref { base : nat; offset : nat; ashape : list nat }.

Definition buffer (w : world) (l : nat) : list float32 := default [] (heap w !! l).

Definition read_ref (w : world) (r : array_ref) : list float32 :=
  take (numel (ashape r)) (drop (offset r) (buffer w (base r))).

Definition value_of (w : world) (r : array_ref) : ndarray float32 :=
  mk_ndarray (ashape r) (read_ref w r).

Definition get_value (r : array_ref) : M (ndarray float32) :=
  fun w => (Ok (value_of w r), w).

(** A new array or tensor in a buffer of its own. *)
Definition alloc (a : ndarray float32) : M array_ref :=
  fun w =>
    (Ok (mk_ref (next_loc w) 0 (shape a)),
     mk_world (<[next_loc w := data a]> (heap w)) (S (next_loc w))
              (np_rng w) (torch_rng w)).

(** In-place write of [v] over [len] elements from position [start] of the
    window. *)
Definition fill (r : array_ref) (start len : nat) (v : float32) : M unit :=
  fun w =>
    (Ok tt,
     mk_world (alter (list_inserts (offset r + start) (replicate len v)) (base r) (heap w))
              (next_loc w) (np_rng w) (torch_rng w)).

(** In-place write of the elements [vs] from the start of the window. *)
Definition fill_with (r : array_ref) (vs : list float32) : M unit :=
  fun w =>
    (Ok tt,
     mk_world (alter (list_inserts (offset r) (take (numel (ashape r)) vs)) (base r) (heap w))
              (next_loc w) (np_rng w) (torch_rng w)).

(** [np.expand_dims(a, -1)]: the same buffer seen with one more axis. *)
Definition np_expand_dims_last (r : array_ref) : array_ref :=
  mk_ref (base r) (offset r) (ashape r ++ [1]).

(** [a[index]] with an integer index: a window on row [index]; negative
    indices count from the end. *)
Definition np_index0 (r : array_ref) (index : Z) : result array_ref :=
  match ashape r with
  | [] => Raise IndexError
  | n :: rest =>
      let i := if (index <? 0)%Z then (index + Z.of_nat n)%Z else index in
      if ((i <? 0) || (Z.of_nat n <=? i))%Z then Raise IndexError
      else Ok (mk_ref (base r) (offset r + Z.to_nat i * numel rest) rest)
  end.

(** [a[index, :]]: as [a[index]], on an array of two axes at least. *)
Definition np_index0_all (r : array_ref) (index : Z) : result array_ref :=
  match ashape r with
  | _ :: _ :: _ => np_index0 r index
  | _ => Raise IndexError
  end.

(** [t.size()[k]] *)
Definition size_at (r : array_ref) (k : nat) : result nat :=
  match ashape r !! k with
  | Some n => Ok n
  | None => Raise IndexError
  end.

(** ** XORDataset *)

Definition DEFAULT_NUM_BITS : Z := 50.
Definition DEFAULT_NUM_SEQUENCES : Z := 100000.

Record XORDataset : Type := mk_XORDataset {
  num_sequences : Z;
  num_bits : Z;
  features : array_ref;
  labels : array_ref
}.

Definition XORDataset_init (num_sequences num_bits : Z) : M XORDataset :=
  let! fl := get_random_bits_parity num_sequences num_bits in
  let! features := alloc (fst fl) in
  let! labels := alloc (snd fl) in
  (* [batch, bits] -> [batch, bits, 1] *)
  let features := np_expand_dims_last features in
  (* [batch, parity] -> [batch, parity, 1] *)
  let labels := np_expand_dims_last labels in
  ret (mk_XORDataset num_sequences num_bits features labels).

Definition XORDataset_getitem (self : XORDataset) (index : Z) : M (array_ref * array_ref) :=
  let! f := lift (np_index0_all (features self) index) in
  let! l := lift (np_index0 (labels self) index) in
  ret (f, l).

Definition XORDataset_len (self : XORDataset) : M nat :=
  lift (match ashape (features self) with
        | [] => Raise TypeError
        | n :: _ => Ok n
        end).

(** ** DataLoader *)

Record DataLoader : Type := mk_DataLoader {
  dataset : XORDataset;
  batch_size : nat;
  shuffle : bool
}.

Definition DataLoader_init (ds : XORDataset) (batch_size : Z) (shuffle : bool) : M DataLoader :=
  if (batch_size <=? 0)%Z then raise ValueError
  else ret (mk_DataLoader ds (Z.to_nat batch_size) shuffle).

(** [torch.randperm(n)]: every raw draw picks one of the indices not yet
    taken. *)
Fixpoint pick_all (raw : list Z) (pool : list nat) : list nat :=
  match raw with
  | [] => []
  | r :: raw' =>
      let k := Z.to_nat (r mod Z.of_nat (length pool)) in
      match pool !! k with
      | Some x => x :: pick_all raw' (delete k pool)
      | None => []
      end
  end.

Definition torch_randperm (n : nat) : M (list nat) :=
  fun w =>
    let '(raw, g') := rng_take n (torch_rng w) in
    (Ok (pick_all raw (seq 0 n)), mk_world (heap w) (next_loc w) (np_rng w) g').

(** Consecutive runs of [size] indices; the last run may be shorter. *)
Fixpoint chunks_fuel {A} (fuel size : nat) (l : list A) : list (list A) :=
  match fuel with
  | 0 => []
  | S f =>
      match l with
      | [] => []
      | _ => take size l :: chunks_fuel f size (drop size l)
      end
  end.

Definition chunks {A} (size : nat) (l : list A) : list (list A) :=
  chunks_fuel (length l) size l.

(** The index lists of the batches of one pass over the loader. *)
Definition DataLoader_batches (dl : DataLoader) : M (list (list nat)) :=
  let! n := XORDataset_len (dataset dl) in
  let! order := (if shuffle dl then torch_randperm n else ret (seq 0 n)) in
  ret (chunks (batch_size dl) order).

(** [torch.stack(ts, 0)] after [torch.as_tensor] on each sample: a new tensor
    holding copies of the samples. *)
Definition torch_stack (ts : list array_ref) : M array_ref :=
  match ts with
  | [] => raise RuntimeError
  | t :: rest =>
      if forallb (fun r => bool_decide (ashape r = ashape t)) rest then
        let! vals := map_M get_value ts in
        alloc (mk_ndarray (length ts :: ashape t) (concat (map data vals)))
      else raise RuntimeError
  end.

(** [default_collate]: the samples' first components stacked, then their
    second components. *)
Definition default_collate (samples : list (array_ref * array_ref)) : M (array_ref * array_ref) :=
  let! inputs := torch_stack (map fst samples) in
  let! targets := torch_stack (map snd samples) in
  ret (inputs, targets).

(** One batch of the loader: the dataset's items at [idxs], collated. *)
Definition DataLoader_fetch (dl : DataLoader) (idxs : list nat) : M (array_ref * array_ref) :=
  let! samples := map_M (fun i => XORDataset_getitem (dataset dl) (Z.of_nat i)) idxs in
  default_collate samples.

(** ** adjust_lengths *)

(** [lengths[0] = v] *)
Definition setitem0 (l : list Z) (v : Z) : result (list Z) :=
  match l with
  | [] => Raise IndexError
  | _ :: r => Ok (v :: r)
  end.

(** [np.sort] *)
Definition np_sort (l : list Z) : list Z := merge_sort Z.le l.

(** Start of the slice [start:] on an axis of size [t]. *)
Definition slice_start (start : Z) (t : nat) : nat :=
  if (start <? 0)%Z then Z.to_nat (Z.max 0 (start + Z.of_nat t))
  else Nat.min (Z.to_nat start) t.

(** [x[i, start:, ] = 0] *)
Definition zero_from (x : array_ref) (i : nat) (start : Z) : M unit :=
  match ashape x with
  | n :: t :: inner =>
      if n <=? i then raise IndexError
      else
        let s := slice_start start t in
        fill x ((i * t + s) * numel inner) ((t - s) * numel inner) f32_zero
  | _ => raise IndexError
  end.

Definition getitem (l : list Z) (i : nat) : result Z :=
  match l !! i with
  | Some v => Ok v
  | None => Raise IndexError
  end.

(** The body of the chopping loop for sequence [i]. *)
Definition chop (inputs targets : array_ref) (lengths : list Z) (i : nat) : M unit :=
  let! li := lift (getitem lengths i) in
  let! _ := zero_from inputs i li in
  let! li := lift (getitem lengths i) in
  zero_from targets i li.

Definition adjust_lengths (vary_lengths : bool) (inputs targets : array_ref) : M (list Z) :=
  let! batch_size := lift (size_at inputs 0) in
  let! max_bits := lift (size_at inputs 1) in
  if negb vary_lengths then
    (* an int32 tensor of ones, times max_bits *)
    ret (replicate batch_size (wrap32 (1 * Z.of_nat max_bits)))
  else
    (* choose random lengths *)
    let! lengths := np_random_randint 1 (Some (Z.of_nat max_bits)) [Z.of_nat batch_size] in
    (* keep one the max size so we don't need to resize targets for the loss *)
    let! lengths := lift (setitem0 (data lengths) (Z.of_nat max_bits)) in
    (* sort in descending order *)
    let lengths := map Z.opp (np_sort (map Z.opp lengths)) in
    (* chop the bits based on lengths *)
    let! _ := for_each (chop inputs targets lengths) (seq 0 (length lengths)) in
    ret lengths.

(** ** Python's [int(max_bits * 1.5)] *)

Definition result_bind {A B} (r : result A) (k : A -> result B) : result B :=
  match r with
  | Ok a => k a
  | Raise e => Raise e
  end.

(** [float(z)] for the product with a float: too large an integer is refused. *)
Definition py_float_of_int (z : Z) : result float64 :=
  match f64_of_Z z with
  | S754_infinity _ => Raise OverflowError
  | f => Ok f
  end.

(** The literal [1.5]. *)
Definition f64_1_5 : float64 := S754_finite false 6755399441055744 (-52).

(** [int(x)] *)
Definition py_int_of_float (f : float64) : result Z :=
  match f with
  | S754_nan => Raise ValueError
  | S754_infinity _ => Raise OverflowError
  | _ => Ok (float_trunc f)
  end.

(** The [num_bits] argument that [evaluate] passes to its dataset. *)
Definition evaluate_num_bits (max_bits : Z) : result Z :=
  result_bind (py_float_of_int max_bits) (fun x =>
  py_int_of_float (SFmul 53 1024 x f64_1_5)).

(** ** The recurrent model *)

(** Scalar arithmetic of the tensor library on float32, the initial value of
    a parameter drawn from a raw draw, and the parameters after one
    [loss.backward()] and [optimizer.step()] on a batch. *)
Class FloatOps : Type := {
  fadd : float32 -> float32 -> float32;
  fmul : float32 -> float32 -> float32;
  ftanh : float32 -> float32;
  fsigmoid : float32 -> float32;
  uniform_init : nat -> Z -> float32;
  sgd_update : list float32 -> ndarray float32 -> ndarray float32 -> list Z -> list float32
}.

(** [torch.nn.Linear]: weight rows and bias. *)
Record Linear : Type := mk_Linear { weight : list (list float32); bias : list float32 }.

(** [torch.nn.RNN] with one layer and tanh. *)
Record RNNLayer : Type := mk_RNNLayer { hidden_size : nat; ih : Linear; hh : Linear }.

Record RNN : Type := mk_RNN { rnn : RNNLayer; hidden_to_logits : Linear }.

Definition dot `{FloatOps} (w x : list float32) : float32 :=
  foldl fadd f32_zero (zip_with fmul w x).

Definition apply_linear `{FloatOps} (l : Linear) (x : list float32) : list float32 :=
  zip_with fadd (map (fun row => dot row x) (weight l)) (bias l).

(** One step of the recurrence: [tanh(W_ih x + b_ih + W_hh h + b_hh)]. *)
Definition cell `{FloatOps} (r : RNNLayer) (x h : list float32) : list float32 :=
  map ftanh (zip_with fadd (apply_linear (ih r) x) (apply_linear (hh r) h)).

Definition zeros (n : nat) : list float32 := replicate n f32_zero.

Record PackedSequence : Type := mk_PackedSequence {
  ps_data : list (list float32);   (* one feature vector per live sequence and step *)
  ps_batch_sizes : list nat        (* live sequences at each step *)
}.

Fixpoint decreasing (l : list Z) : bool :=
  match l with
  | x :: (y :: _) as r => (y <=? x)%Z && decreasing r
  | _ => true
  end.

(** Number of sequences longer than [t]. *)
Definition live_at (lengths : list Z) (t : nat) : nat :=
  length (filter (fun l => (Z.of_nat t < l)%Z) lengths).

(** The feature vector of sequence [b] at step [t] of a [[B, T, D]] batch. *)
Definition feature_at (T D : nat) (l : list float32) (b t : nat) : list float32 :=
  take D (drop ((b * T + t) * D) l).

(** [pack_padded_sequence(inputs, lengths, batch_first=True)]: one length per
    sequence, the last one positive, in decreasing order.  A first length
    beyond the time axis leaves the packed data short of its batch sizes,
    which the recurrent layer refuses; the refusal is placed here. *)
Definition pack_padded_sequence (inputs : ndarray float32) (lengths : list Z)
  : result PackedSequence :=
  match shape inputs with
  | B :: T :: feat =>
      if negb (length lengths =? B) then Raise RuntimeError
      else if (default 0 (last lengths) <=? 0)%Z then Raise RuntimeError
      else if negb (decreasing lengths) then Raise RuntimeError
      else if (Z.of_nat T <? default 0 (head lengths))%Z then Raise RuntimeError
      else
        let max_len := Z.to_nat (default 0%Z (head lengths)) in
        let D := numel feat in
        Ok (mk_PackedSequence
              (flat_map (fun t => map (fun b => feature_at T D (data inputs) b t)
                                      (seq 0 (live_at lengths t)))
                        (seq 0 max_len))
              (map (live_at lengths) (seq 0 max_len)))
  | _ => Raise RuntimeError
  end.

(** The recurrent layer on packed data: at each step the live sequences'
    states advance; the states of all steps are the output. *)
Fixpoint rnn_steps `{FloatOps} (r : RNNLayer) (xs : list (list float32))
    (batch_sizes : list nat) (h : list (list float32)) : result (list (list float32)) :=
  match batch_sizes with
  | [] => Ok []
  | bs :: rest =>
      if length xs <? bs then Raise RuntimeError
      else
        let h' := zip_with (cell r) (take bs xs) (take bs h) in
        match rnn_steps r (drop bs xs) rest h' with
        | Ok out => Ok (h' ++ out)
        | Raise e => Raise e
        end
  end.

Definition rnn_packed `{FloatOps} (r : RNNLayer) (p : PackedSequence) : result PackedSequence :=
  if negb (forallb (fun x => length x =? 1) (ps_data p)) then Raise RuntimeError
  else
    let B := default 0 (head (ps_batch_sizes p)) in
    match rnn_steps r (ps_data p) (ps_batch_sizes p) (replicate B (zeros (hidden_size r))) with
    | Ok out => Ok (mk_PackedSequence out (ps_batch_sizes p))
    | Raise e => Raise e
    end.

(** The steps of packed data, each padded with zero rows to [B] sequences. *)
Fixpoint padded_steps (width B : nat) (xs : list (list float32)) (batch_sizes : list nat)
  : list (list (list float32)) :=
  match batch_sizes with
  | [] => []
  | bs :: rest =>
      (take bs xs ++ replicate (B - bs) (zeros width)) :: padded_steps width B (drop bs xs) rest
  end.

(** [pad_packed_sequence(p, batch_first=True)]: a [[B, L, width]] tensor. *)
Definition pad_packed_sequence (width : nat) (p : PackedSequence) : ndarray (list float32) :=
  let B := default 0 (head (ps_batch_sizes p)) in
  let L := length (ps_batch_sizes p) in
  let steps := padded_steps width B (ps_data p) (ps_batch_sizes p) in
  mk_ndarray [B; L]
    (flat_map (fun b => map (fun step => default (zeros width) (step !! b)) steps) (seq 0 B)).

(** [RNN.forward] on values. *)
Definition forward `{FloatOps} (self : RNN) (inputs : ndarray float32) (lengths : list Z)
  : result (ndarray float32 * ndarray float32) :=
  (* pack the inputs *)
  result_bind (pack_padded_sequence inputs lengths) (fun packed_inputs =>
  result_bind (rnn_packed (rnn self) packed_inputs) (fun rnn_out =>
  let unpacked := pad_packed_sequence (hidden_size (rnn self)) rnn_out in
  let logits :=
    mk_ndarray (shape unpacked ++ [length (weight (hidden_to_logits self))])
               (flat_map (apply_linear (hidden_to_logits self)) (data unpacked)) in
  let predictions := nd_map fsigmoid logits in
  Ok (logits, predictions))).

(** *** The model object: its parameters in one buffer of the store *)

Inductive device : Type := cpu | cuda.

Record RNN_obj : Type := mk_RNN_obj { obj_hidden_size : nat; obj_params : array_ref }.

Definition num_params (h : nat) : nat := h * 1 + h + h * h + h + 1 * h + 1.

Definition rows_of (n m : nat) (l : list float32) : list (list float32) :=
  nd_rows n m l.

(** The parameters read off the buffer: [weight_ih], [bias_ih], [weight_hh],
    [bias_hh], then the projection's weight and bias. *)
Definition RNN_of_flat (h : nat) (l : list float32) : RNN :=
  let w_ih := take (h * 1) l in
  let l1 := drop (h * 1) l in
  let b_ih := take h l1 in
  let l2 := drop h l1 in
  let w_hh := take (h * h) l2 in
  let l3 := drop (h * h) l2 in
  let b_hh := take h l3 in
  let l4 := drop h l3 in
  let w_out := take (1 * h) l4 in
  let b_out := take 1 (drop (1 * h) l4) in
  mk_RNN (mk_RNNLayer h (mk_Linear (rows_of h 1 w_ih) b_ih) (mk_Linear (rows_of h h w_hh) b_hh))
         (mk_Linear (rows_of 1 h w_out) b_out).

(** [RNN(hidden_size, device).to(device)] *)
Definition RNN_init `{FloatOps} (hidden_size : nat) (d : device) : M RNN_obj :=
  fun w =>
    let '(raw, g') := rng_take (num_params hidden_size) (torch_rng w) in
    let w' := mk_world (heap w) (next_loc w) (np_rng w) g' in
    match alloc (mk_ndarray [num_params hidden_size] (map (uniform_init hidden_size) raw)) w' with
    | (Ok r, w'') => (Ok (mk_RNN_obj hidden_size r), w'')
    | (Raise e, w'') => (Raise e, w'')
    end.

(** [t.to(device)]: the tensor itself on the CPU, a copy on the accelerator. *)
Definition to_device (d : device) (t : array_ref) : M array_ref :=
  match d with
  | cpu => ret t
  | cuda => let! v := get_value t in alloc v
  end.

(** [model(inputs, lengths)]: the outputs are new tensors. *)
Definition RNN_call `{FloatOps} (model : RNN_obj) (inputs : array_ref) (lengths : list Z)
  : M (array_ref * array_ref) :=
  let! x := get_value inputs in
  let! theta := get_value (obj_params model) in
  let! out := lift (forward (RNN_of_flat (obj_hidden_size model) (data theta)) x lengths) in
  let! logits := alloc (fst out) in
  let! predictions := alloc (snd out) in
  ret (logits, predictions).

(** [loss = loss_fn(logits, targets); loss.backward(); optimizer.step()]:
    the loss refuses a target of another shape; the step overwrites the
    parameters in place. *)
Definition train_step `{FloatOps} (model : RNN_obj) (inputs logits targets : array_ref)
    (lengths : list Z) : M unit :=
  if negb (bool_decide (ashape logits = ashape targets)) then raise ValueError
  else
    let! x := get_value inputs in
    let! y := get_value targets in
    let! theta := get_value (obj_params model) in
    fill_with (obj_params model) (sgd_update (data theta) x y lengths).

(** ** Evaluation and the training loop *)

Definition f32_half : float32 := S754_finite false 8388608 (-24).
Definition f64_one : float64 := f64_of_Z 1.

(** [(predictions > 0.5) == (targets > 0.5)], element by element.  Both
    tensors have one shape here, the first length being the time axis. *)
Definition is_correct_of (predictions targets : ndarray float32) : result (list bool) :=
  if bool_decide (shape predictions = shape targets) then
    Ok (zip_with (fun p t => eqb (SFltb f32_half p) (SFltb f32_half t))
                 (data predictions) (data targets))
  else Raise RuntimeError.

Definition count_true (l : list bool) : Z := Z.of_nat (length (filter (fun b => b = true) l)).

(** [is_correct.mean()] in float64; of nothing it is not a number. *)
Definition np_mean (is_correct : list bool) : float64 :=
  SFdiv 53 1024 (f64_of_Z (count_true is_correct)) (f64_of_Z (Z.of_nat (length is_correct))).

(** The same in float32 on a tensor. *)
Definition torch_mean (is_correct : list bool) : float32 :=
  SFdiv 24 128 (f32_of_Z (count_true is_correct)) (f32_of_Z (Z.of_nat (length is_correct))).

Fixpoint evaluate_batches `{FloatOps} (valid_loader : DataLoader) (vary_lengths : bool)
    (d : device) (model : RNN_obj) (batches : list (list nat)) (is_correct : list bool)
  : M (list bool) :=
  match batches with
  | [] => ret is_correct
  | idxs :: rest =>
      let! batch := DataLoader_fetch valid_loader idxs in
      let! lengths := adjust_lengths vary_lengths (fst batch) (snd batch) in
      let! inputs := to_device d (fst batch) in
      let! targets := to_device d (snd batch) in
      let! out := RNN_call model inputs lengths in
      let! p := get_value (snd out) in
      let! t := get_value targets in
      let! c := lift (is_correct_of p t) in
      evaluate_batches valid_loader vary_lengths d model rest (is_correct ++ c)
  end.

(** The validation dataset of [evaluate]:
    [XORDataset(num_sequences=5000, num_bits=int(max_bits * 1.5))]. *)
Definition evaluate_dataset (max_bits : Z) : M XORDataset :=
  let! n := lift (evaluate_num_bits max_bits) in
  XORDataset_init 5000 n.

Definition evaluate `{FloatOps} (max_bits : Z) (vary_lengths : bool) (d : device)
    (model : RNN_obj) : M float64 :=
  (* evaluate on more bits than training to ensure generalization *)
  let! ds := evaluate_dataset max_bits in
  let! valid_loader := DataLoader_init ds 500 false in
  let! batches := DataLoader_batches valid_loader in
  let! is_correct := evaluate_batches valid_loader vary_lengths d model batches [] in
  ret (np_mean is_correct).

(** The loop's variables. *)
Record loop_state : Type := mk_loop_state {
  step : Z;
  train_accs : list (Z * float32);
  valid_accs : list (Z * float64);
  valid_accuracy : option float64      (* unbound until the first evaluation *)
}.

(** The settings of the run. *)
Record settings : Type := mk_settings {
  max_bits : Z;
  vary_lengths : bool;
  dev : device;
  epochs : nat
}.

(** The body of the inner loop on one batch; the flag tells a [break]. *)
Definition train_batch `{FloatOps} (cfg : settings) (train_loader : DataLoader)
    (model : RNN_obj) (st : loop_state) (idxs : list nat) : M (loop_state * bool) :=
  let! batch := DataLoader_fetch train_loader idxs in
  let inputs := fst batch in
  let! lengths := adjust_lengths (vary_lengths cfg) inputs (snd batch) in
  let! targets := to_device (dev cfg) (snd batch) in
  let! out := RNN_call model inputs lengths in
  (* BCEWithLogitsLoss will do the activation *)
  let! _ := train_step model inputs (fst out) targets lengths in
  let step' := (step st + 1)%Z in
  let! p := get_value (snd out) in
  let! t := get_value targets in
  let! c := lift (is_correct_of p t) in
  let st1 := mk_loop_state step' (train_accs st ++ [(step', torch_mean c)])
                           (valid_accs st) (valid_accuracy st) in
  if (step' mod 1000 =? 0)%Z then
    let! v := evaluate (max_bits cfg) (vary_lengths cfg) (dev cfg) model in
    let st2 := mk_loop_state step' (train_accs st1) (valid_accs st1 ++ [(step', v)]) (Some v) in
    (* stop early *)
    ret (st2, SFeqb v f64_one)
  else ret (st1, false).

Fixpoint train_batches `{FloatOps} (cfg : settings) (train_loader : DataLoader)
    (model : RNN_obj) (batches : list (list nat)) (st : loop_state) : M (loop_state * bool) :=
  match batches with
  | [] => ret (st, false)
  | idxs :: rest =>
      let! r := train_batch cfg train_loader model st idxs in
      if snd r then ret r
      else train_batches cfg train_loader model rest (fst r)
  end.

(** The outer loop; reading [valid_accuracy] before any evaluation bound it
    is a [NameError]. *)
Fixpoint train_epochs `{FloatOps} (cfg : settings) (train_loader : DataLoader)
    (model : RNN_obj) (n : nat) (st : loop_state) : M loop_state :=
  match n with
  | 0 => ret st
  | S n' =>
      let! batches := DataLoader_batches train_loader in
      let! r := train_batches cfg train_loader model batches st in
      match valid_accuracy (fst r) with
      | None => raise NameError
      | Some v =>
          if SFeqb v f64_one then ret (fst r)
          else train_epochs cfg train_loader model n' (fst r)
      end
  end.

Definition initial_loop_state : loop_state := mk_loop_state 0 [] [] None.

(** The notebook once the dataset exists: the loader, the model, the
    training loop. *)
Definition after_dataset `{FloatOps} (cfg : settings) (ds : XORDataset) (batch_size : Z)
    (hidden_size : nat) : M (XORDataset * RNN_obj * loop_state) :=
  let! train_loader := DataLoader_init ds batch_size true in
  let! model := RNN_init hidden_size (dev cfg) in
  let! st := train_epochs cfg train_loader model (epochs cfg) initial_loop_state in
  ret (ds, model, st).

(** The notebook from the data to the end of training. *)
Definition notebook `{FloatOps} (cfg : settings) (num_sequences batch_size : Z)
    (hidden_size : nat) : M (XORDataset * RNN_obj * loop_state) :=
  let! ds := XORDataset_init num_sequences (max_bits cfg) in
  after_dataset cfg ds batch_size hidden_size.

(** A sample arithmetic for running the model on examples: IEEE addition and
    multiplication, with clamping in place of the two activations. *)
Definition clamp (lo hi x : float32) : float32 :=
  if SFltb x lo then lo else if SFltb hi x then hi else x.

Definition sample_ops : FloatOps := {|
  fadd := SFadd 24 128;
  fmul := SFmul 24 128;
  ftanh := clamp (SFopp f32_one) f32_one;
  fsigmoid := fun x => clamp f32_zero f32_one (SFadd 24 128 f32_half (SFmul 24 128 f32_half x));
  uniform_init := fun h r => SFdiv 24 128 (f32_of_Z (r mod 7 - 3)) (f32_of_Z 4);
  sgd_update := fun theta x y lens => map (fun p => SFmul 24 128 f32_half p) theta
|}.


(** ** A sample state for examples *)

Definition sample_world : world :=
  mk_world ∅ 0 (fun k => Z.of_nat (k * k * k + 5 * k + 3) / 4)%Z
               (fun k => Z.of_nat (7 * k * k + 2)).

(** A batch of two sequences of three bits, as a loader would yield it. *)
Definition sample_batch_world : world :=
  mk_world (<[1 := [f32_zero; f32_one; f32_one; f32_one; f32_zero; f32_one]]>
              (<[0 := [f32_zero; f32_one; f32_zero; f32_one; f32_one; f32_zero]]> ∅))
           2 (np_rng sample_world) (torch_rng sample_world).
Definition sample_inputs : array_ref := mk_ref 0 0 [2; 3; 1].
Definition sample_targets : array_ref := mk_ref 1 0 [2; 3; 1].

(** A batch of no sequence. *)
Definition empty_batch_world : world :=
  mk_world (<[1 := []]> (<[0 := []]> ∅)) 2 (np_rng sample_world) (torch_rng sample_world).
Definition empty_inputs (T : nat) : array_ref := mk_ref 0 0 [0; T; 1].
Definition empty_targets (T : nat) : array_ref := mk_ref 1 0 [0; T; 1].


(** The same with a single bit per sequence. *)
Definition one_bit_batch_world : world :=
  mk_world (<[1 := [f32_zero; f32_one]]> (<[0 := [f32_zero; f32_one]]> ∅))
           2 (np_rng sample_world) (torch_rng sample_world).
Definition one_bit_inputs : array_ref := mk_ref 0 0 [2; 1; 1].
Definition one_bit_targets : array_ref := mk_ref 1 0 [2; 1; 1].

(** The values of a batch of two sequences of three bits, and the
    parameters of a model with two hidden units. *)
Definition sample_batch : ndarray float32 :=
  mk_ndarray [2; 3; 1] [f32_zero; f32_one; f32_zero; f32_one; f32_one; f32_zero].

Definition sample_theta : list float32 :=
  map (fun k => SFdiv 24 128 (f32_of_Z (Z.of_nat k - 6)) (f32_of_Z 4)) (seq 0 (num_params 2)).

(** ** Vocabulary of the properties *)

(** The integers that [np.random.randint(2, size=(num_sequences, num_bits))]
    draws in state [w], before the conversion to float32. *)
Definition drawn_bits (num_sequences num_bits : Z) (w : world) : list Z :=
  map (fun r => (0 + r mod (2 - 0))%Z)
      (map (np_rng w) (seq 0 (Z.to_nat num_sequences * Z.to_nat num_bits))).

(** A binary value. *)
Definition is_bit (b : Z) : Prop := b = 0%Z \/ b = 1%Z.


(** A float32 element read as a bit. *)
Definition bit_of (f : float32) : bool := SFeqb f f32_one.

(** Cumulative XOR of a sequence of bits. *)
Definition cumulative_xor (l : list float32) : bool := foldr xorb false (map bit_of l).

(** Sum of a sequence of integral floats. *)
Definition running_sum (l : list float32) : Z := foldr Z.add 0%Z (map float_trunc l).

(** Inputs and targets of the one shape [[B, T, 1]], each a window inside
    its buffer. *)
Definition batch_windows (w : world) (inputs targets : array_ref) (B T : nat) : Prop :=
  ashape inputs = [B; T; 1] /\ ashape targets = [B; T; 1] /\
  offset inputs + B * T <= length (buffer w (base inputs)) /\
  offset targets + B * T <= length (buffer w (base targets)).

(** A batch of [B] sequences: inputs and targets of the one shape
    [[B, T, 1]], each a window inside its buffer; float32 tensors held in
    memory, so of fewer than [2^63] bytes each. *)
Definition is_batch (w : world) (inputs targets : array_ref) (B T : nat) : Prop :=
  ashape inputs = [B; T; 1] /\ ashape targets = [B; T; 1] /\
  offset inputs + B * T <= length (buffer w (base inputs)) /\
  offset targets + B * T <= length (buffer w (base targets)) /\
  (4 * (Z.of_nat B * Z.of_nat T) < 2 ^ 63)%Z.

(** [x[i, k]] of a [[B, T, 1]] tensor in the store. *)
Definition tensor_at (w : world) (x : array_ref) (i k : nat) : option float32 :=
  match ashape x with
  | [B; T; 1] => if decide (i < B /\ k < T) then read_ref w x !! (i * T + k) else None
  | _ => None
  end.

(** Sorted in non-increasing order. *)
Definition non_increasing (l : list Z) : Prop :=
  forall i j a b, i <= j -> l !! i = Some a -> l !! j = Some b -> (b <= a)%Z.

(** The state after in-place writes of zeros into the buffers at [L]:
    nothing else changes, no buffer changes its size, and what was zero
    stays zero. *)
Definition zero_writes (L : list nat) (w w' : world) : Prop :=
  next_loc w' = next_loc w /\
  (forall l, l ∉ L -> heap w' !! l = heap w !! l) /\
  (forall l, length (buffer w' l) = length (buffer w l)) /\
  (forall l c, buffer w l !! c = Some f32_zero -> buffer w' l !! c = Some f32_zero).

(** The hidden state of the recurrent layer after the inputs [xs], from the
    zero state. *)
Definition hidden_state `{FloatOps} (r : RNNLayer) (xs : list (list float32)) : list float32 :=
  foldl (fun h x => cell r x h) (zeros (hidden_size r)) xs.

(** The first [n] inputs of sequence [b] of a [[B, T, 1]] batch. *)
Definition sequence_prefix (inputs : ndarray float32) (b n : nat) : list (list float32) :=
  match shape inputs with
  | _ :: T :: feat => map (feature_at T (numel feat) (data inputs) b) (seq 0 n)
  | _ => []
  end.

(** The padded output of the recurrent layer at sequence [b] and step [t]:
    the hidden state after the steps [0..t] within the sequence's length,
    zeros beyond it. *)
Definition unpacked_at `{FloatOps} (r : RNNLayer) (inputs : ndarray float32)
    (lengths : list Z) (b t : nat) : list float32 :=
  if (Z.of_nat t <? default 0 (lengths !! b))%Z
  then hidden_state r (sequence_prefix inputs b (S t))
  else zeros (hidden_size r).

(** The lengths that [pack_padded_sequence] accepts for a [[B, T, 1]] batch:
    one per sequence, in non-increasing order, each between 1 and [T]. *)
Definition valid_lengths (B T : nat) (lengths : list Z) : Prop :=
  length lengths = B /\ 1 <= B /\ non_increasing lengths /\
  Forall (fun l => (1 <= l <= Z.of_nat T)%Z) lengths.

(** [frame P m Q]: run from a state in which the buffers at [P] are
    allocated, [m] leaves those buffers as they are, allocates upwards only,
    and a result it returns satisfies [Q]. *)
Definition frame (P : nat -> Prop) {A} (m : M A) (Q : A -> Prop) : Prop :=
  forall w, (forall l, P l -> l < next_loc w) ->
    next_loc w <= next_loc (snd (m w)) /\
    (forall l, P l -> heap (snd (m w)) !! l = heap w !! l) /\
    (forall a, fst (m w) = Ok a -> Q a).

Definition fresh (P : nat -> Prop) (r : array_ref) : Prop := ~ P (base r).

(** The buffers that hold the stored arrays of a dataset. *)
Definition stored_in (ds : XORDataset) (l : nat) : Prop :=
  l = base (features ds) \/ l = base (labels ds).

(** The stored arrays of the dataset hold in [w'] what they hold in [w]. *)
Definition dataset_unchanged (ds : XORDataset) (w w' : world) : Prop :=
  value_of w' (features ds) = value_of w (features ds) /\
  value_of w' (labels ds) = value_of w (labels ds).

(** A shift of the rounding procedure that lost no bit: the round and
    sticky flags are clear. *)
Definition flags_clear (x : shr_record) : Prop := shr_r x = false /\ shr_s x = false.

(** The sample batch with its second sequence cut to one bit. *)
Definition sample_batch_chopped : ndarray float32 :=
  mk_ndarray [2; 3; 1] [f32_zero; f32_one; f32_zero; f32_one; f32_zero; f32_zero].

(** The dataset constructed in state [w1] is intact in state [w]: its stored
    arrays hold what they held, and its buffers are allocated. *)
Definition intact (ds : XORDataset) (w1 w : world) : Prop :=
  dataset_unchanged ds w1 w /\ next_loc w1 <= next_loc w.

(** The loop's variables agree: the step count is not negative, and
    [valid_accuracy] is bound exactly from step 1000 on. *)
Definition loop_inv (st : loop_state) : Prop :=
  (0 <= step st)%Z /\ (valid_accuracy st = None <-> (step st < 1000)%Z).

(** The sequence dimensions for which [adjust_lengths] returns lengths that
    the model accepts: at least 2 when the lengths vary; at least 1 and below
    [2^31], within the int32 entries of the vector, when they do not. *)
Definition lengths_fit (vary : bool) (T : nat) : Prop :=
  if vary then 2 <= T else 1 <= T /\ (Z.of_nat T < 2 ^ 31)%Z.

(** The index list of a batch of a loader over [n] items: at least one index,
    every index below [n], no more indices than items. *)
Definition valid_batch (n : nat) (idxs : list nat) : Prop :=
  idxs <> [] /\ Forall (fun i => i < n) idxs /\ length idxs <= n.

(** The parameters of the model are in the store: a buffer that is
    allocated, with one element for every parameter in the window. *)
Definition params_in_store (w : world) (model : RNN_obj) : Prop :=
  base (obj_params model) < next_loc w /\
  length (read_ref w (obj_params model)) = num_params (obj_hidden_size model).

(** The largest [max_bits] for which numpy makes the int64 array of the 5000
    validation sequences of [evaluate]:
    [8 * 5000 * floor(3 * max_bits / 2) < 2^63]. *)
Definition evaluate_limit : Z := 153722867280913.

(** The values of [max_bits] for which [evaluate] runs through: its dataset
    of [floor(3 * max_bits / 2)] bits a sequence is one that numpy makes, and
    that length fits [adjust_lengths]. *)
Definition evaluate_fits (vary : bool) (max_bits : Z) : Prop :=
  if vary then (2 <= max_bits <= evaluate_limit)%Z
  else (1 <= max_bits)%Z /\ (3 * max_bits / 2 < 2 ^ 31)%Z.

(** Number of batches of one pass over [n] items in batches of [bs]. *)
Definition num_batches (n bs : nat) : nat := (n + bs - 1) / bs.

(* ================================================================== *)
(** * Part II: properties *)
(* ================================================================== *)

(** ** Arithmetic and list facts *)

Lemma wrap64_mod2 (z : Z) : (wrap64 z mod 2 = z mod 2)%Z.
Proof.
  unfold wrap64.
  pose proof (Z.mod_eq (z + 2 ^ 63) (2 ^ 64) ltac:(lia)) as E.
  rewrite E.
  replace (z + 2 ^ 63 - 2 ^ 64 * ((z + 2 ^ 63) / 2 ^ 64) - 2 ^ 63)%Z
    with (z + (- 2 ^ 63 * ((z + 2 ^ 63) / 2 ^ 64)) * 2)%Z by lia.
  apply Z_mod_plus_full.
Qed.

Lemma numel_pair (n m : nat) : numel [n; m] = n * m.
Proof. unfold numel; simpl; lia. Qed.

Lemma length_nd_row {A} (m : nat) (l : list A) (i : nat) :
  (i + 1) * m <= length l -> length (nd_row m l i) = m.
Proof.
  intros Hl. unfold nd_row. rewrite length_take, length_drop. lia.
Qed.

(** Element [i * m + t] of the concatenation of rows of length [m]. *)
Lemma lookup_concat_rows {A} (m : nat) (rows : list (list A)) (i t : nat) :
  Forall (fun r => length r = m) rows -> t < m ->
  concat rows !! (i * m + t) = rows !! i ≫= (fun r => r !! t).
Proof.
  intros Hrows Ht. revert i. induction Hrows as [|r rows Hr _ IH]; intros i.
  - simpl. by rewrite !lookup_nil.
  - destruct i as [|i]; simpl.
    + rewrite lookup_app_l by lia. reflexivity.
    + rewrite lookup_app_r by lia.
      replace (m + i * m + t - length r) with (i * m + t) by lia. apply IH.
Qed.

Lemma length_concat_rows {A} (m : nat) (rows : list (list A)) :
  Forall (fun r => length r = m) rows -> length (concat rows) = length rows * m.
Proof.
  induction 1 as [|r rows Hr _ IH]; [reflexivity|].
  cbn. rewrite length_app, IH, Hr. lia.
Qed.

Lemma lookup_nd_row {A} (m : nat) (l : list A) (i t : nat) :
  t < m -> nd_row m l i !! t = l !! (i * m + t).
Proof.
  intros Ht. unfold nd_row. rewrite lookup_take_lt by lia. by rewrite lookup_drop.
Qed.

Lemma Forall_length_nd_rows {A} (n m : nat) (l : list A) :
  length l = n * m -> Forall (fun r => length r = m) (nd_rows n m l).
Proof.
  intros Hl. unfold nd_rows. apply Forall_forall. intros r Hr.
  apply list_elem_of_In, in_map_iff in Hr as (i & <- & Hi). apply in_seq in Hi.
  apply length_nd_row. nia.
Qed.

Lemma lookup_nd_rows {A} (n m : nat) (l : list A) (i : nat) :
  i < n -> nd_rows n m l !! i = Some (nd_row m l i).
Proof.
  intros Hi. unfold nd_rows. rewrite list_lookup_fmap.
  rewrite lookup_seq_lt by lia. reflexivity.
Qed.

(** ** The data generator *)

(** The parity of a wrapped running sum is the parity of the exact sum. *)
Lemma cumsum_from_parity (l : list Z) (acc : Z) (t : nat) (c : Z) :
  cumsum_from acc l !! t = Some c ->
  (c mod 2 = (acc + foldr Z.add 0 (take (S t) l)) mod 2)%Z.
Proof.
  revert acc t. induction l as [|x l IH]; intros acc t H; [done|].
  destruct t as [|t]; simpl in H.
  - injection H as <-. rewrite wrap64_mod2. simpl.
    f_equal. lia.
  - apply IH in H. rewrite H.
    rewrite Z.add_mod by lia. rewrite wrap64_mod2. rewrite <- Z.add_mod by lia.
    change (take (S (S t)) (x :: l)) with (x :: take (S t) l). simpl foldr.
    f_equal. lia.
Qed.

Lemma cumsum_row_parity (l : list Z) (t : nat) (c : Z) :
  cumsum_row l !! t = Some c ->
  (c mod 2 = foldr Z.add 0 (take (S t) l) mod 2)%Z.
Proof.
  destruct l as [|x l]; [done|]. destruct t as [|t]; simpl; intros H.
  - injection H as <-. f_equal. lia.
  - apply cumsum_from_parity in H. rewrite H.
    change (take (S (S t)) (x :: l)) with (x :: take (S t) l). reflexivity.
Qed.

Lemma length_cumsum_from (l : list Z) (acc : Z) : length (cumsum_from acc l) = length l.
Proof. revert acc. induction l; intros; simpl; auto. Qed.

Lemma length_cumsum_row (l : list Z) : length (cumsum_row l) = length l.
Proof. destruct l; simpl; auto using length_cumsum_from. Qed.

Lemma drawn_bits_spec (ns nb : Z) (w : world) :
  length (drawn_bits ns nb w) = Z.to_nat ns * Z.to_nat nb /\
  Forall is_bit (drawn_bits ns nb w).
Proof.
  unfold drawn_bits. split.
  - by rewrite !length_map, length_seq.
  - apply Forall_forall. intros b Hb.
    apply list_elem_of_In, in_map_iff in Hb as (r & <- & _).
    pose proof (Z.mod_pos_bound r (2 - 0) ltac:(lia)). unfold is_bit. lia.
Qed.

(** The sizes of two dimensions that numpy accepts. *)
Lemma np_empty_ok_pair (ns nb : Z) :
  np_empty_ok 8 [ns; nb] = true <->
  (0 <= ns < 2 ^ 63 /\ 0 <= nb < 2 ^ 63 /\
   8 * ((if ns =? 0 then 1 else ns) * (if nb =? 0 then 1 else nb)) < 2 ^ 63)%Z.
Proof.
  unfold np_empty_ok. cbn [forallb List.filter foldr].
  rewrite !andb_true_iff, !Z.leb_le, !Z.ltb_lt.
  destruct (Z.eqb_spec ns 0) as [->|Hns], (Z.eqb_spec nb 0) as [->|Hnb];
    cbn [negb foldr]; lia.
Qed.

Lemma np_empty_ok_pos (ns nb : Z) :
  (1 <= ns)%Z -> (1 <= nb)%Z ->
  np_empty_ok 8 [ns; nb] = true <-> (8 * ns * nb < 2 ^ 63)%Z.
Proof.
  intros Hns Hnb. rewrite np_empty_ok_pair.
  destruct (Z.eqb_spec ns 0); [lia|]. destruct (Z.eqb_spec nb 0); [lia|]. nia.
Qed.

Lemma np_empty_ok_1d (n : Z) :
  np_empty_ok 8 [n] = true <-> (0 <= n /\ 8 * n < 2 ^ 63)%Z.
Proof.
  unfold np_empty_ok. cbn [forallb List.filter foldr].
  rewrite !andb_true_iff, !Z.leb_le, !Z.ltb_lt.
  destruct (Z.eqb_spec n 0) as [->|Hn]; cbn [negb foldr]; lia.
Qed.

Lemma get_random_bits_parity_ok (ns nb : Z) (w : world) :
  np_empty_ok 8 [ns; nb] = true ->
  let n := Z.to_nat ns in
  let m := Z.to_nat nb in
  exists w',
    get_random_bits_parity ns nb w =
      (Ok (mk_ndarray [n; m] (map f32_of_Z (drawn_bits ns nb w)),
           mk_ndarray [n; m]
             (map f32_of_bool
                (map (fun s => negb (s mod 2 =? 0)%Z)
                   (concat (map cumsum_row (nd_rows n m (drawn_bits ns nb w))))))),
       w') /\
    heap w' = heap w /\ next_loc w' = next_loc w /\ torch_rng w' = torch_rng w.
Proof.
  intros Hsz n m.
  unfold get_random_bits_parity, bind, np_random_randint.
  rewrite Hsz. cbn [negb map]. fold n m. rewrite numel_pair.
  destruct (Nat.eqb_spec (n * m) 0) as [E|E].
  - exists w. unfold lift, np_cumsum_axis1, ret, nd_map; cbn.
    assert (Hd : drawn_bits ns nb w = []).
    { unfold drawn_bits. fold n m. rewrite E. reflexivity. }
    rewrite Hd. cbn.
    assert (Hc : concat (map cumsum_row (nd_rows n m [])) = []).
    { unfold nd_rows. generalize 0 at 1. clear. induction n as [|n IH]; intros k; [done|].
      simpl. rewrite IH. unfold nd_row. by rewrite drop_nil, take_nil. }
    rewrite Hc. auto.
  - change ((0 <? - 2 ^ 63) || (2 ^ 63 <? 2) || (2 <=? 0))%Z with false.
    unfold rng_take.
    eexists. unfold lift, np_cumsum_axis1, ret, nd_map; cbn.
    split; [reflexivity|]. auto.
Qed.

Lemma get_random_bits_parity_refused (ns nb : Z) (w : world) :
  np_empty_ok 8 [ns; nb] = false -> get_random_bits_parity ns nb w = (Raise ValueError, w).
Proof.
  intros H. unfold get_random_bits_parity, bind, np_random_randint. by rewrite H.
Qed.

Lemma f32_of_Z_bit (b : Z) :
  is_bit b -> bit_of (f32_of_Z b) = (b =? 1)%Z /\ float_trunc (f32_of_Z b) = b.
Proof. intros [-> | ->]; split; reflexivity. Qed.

Lemma f32_of_bool_parity (s : Z) :
  f32_of_bool (negb (s mod 2 =? 0)%Z) = f32_of_Z (s mod 2).
Proof.
  pose proof (Z.mod_pos_bound s 2 ltac:(lia)) as Hb.
  assert (H : (s mod 2 = 0 \/ s mod 2 = 1)%Z) by lia.
  destruct H as [-> | ->]; reflexivity.
Qed.

Lemma xor_is_sum_mod2 (bs : list Z) :
  Forall is_bit bs ->
  foldr xorb false (map (fun b => (b =? 1)%Z) bs) = negb (foldr Z.add 0%Z bs mod 2 =? 0)%Z.
Proof.
  induction 1 as [|x bs Hx _ IH]; [reflexivity|].
  cbn [map foldr]. rewrite IH. set (s := foldr Z.add 0%Z bs).
  rewrite Z.add_mod by lia.
  pose proof (Z.mod_pos_bound s 2 ltac:(lia)) as Hb.
  assert (H : (s mod 2 = 0 \/ s mod 2 = 1)%Z) by lia.
  destruct Hx as [-> | ->], H as [-> | ->]; reflexivity.
Qed.

Lemma bits_as_floats (bs : list Z) :
  Forall is_bit bs ->
  cumulative_xor (map f32_of_Z bs) = negb (foldr Z.add 0%Z bs mod 2 =? 0)%Z /\
  running_sum (map f32_of_Z bs) = foldr Z.add 0%Z bs.
Proof.
  intros Hb. unfold cumulative_xor, running_sum. rewrite !map_map. split.
  - rewrite <- xor_is_sum_mod2 by done. f_equal.
    apply map_ext_in. intros b Hin. apply f32_of_Z_bit.
    rewrite Forall_forall in Hb. apply Hb. by apply list_elem_of_In.
  - f_equal. rewrite <- (map_id bs) at 2.
    apply map_ext_in. intros b Hin. apply f32_of_Z_bit.
    rewrite Forall_forall in Hb. apply Hb. by apply list_elem_of_In.
Qed.

Lemma nd_row_map {A B} (f : A -> B) (m : nat) (l : list A) (i : nat) :
  nd_row m (map f l) i = map f (nd_row m l i).
Proof. unfold nd_row. by rewrite <- fmap_drop, <- fmap_take. Qed.

Lemma Forall_nd_row {A} (P : A -> Prop) (m : nat) (l : list A) (i : nat) :
  Forall P l -> Forall P (nd_row m l i).
Proof. intros H. unfold nd_row. by apply Forall_take, Forall_drop. Qed.

(** C1: for at least one sequence of at least one bit, in every pair that
    the generator returns the label at position [t] of sequence [i] is the
    cumulative XOR of the bits [0..t] of that sequence, which is their sum
    modulo 2.  The generator returns such a pair exactly when the int64 array
    of the bits has fewer than [2^63] bytes. *)
Theorem parity_is_cumulative_xor (num_sequences num_bits : Z) (w : world) :
  (1 <= num_sequences)%Z -> (1 <= num_bits)%Z ->
  ((exists r w', get_random_bits_parity num_sequences num_bits w = (Ok r, w')) <->
     (8 * num_sequences * num_bits < 2 ^ 63)%Z) /\
  forall bit_sequences parity w',
    get_random_bits_parity num_sequences num_bits w = (Ok (bit_sequences, parity), w') ->
    forall i t, i < Z.to_nat num_sequences -> t < Z.to_nat num_bits ->
      exists bits_0_t,
        length bits_0_t = S t /\
        (forall k, k <= t -> bits_0_t !! k = nd_get2 bit_sequences i k) /\
        nd_get2 parity i t = Some (f32_of_bool (cumulative_xor bits_0_t)) /\
        nd_get2 parity i t = Some (f32_of_Z (running_sum bits_0_t mod 2)).
Proof.
  intros Hns Hnb.
  pose proof (np_empty_ok_pos num_sequences num_bits Hns Hnb) as Hsz.
  split.
  { rewrite <- Hsz. split.
    - intros (r & w' & E).
      destruct (np_empty_ok 8 [num_sequences; num_bits]) eqn:Hok; [done|].
      rewrite get_random_bits_parity_refused in E by done. discriminate.
    - intros Hok.
      destruct (get_random_bits_parity_ok num_sequences num_bits w Hok) as (w' & E & _).
      by eexists _, w'. }
  intros bit_sequences parity w0 E0.
  assert (Hok : np_empty_ok 8 [num_sequences; num_bits] = true).
  { destruct (np_empty_ok 8 [num_sequences; num_bits]) eqn:Hok; [done|].
    rewrite get_random_bits_parity_refused in E0 by done. discriminate. }
  destruct (get_random_bits_parity_ok num_sequences num_bits w Hok) as (w' & E & _).
  rewrite E in E0. injection E0 as <- <- _. clear Hsz Hok.
  destruct (drawn_bits_spec num_sequences num_bits w) as [Hlen Hbits].
  set (n := Z.to_nat num_sequences) in *. set (m := Z.to_nat num_bits) in *.
  set (ints := drawn_bits num_sequences num_bits w) in *.
  intros i t Hi Ht.
  exists (take (S t) (nd_row m (map f32_of_Z ints) i)).
  assert (Hrow : length (nd_row m ints i) = m) by (apply length_nd_row; nia).
  assert (Hget : forall A (l : list A) j,
             j < m -> nd_get2 (mk_ndarray [n; m] l) i j = l !! (i * m + j)).
  { intros A l j Hj. unfold nd_get2. cbn. by rewrite decide_True by lia. }
  split; [|split].
  - rewrite length_take, nd_row_map, length_map. lia.
  - intros k Hk. rewrite lookup_take_lt by lia.
    rewrite lookup_nd_row by lia. symmetry. apply Hget. lia.
  - rewrite nd_row_map, <- fmap_take.
    assert (Hp : Forall is_bit (take (S t) (nd_row m ints i)))
      by by apply Forall_take, Forall_nd_row.
    destruct (bits_as_floats _ Hp) as [Hx Hs].
    assert (Hc : exists c, cumsum_row (nd_row m ints i) !! t = Some c).
    { apply lookup_lt_is_Some. rewrite length_cumsum_row. lia. }
    destruct Hc as [c Hc].
    assert (Hpar : nd_get2
               (mk_ndarray [n; m]
                  (map f32_of_bool
                     (map (fun s => negb (s mod 2 =? 0)%Z)
                        (concat (map cumsum_row (nd_rows n m ints)))))) i t
             = Some (f32_of_bool (negb (c mod 2 =? 0)%Z))).
    { rewrite Hget by lia. rewrite map_map, list_lookup_fmap.
      rewrite (lookup_concat_rows m).
      - rewrite list_lookup_fmap, lookup_nd_rows by lia. cbn. by rewrite Hc.
      - apply Forall_forall. intros r Hr.
        apply list_elem_of_In, in_map_iff in Hr as (r0 & <- & Hr0).
        rewrite length_cumsum_row.
        pose proof (Forall_length_nd_rows n m ints Hlen) as HF.
        rewrite Forall_forall in HF. apply HF. by apply list_elem_of_In.
      - lia. }
    apply cumsum_row_parity in Hc.
    change (fmap f32_of_Z (take (S t) (nd_row m ints i)))
      with (map f32_of_Z (take (S t) (nd_row m ints i))).
    rewrite Hx, Hs, Hpar, <- Hc. split; [reflexivity|].
    by rewrite f32_of_bool_parity.
Qed.

Lemma parity_is_cumulative_xor_witness :
  (1 <= 2)%Z /\ (1 <= 3)%Z /\
  exists bit_sequences parity w',
    get_random_bits_parity 2 3 sample_world = (Ok (bit_sequences, parity), w') /\
    forall i t, i < Z.to_nat 2 -> t < Z.to_nat 3 ->
      exists bits_0_t,
        length bits_0_t = S t /\
        (forall k, k <= t -> bits_0_t !! k = nd_get2 bit_sequences i k) /\
        nd_get2 parity i t = Some (f32_of_bool (cumulative_xor bits_0_t)) /\
        nd_get2 parity i t = Some (f32_of_Z (running_sum bits_0_t mod 2)).
Proof.
  assert (H1 : (1 <= 2)%Z) by lia. assert (H2 : (1 <= 3)%Z) by lia.
  split; [exact H1|]. split; [exact H2|].
  destruct (parity_is_cumulative_xor 2 3 sample_world H1 H2) as [_ Hp].
  eexists _, _, _. split; [reflexivity|].
  exact (Hp _ _ _ eq_refl).
Defined.

Example get_random_bits_parity_sample :
  fst (get_random_bits_parity 2 3 sample_world) =
    Ok (mk_ndarray [2; 3] [f32_zero; f32_zero; f32_one; f32_one; f32_one; f32_zero],
        mk_ndarray [2; 3] [f32_zero; f32_zero; f32_one; f32_one; f32_zero; f32_zero]).
Proof. vm_compute. reflexivity. Qed.

Lemma get_random_bits_parity_cases (ns nb : Z) (w : world) :
  (exists w', get_random_bits_parity ns nb w =
      (Ok (mk_ndarray [Z.to_nat ns; Z.to_nat nb] (map f32_of_Z (drawn_bits ns nb w)),
           mk_ndarray [Z.to_nat ns; Z.to_nat nb]
             (map f32_of_bool
                (map (fun s => negb (s mod 2 =? 0)%Z)
                   (concat (map cumsum_row
                      (nd_rows (Z.to_nat ns) (Z.to_nat nb) (drawn_bits ns nb w))))))),
       w') /\ heap w' = heap w /\ next_loc w' = next_loc w /\ torch_rng w' = torch_rng w /\
       np_empty_ok 8 [ns; nb] = true) \/
  (get_random_bits_parity ns nb w = (Raise ValueError, w) /\ np_empty_ok 8 [ns; nb] = false).
Proof.
  destruct (np_empty_ok 8 [ns; nb]) eqn:Hok.
  - left. destruct (get_random_bits_parity_ok ns nb w Hok) as (w' & ? & ? & ? & ?).
    exists w'. auto 10.
  - right. split; [by apply get_random_bits_parity_refused|done].
Qed.

(** C3: every element of the bit sequences that the generator returns is
    0.0 or 1.0. *)
Theorem bit_sequences_are_binary (num_sequences num_bits : Z) (w w' : world)
    (bit_sequences parity : ndarray float32) :
  get_random_bits_parity num_sequences num_bits w = (Ok (bit_sequences, parity), w') ->
  Forall (fun x => x = f32_zero \/ x = f32_one) (data bit_sequences) /\
  forall i t x, nd_get2 bit_sequences i t = Some x -> x = f32_zero \/ x = f32_one.
Proof.
  intros E.
  assert (HF : Forall (fun x => x = f32_zero \/ x = f32_one) (data bit_sequences)).
  { destruct (get_random_bits_parity_cases num_sequences num_bits w)
      as [(w1 & E1 & _) | [E1 _]]; rewrite E1 in E; [|discriminate].
    injection E as <- _ _. cbn.
    destruct (drawn_bits_spec num_sequences num_bits w) as [_ Hb].
    apply Forall_forall. intros x Hx.
    apply list_elem_of_In, in_map_iff in Hx as (b & <- & Hin).
    rewrite Forall_forall in Hb.
    destruct (Hb b) as [-> | ->]; [by apply list_elem_of_In|by left|by right]. }
  split; [exact HF|].
  intros i t x Hx. unfold nd_get2 in Hx.
  destruct (shape bit_sequences) as [|? [|? [|? ?]]]; try discriminate.
  destruct (decide _); [|discriminate].
  rewrite Forall_forall in HF. apply HF. by eapply list_elem_of_lookup_2.
Qed.

Lemma bit_sequences_are_binary_witness :
  exists w' bit_sequences parity,
    get_random_bits_parity 2 3 sample_world = (Ok (bit_sequences, parity), w') /\
    Forall (fun x => x = f32_zero \/ x = f32_one) (data bit_sequences) /\
    forall i t x, nd_get2 bit_sequences i t = Some x -> x = f32_zero \/ x = f32_one.
Proof.
  eexists _, _, _. split; [reflexivity|].
  exact (bit_sequences_are_binary 2 3 sample_world _ _ _ eq_refl).
Defined.

(** ** The dataset *)

(** What construction does: two new buffers, the bits and the labels. *)
Lemma XORDataset_init_ok (ns nb : Z) (w : world) :
  np_empty_ok 8 [ns; nb] = true ->
  let n := Z.to_nat ns in
  let m := Z.to_nat nb in
  exists bits labs w1,
    XORDataset_init ns nb w =
      (Ok (mk_XORDataset ns nb (mk_ref (next_loc w) 0 [n; m; 1])
                         (mk_ref (S (next_loc w)) 0 [n; m; 1])), w1) /\
    fst (get_random_bits_parity ns nb w) = Ok (mk_ndarray [n; m] bits, mk_ndarray [n; m] labs) /\
    length bits = n * m /\ length labs = n * m /\
    heap w1 = <[S (next_loc w) := labs]> (<[next_loc w := bits]> (heap w)) /\
    next_loc w1 = S (S (next_loc w)) /\ torch_rng w1 = torch_rng w.
Proof.
  intros Hsz n m.
  destruct (get_random_bits_parity_ok ns nb w Hsz) as (w' & E & Hh & Hn & Ht).
  destruct (drawn_bits_spec ns nb w) as [Hlen _].
  fold n m in E, Hlen.
  eexists _, _, _. unfold XORDataset_init, bind. rewrite E. cbn.
  rewrite Hh, Hn, Ht. split; [reflexivity|]. split; [reflexivity|].
  split; [by rewrite length_map|]. split; [|auto].
  rewrite !length_map.
  rewrite (length_concat_rows m).
  - unfold nd_rows. by rewrite !length_map, length_seq.
  - apply Forall_forall. intros r Hr.
    apply list_elem_of_In, in_map_iff in Hr as (r0 & <- & Hr0).
    rewrite length_cumsum_row.
    pose proof (Forall_length_nd_rows n m _ Hlen) as HF.
    rewrite Forall_forall in HF. apply HF. by apply list_elem_of_In.
Qed.

Lemma XORDataset_init_refused (ns nb : Z) (w : world) :
  np_empty_ok 8 [ns; nb] = false -> XORDataset_init ns nb w = (Raise ValueError, w).
Proof.
  intros H. unfold XORDataset_init, bind.
  by rewrite get_random_bits_parity_refused.
Qed.

(** A dataset is constructed exactly for the sizes that numpy accepts. *)
Lemma XORDataset_init_size (ns nb : Z) (w0 w1 : world) (ds : XORDataset) :
  XORDataset_init ns nb w0 = (Ok ds, w1) -> np_empty_ok 8 [ns; nb] = true.
Proof.
  intros E. destruct (np_empty_ok 8 [ns; nb]) eqn:Hok; [done|].
  rewrite XORDataset_init_refused in E by done. discriminate.
Qed.

(** Indexing a window of shape [n :: rest] at a valid index. *)
Lemma np_index0_spec (r : array_ref) (index : Z) (n : nat) (rest : list nat) :
  ashape r = n :: rest ->
  match np_index0 r index with
  | Ok x =>
      (- Z.of_nat n <= index < Z.of_nat n)%Z /\
      x = mk_ref (base r) (offset r + Z.to_nat (index mod Z.of_nat n) * numel rest) rest
  | Raise e => e = IndexError /\ (index < - Z.of_nat n \/ Z.of_nat n <= index)%Z
  end.
Proof.
  intros Hs. unfold np_index0. rewrite Hs.
  destruct (Z.ltb_spec index 0) as [Hneg|Hpos].
  - destruct (Z.ltb_spec (index + Z.of_nat n) 0); cbn [orb].
    + split; [done|lia].
    + destruct (Z.leb_spec (Z.of_nat n) (index + Z.of_nat n)); [lia|].
      split; [lia|].
      replace (index mod Z.of_nat n)%Z with (index + Z.of_nat n)%Z; [done|].
      apply Z.mod_unique with (q := (-1)%Z); lia.
  - destruct (Z.ltb_spec index 0); [lia|]. cbn [orb].
    destruct (Z.leb_spec (Z.of_nat n) index).
    + split; [done|lia].
    + split; [lia|]. by rewrite Z.mod_small by lia.
Qed.

(** C2: the two arrays of the generator have the shape
    [[num_sequences, num_bits]] and that many elements; a constructed dataset
    holds features and labels of shape [[num_sequences, num_bits, 1]]; and
    every item pairs a sequence and a label sequence of the one shape
    [[num_bits, 1]], [num_bits] elements each.  The generator and the
    constructor refuse, with [ValueError], only the sizes of which numpy
    makes no int64 array (a negative dimension, [2^63] bytes or more); an item
    is refused for an index out of range only. *)
Theorem shapes_agree (num_sequences num_bits : Z) (w : world) :
  match get_random_bits_parity num_sequences num_bits w with
  | (Ok (bit_sequences, parity), _) =>
      shape bit_sequences = [Z.to_nat num_sequences; Z.to_nat num_bits] /\
      shape parity = [Z.to_nat num_sequences; Z.to_nat num_bits] /\
      length (data bit_sequences) = numel (shape bit_sequences) /\
      length (data parity) = numel (shape parity)
  | (Raise e, _) => e = ValueError /\ np_empty_ok 8 [num_sequences; num_bits] = false
  end /\
  match XORDataset_init num_sequences num_bits w with
  | (Ok self, w1) =>
      ashape (features self) = [Z.to_nat num_sequences; Z.to_nat num_bits; 1] /\
      ashape (labels self) = [Z.to_nat num_sequences; Z.to_nat num_bits; 1] /\
      length (read_ref w1 (features self)) = numel (ashape (features self)) /\
      length (read_ref w1 (labels self)) = numel (ashape (labels self)) /\
      forall index : Z,
        match XORDataset_getitem self index w1 with
        | (Ok (x, y), w2) =>
            ashape x = [Z.to_nat num_bits; 1] /\ ashape y = [Z.to_nat num_bits; 1] /\
            length (read_ref w2 x) = Z.to_nat num_bits /\
            length (read_ref w2 y) = Z.to_nat num_bits
        | (Raise _, _) =>
            (index < - Z.of_nat (Z.to_nat num_sequences) \/
             Z.of_nat (Z.to_nat num_sequences) <= index)%Z
        end
  | (Raise e, _) => e = ValueError /\ np_empty_ok 8 [num_sequences; num_bits] = false
  end.
Proof.
  set (n := Z.to_nat num_sequences). set (m := Z.to_nat num_bits).
  destruct (np_empty_ok 8 [num_sequences; num_bits]) eqn:Hok;
    [|by rewrite get_random_bits_parity_refused, XORDataset_init_refused].
  destruct (XORDataset_init_ok num_sequences num_bits w Hok)
    as (bits & labs & w1 & E & G & Hb & Hl & Hh & Hn & _).
  apply np_empty_ok_pair in Hok as (H1 & H2 & _).
  fold n m in E, G, Hb, Hl. split.
  - destruct (get_random_bits_parity num_sequences num_bits w) as [[[b p]|e] w'];
      cbn in G; [|discriminate].
    injection G as -> ->. cbn [shape data]. rewrite numel_pair. auto.
  - rewrite E. cbn [features labels ashape].
    assert (Hnum : numel [n; m; 1] = n * m) by (unfold numel; cbn; lia).
    assert (Hbuf0 : buffer w1 (next_loc w) = bits).
    { unfold buffer. rewrite Hh, lookup_insert_ne, lookup_insert_eq by lia. done. }
    assert (Hbuf1 : buffer w1 (S (next_loc w)) = labs).
    { unfold buffer. by rewrite Hh, lookup_insert_eq. }
    split; [done|]. split; [done|].
    split; [unfold read_ref; cbn; rewrite Hbuf0, drop_0, length_take; lia|].
    split; [unfold read_ref; cbn; rewrite Hbuf1, drop_0, length_take; lia|].
    intros index. unfold XORDataset_getitem, bind, lift, np_index0_all.
    cbn [features labels ashape].
    pose proof (np_index0_spec (mk_ref (next_loc w) 0 [n; m; 1]) index n [m; 1] eq_refl) as Sf.
    pose proof (np_index0_spec (mk_ref (S (next_loc w)) 0 [n; m; 1]) index n [m; 1] eq_refl) as Sl.
    destruct (np_index0 (mk_ref (next_loc w) 0 [n; m; 1]) index) as [x|e];
      [|destruct Sf; done].
    destruct (np_index0 (mk_ref (S (next_loc w)) 0 [n; m; 1]) index) as [y|e];
      [|destruct Sl; done].
    destruct Sf as [Hi ->], Sl as [_ ->]. cbn.
    assert (Hm : numel [m; 1] = m) by (unfold numel; cbn; lia).
    pose proof (Z.mod_pos_bound index (Z.of_nat n) ltac:(lia)) as Hk.
    set (k := Z.to_nat (index mod Z.of_nat n)) in *.
    assert (k < n) by lia.
    split; [done|]. split; [done|].
    unfold read_ref; cbn. rewrite Hbuf0, Hbuf1, !length_take, !length_drop. nia.
Qed.

Example XORDataset_getitem_sample :
  fst (bind (XORDataset_init 2 3)
            (fun ds => bind (XORDataset_getitem ds (-1))
                            (fun xy => bind (get_value (fst xy))
                                            (fun x => bind (get_value (snd xy))
                                                           (fun y => ret (x, y)))))
            sample_world) =
    Ok (mk_ndarray [3; 1] [f32_one; f32_one; f32_zero],
        mk_ndarray [3; 1] [f32_one; f32_zero; f32_zero]).
Proof. vm_compute. reflexivity. Qed.

(** ** adjust_lengths *)

Lemma zero_writes_refl (L : list nat) (w : world) : zero_writes L w w.
Proof. unfold zero_writes. auto 10. Qed.

Lemma zero_writes_trans (L : list nat) (w1 w2 w3 : world) :
  zero_writes L w1 w2 -> zero_writes L w2 w3 -> zero_writes L w1 w3.
Proof.
  intros (A1 & A4 & A5 & A6) (B1 & B4 & B5 & B6).
  unfold zero_writes.
  split; [congruence|].
  split; [|split].
  - intros l Hl. rewrite B4, A4; auto.
  - intros l. rewrite B5, A5; auto.
  - auto.
Qed.

Lemma zero_writes_mono (L L' : list nat) (w w' : world) :
  L ⊆ L' -> zero_writes L w w' -> zero_writes L' w w'.
Proof.
  intros HL (A1 & A4 & A5 & A6).
  unfold zero_writes. split; [done|]. split; [|auto].
  intros l Hl. apply A4. set_solver.
Qed.

Lemma buffer_fill (r : array_ref) (start len : nat) (v : float32) (w : world) (l : nat) :
  buffer (snd (fill r start len v w)) l =
    if decide (l = base r)
    then list_inserts (offset r + start) (replicate len v) (buffer w l)
    else buffer w l.
Proof.
  unfold fill, buffer. cbn. destruct (decide (l = base r)) as [->|Hne].
  - rewrite lookup_alter_eq. destruct (heap w !! base r); cbn; [done|].
    by rewrite list_inserts_nil.
  - by rewrite lookup_alter_ne.
Qed.

(** A write of zeros: the cells of the range are zero afterwards. *)
Lemma fill_zero_spec (r : array_ref) (start len : nat) (w : world) :
  fst (fill r start len f32_zero w) = Ok tt /\
  zero_writes [base r] w (snd (fill r start len f32_zero w)) /\
  forall c, offset r + start <= c < offset r + start + len ->
            c < length (buffer w (base r)) ->
            buffer (snd (fill r start len f32_zero w)) (base r) !! c = Some f32_zero.
Proof.
  split; [reflexivity|]. split.
  - unfold zero_writes. split; [reflexivity|]. split; [|split].
    + intros l Hl. cbn. apply lookup_alter_ne. set_solver.
    + intros l. rewrite buffer_fill. destruct (decide _); [|done].
      by rewrite length_inserts.
    + intros l c Hc. rewrite buffer_fill. destruct (decide _) as [->|]; [|done].
      destruct (decide (c < offset r + start)).
      { by rewrite list_lookup_inserts_lt. }
      destruct (decide (offset r + start + len <= c)).
      { rewrite list_lookup_inserts_ge by (rewrite length_replicate; lia). done. }
      rewrite list_lookup_inserts.
      * apply lookup_replicate_2. lia.
      * rewrite length_replicate. lia.
      * by eapply lookup_lt_Some.
  - intros c Hc Hlen. rewrite buffer_fill, decide_True by done.
    rewrite list_lookup_inserts by (rewrite ?length_replicate; lia).
    apply lookup_replicate_2. lia.
Qed.

Lemma slice_start_in_range (li : Z) (T : nat) :
  (1 <= li <= Z.of_nat T)%Z -> slice_start li T = Z.to_nat li.
Proof.
  intros H. unfold slice_start. destruct (Z.ltb_spec li 0); lia.
Qed.

(** [x[i, li:, ] = 0] on a [[B, T, 1]] tensor. *)
Lemma zero_from_spec (x : array_ref) (B T i : nat) (li : Z) (w : world) :
  ashape x = [B; T; 1] -> i < B -> (1 <= li <= Z.of_nat T)%Z ->
  offset x + B * T <= length (buffer w (base x)) ->
  exists w',
    zero_from x i li w = (Ok tt, w') /\
    zero_writes [base x] w w' /\
    forall k, Z.to_nat li <= k < T ->
              buffer w' (base x) !! (offset x + (i * T + k)) = Some f32_zero.
Proof.
  intros Hs Hi Hli Hbuf. unfold zero_from. rewrite Hs.
  destruct (Nat.leb_spec B i); [lia|].
  rewrite slice_start_in_range by done.
  destruct (fill_zero_spec x ((i * T + Z.to_nat li) * numel [1])
              ((T - Z.to_nat li) * numel [1]) w) as (E1 & E2 & E3).
  eexists. split; [reflexivity|]. split; [exact E2|].
  intros k Hk. apply E3; unfold numel; cbn; nia.
Qed.

(** The chopping loop over the sequences [idxs]. *)
Lemma chop_loop (inputs targets : array_ref) (B T : nat) (lengths : list Z) (idxs : list nat) :
  ashape inputs = [B; T; 1] -> ashape targets = [B; T; 1] ->
  length lengths = B -> Forall (fun l => (1 <= l <= Z.of_nat T)%Z) lengths ->
  Forall (fun i => i < B) idxs ->
  forall w,
    offset inputs + B * T <= length (buffer w (base inputs)) ->
    offset targets + B * T <= length (buffer w (base targets)) ->
    exists w',
      for_each (chop inputs targets lengths) idxs w = (Ok tt, w') /\
      zero_writes [base inputs; base targets] w w' /\
      forall i li k, i ∈ idxs -> lengths !! i = Some li -> Z.to_nat li <= k < T ->
        buffer w' (base inputs) !! (offset inputs + (i * T + k)) = Some f32_zero /\
        buffer w' (base targets) !! (offset targets + (i * T + k)) = Some f32_zero.
Proof.
  intros Hsi Hst Hlen Hrange His.
  induction His as [|i idxs Hi _ IH]; intros w Hbi Hbt.
  - exists w. split; [reflexivity|]. split; [apply zero_writes_refl|].
    intros i li k Hin. by apply elem_of_nil in Hin.
  - assert (Hli : exists li, lengths !! i = Some li)
      by (apply lookup_lt_is_Some; lia).
    destruct Hli as [li Hli].
    assert (Hr : (1 <= li <= Z.of_nat T)%Z).
    { rewrite Forall_forall in Hrange. apply Hrange. by eapply list_elem_of_lookup_2. }
    destruct (zero_from_spec inputs B T i li w Hsi Hi Hr Hbi) as (w1 & E1 & Z1 & C1).
    assert (Hbt1 : offset targets + B * T <= length (buffer w1 (base targets))).
    { destruct Z1 as (_ & _ & L1 & _). by rewrite L1. }
    destruct (zero_from_spec targets B T i li w1 Hst Hi Hr Hbt1) as (w2 & E2 & Z2 & C2).
    assert (Z12 : zero_writes [base inputs; base targets] w w2).
    { apply zero_writes_trans with w1.
      - apply (zero_writes_mono [base inputs]); [|done].
        intros l Hl. apply elem_of_cons. left. by apply list_elem_of_singleton in Hl.
      - apply (zero_writes_mono [base targets]); [|done].
        intros l Hl. apply elem_of_cons. right. done. }
    destruct (IH w2) as (w3 & E3 & Z3 & C3).
    { destruct Z12 as (_ & _ & L & _). by rewrite L. }
    { destruct Z12 as (_ & _ & L & _). by rewrite L. }
    exists w3. split.
    + cbn [for_each]. unfold bind at 1. unfold chop.
      unfold bind, lift, getitem. rewrite Hli, E1, E2. exact E3.
    + split; [by eapply zero_writes_trans|].
      intros i' li' k Hin Hl' Hk. apply elem_of_cons in Hin as [->|Hin]; [|by eapply C3].
      rewrite Hli in Hl'. injection Hl' as <-.
      destruct Z3 as (_ & _ & _ & K3). destruct Z2 as (_ & _ & _ & K2).
      split; apply K3; [apply K2|]; auto.
Qed.

(** ** The lengths *)

Lemma StronglySorted_lookup {A} (R : A -> A -> Prop) (l : list A) (i j : nat) (a b : A) :
  StronglySorted R l -> i < j -> l !! i = Some a -> l !! j = Some b -> R a b.
Proof.
  intros HS. revert i j. induction HS as [|x l HS IH HF]; intros i j Hij Ha Hb; [done|].
  destruct j as [|j]; [lia|]. destruct i as [|i]; cbn in Ha, Hb.
  - injection Ha as <-. rewrite Forall_forall in HF. apply HF.
    by eapply list_elem_of_lookup_2.
  - apply (IH i j); [lia|done..].
Qed.

Lemma decreasing_of_non_increasing (l : list Z) : non_increasing l -> decreasing l = true.
Proof.
  induction l as [|x [|y l] IH]; intros H; [done..|].
  cbn [decreasing]. apply andb_true_intro. split.
  - apply Z.leb_le. by apply (H 0 1 x y); [lia|..].
  - apply IH. intros i j a b Hij Ha Hb. by apply (H (S i) (S j) a b); [lia|..].
Qed.

Lemma non_increasing_of_decreasing (l : list Z) : decreasing l = true -> non_increasing l.
Proof.
  induction l as [|x l IH]; intros H i j a b Hij Ha Hb; [done|].
  assert (Hl : decreasing l = true).
  { destruct l; [done|]. cbn [decreasing] in H. by apply andb_prop in H as [_ ?]. }
  destruct j as [|j].
  - assert (i = 0) as -> by lia. rewrite Ha in Hb. injection Hb as <-. lia.
  - destruct i as [|i]; cbn in Ha, Hb; [|by apply (IH Hl i j); [lia|..]].
    injection Ha as <-. destruct l as [|y l]; [done|].
    cbn [decreasing] in H. apply andb_prop in H as [Hxy _]. apply Z.leb_le in Hxy.
    assert (b <= y)%Z; [|lia].
    by apply (IH Hl 0 j y b); [lia|..].
Qed.

(** The lengths after the first one is set to [T] and the vector is sorted in
    descending order. *)
Lemma sorted_lengths_spec (T : Z) (drawn : list Z) :
  Forall (fun l => (1 <= l <= T)%Z) drawn -> (1 <= T)%Z ->
  let lengths := map Z.opp (np_sort (map Z.opp (T :: drawn))) in
  length lengths = S (length drawn) /\
  non_increasing lengths /\
  head lengths = Some T /\
  Forall (fun l => (1 <= l <= T)%Z) lengths.
Proof.
  intros Hd HT lengths.
  assert (HP : lengths ≡ₚ T :: drawn).
  { unfold lengths, np_sort.
    rewrite merge_sort_Permutation, map_map.
    erewrite map_ext; [by rewrite map_id|]. intros; cbn; lia. }
  assert (HF : Forall (fun l => (1 <= l <= T)%Z) lengths).
  { rewrite HP. constructor; [lia|done]. }
  assert (HS : non_increasing lengths).
  { intros i j a b Hij Ha Hb.
    destruct (decide (i = j)) as [->|Hne]; [rewrite Ha in Hb; injection Hb; lia|].
    unfold lengths in Ha, Hb.
    change (map Z.opp ?l) with (fmap Z.opp l) in Ha, Hb.
    rewrite list_lookup_fmap in Ha, Hb.
    destruct (np_sort _ !! i) as [a'|] eqn:Ea; [|done].
    destruct (np_sort _ !! j) as [b'|] eqn:Eb; [|done].
    injection Ha as <-. injection Hb as <-.
    pose proof (StronglySorted_merge_sort Z.le (Z.opp <$> (T :: drawn))) as SS.
    pose proof (StronglySorted_lookup _ _ i j a' b' SS ltac:(lia) Ea Eb). lia. }
  split; [by rewrite HP|]. split; [done|]. split; [|done].
  destruct lengths as [|x rest] eqn:E.
  - apply Permutation_nil_cons in HP. done.
  - cbn. f_equal. apply Z.le_antisymm.
    + rewrite Forall_forall in HF. apply HF. left.
    + assert (Hin : T ∈ x :: rest) by (rewrite HP; left).
      apply list_elem_of_lookup in Hin as [j Hj].
      by apply (HS 0 j x T); [lia|..].
Qed.

(** Drawing [n >= 1] integers of a non-empty range [[lo, hi)] of int64, in
    an array that numpy can make. *)
Lemma np_random_randint_1d (lo hi : Z) (n : nat) (w : world) :
  1 <= n -> (8 * Z.of_nat n < 2 ^ 63)%Z ->
  (lo < hi)%Z -> (- 2 ^ 63 <= lo)%Z -> (hi <= 2 ^ 63)%Z ->
  exists a w',
    np_random_randint lo (Some hi) [Z.of_nat n] w = (Ok a, w') /\
    shape a = [n] /\ length (data a) = n /\
    Forall (fun x => (lo <= x < hi)%Z) (data a) /\
    heap w' = heap w /\ next_loc w' = next_loc w.
Proof.
  intros Hn Hsz Hlh Hlo Hhi. unfold np_random_randint.
  rewrite (proj2 (np_empty_ok_1d (Z.of_nat n))) by lia.
  cbn [negb map]. rewrite Nat2Z.id.
  assert (Hnum : numel [n] = n) by (unfold numel; cbn; lia).
  rewrite Hnum.
  destruct (Nat.eqb_spec n 0); [lia|].
  destruct (Z.ltb_spec lo (- 2 ^ 63)); [lia|].
  destruct (Z.ltb_spec (2 ^ 63) hi); [lia|].
  destruct (Z.leb_spec hi lo); [lia|]. cbn [orb].
  unfold rng_take. eexists _, _. split; [reflexivity|]. cbn.
  split; [done|]. split; [by rewrite !length_map, length_seq|]. split; [|done].
  apply Forall_forall. intros x Hx.
  apply list_elem_of_In, in_map_iff in Hx as (r & <- & _).
  pose proof (Z.mod_pos_bound r (hi - lo) ltac:(lia)). lia.
Qed.

(** An empty range is refused when at least one integer is asked for. *)
Lemma np_random_randint_1d_empty_range (lo hi : Z) (n : nat) (w : world) :
  1 <= n -> (hi <= lo)%Z ->
  np_random_randint lo (Some hi) [Z.of_nat n] w = (Raise ValueError, w).
Proof.
  intros Hn Hlh. unfold np_random_randint.
  destruct (np_empty_ok 8 [Z.of_nat n]); [|done].
  cbn [negb map]. rewrite Nat2Z.id.
  assert (Hnum : numel [n] = n) by (unfold numel; cbn; lia).
  rewrite Hnum.
  destruct (Nat.eqb_spec n 0); [lia|].
  destruct (Z.leb_spec hi lo); [|lia]. by rewrite !orb_true_r.
Qed.

(** ** adjust_lengths with varying lengths *)

Lemma adjust_lengths_vary_spec (w : world) (inputs targets : array_ref) (B T : nat) :
  is_batch w inputs targets B T -> 1 <= B -> 2 <= T ->
  exists lengths w',
    adjust_lengths true inputs targets w = (Ok lengths, w') /\
    length lengths = B /\
    non_increasing lengths /\
    head lengths = Some (Z.of_nat T) /\
    Forall (fun l => (1 <= l <= Z.of_nat T)%Z) lengths /\
    zero_writes [base inputs; base targets] w w' /\
    forall i li k, lengths !! i = Some li -> Z.to_nat li <= k < T ->
      buffer w' (base inputs) !! (offset inputs + (i * T + k)) = Some f32_zero /\
      buffer w' (base targets) !! (offset targets + (i * T + k)) = Some f32_zero.
Proof.
  intros (Hsi & Hst & Hbi & Hbt & Hsz) HB HT.
  destruct (np_random_randint_1d 1 (Z.of_nat T) B w HB)
    as (a & wr & Er & _ & Hla & Hra & Hh & Hn); [nia|lia|lia|nia|].
  destruct (data a) as [|d0 drawn] eqn:Ea; [cbn in Hla; lia|].
  assert (Hdrawn : Forall (fun l => (1 <= l <= Z.of_nat T)%Z) drawn).
  { apply Forall_cons in Hra as [_ Hra]. eapply Forall_impl; [exact Hra|].
    cbn. intros; lia. }
  destruct (sorted_lengths_spec (Z.of_nat T) drawn Hdrawn ltac:(lia))
    as (Hlen & Hsorted & Hhead & Hrange).
  set (lengths := map Z.opp (np_sort (map Z.opp (Z.of_nat T :: drawn)))) in *.
  assert (HlenB : length lengths = B) by (cbn in Hla; lia).
  assert (Hbuf : forall l, buffer wr l = buffer w l)
    by (intros l; unfold buffer; by rewrite Hh).
  destruct (chop_loop inputs targets B T lengths (seq 0 (length lengths)) Hsi Hst HlenB Hrange)
    with (w := wr) as (w' & El & Zl & Cl).
  { apply Forall_forall. intros i Hi. apply elem_of_seq in Hi. lia. }
  { by rewrite Hbuf. }
  { by rewrite Hbuf. }
  exists lengths, w'. split.
  - unfold adjust_lengths, bind, lift, size_at. rewrite Hsi. cbn [lookup list_lookup negb].
    rewrite Er, Ea. cbn [setitem0]. fold lengths. rewrite El. reflexivity.
  - split; [done|]. split; [done|]. split; [done|]. split; [done|]. split.
    + destruct Zl as (Z1 & Z2 & Z3 & Z4). unfold zero_writes.
      split; [congruence|]. split; [intros l Hl; rewrite Z2, Hh; auto|].
      split; [intros l; by rewrite Z3, Hbuf|].
      intros l c Hc. apply Z4. by rewrite Hbuf.
    + intros i li k Hi Hk. apply (Cl i li k); [|done..].
      apply elem_of_seq. apply lookup_lt_Some in Hi. lia.
Qed.

Lemma tensor_at_buffer (w : world) (x : array_ref) (B T i k : nat) :
  ashape x = [B; T; 1] -> i < B -> k < T ->
  tensor_at w x i k = buffer w (base x) !! (offset x + (i * T + k)).
Proof.
  intros Hs Hi Hk. unfold tensor_at, read_ref. rewrite Hs.
  rewrite decide_True by done.
  assert (Hnum : numel [B; T; 1] = B * T) by (unfold numel; cbn; lia).
  rewrite Hnum, lookup_take_lt by nia. by rewrite lookup_drop.
Qed.

(** Without a sequence there is no first length to set. *)
Lemma adjust_lengths_vary_empty (w : world) (inputs targets : array_ref) (T : nat) :
  is_batch w inputs targets 0 T ->
  adjust_lengths true inputs targets w = (Raise IndexError, w).
Proof.
  intros (Hsi & _). destruct w as [hp nl r1 r2].
  unfold adjust_lengths, bind, lift, size_at. rewrite Hsi. reflexivity.
Qed.

(** C8, amended: on a batch of at least one sequence whose sequence
    dimension is at least 2, [adjust_lengths] with varying lengths returns
    one length per sequence, in non-increasing order, the first one equal to
    the sequence dimension, each between 1 and the sequence dimension;
    afterwards [inputs[i, k]] and [targets[i, k]] are zero at every position
    [k] from [lengths[i]] on. *)
Theorem adjust_lengths_vary (w : world) (inputs targets : array_ref) (B max_bits : nat) :
  is_batch w inputs targets B max_bits -> 1 <= B -> 2 <= max_bits ->
  exists lengths w',
    adjust_lengths true inputs targets w = (Ok lengths, w') /\
    length lengths = B /\
    non_increasing lengths /\
    head lengths = Some (Z.of_nat max_bits) /\
    Forall (fun l => (1 <= l <= Z.of_nat max_bits)%Z) lengths /\
    forall i li k, lengths !! i = Some li -> (li <= Z.of_nat k)%Z -> k < max_bits ->
      tensor_at w' inputs i k = Some f32_zero /\
      tensor_at w' targets i k = Some f32_zero.
Proof.
  intros Hb HB HT.
  destruct (adjust_lengths_vary_spec w inputs targets B max_bits Hb HB HT)
    as (lengths & w' & E & Hlen & Hs & Hh & Hr & _ & Hz).
  exists lengths, w'. do 5 (split; [done|]).
  intros i li k Hi Hli Hk.
  destruct Hb as (Hsi & Hst & _).
  assert (i < B) by (apply lookup_lt_Some in Hi; lia).
  rewrite (tensor_at_buffer w' inputs B max_bits), (tensor_at_buffer w' targets B max_bits)
    by done.
  apply (Hz i li k Hi). lia.
Qed.

(** On a batch of no sequence and sequence dimension 3 the draw returns an
    empty vector and setting its first entry fails: no lengths are
    returned. *)
Lemma adjust_lengths_vary_no_sequence :
  is_batch empty_batch_world (empty_inputs 3) (empty_targets 3) 0 3 /\ 2 <= 3 /\
  adjust_lengths true (empty_inputs 3) (empty_targets 3) empty_batch_world
    = (Raise IndexError, empty_batch_world) /\
  ~ (exists lengths w',
       adjust_lengths true (empty_inputs 3) (empty_targets 3) empty_batch_world
         = (Ok lengths, w')).
Proof.
  assert (H : is_batch empty_batch_world (empty_inputs 3) (empty_targets 3) 0 3).
  { unfold is_batch. vm_compute. repeat split; lia. }
  split; [exact H|]. split; [lia|].
  rewrite (adjust_lengths_vary_empty _ _ _ 3 H). split; [reflexivity|].
  intros (lengths & w' & E). discriminate.
Qed.

(** ** adjust_lengths with fixed lengths *)

Lemma wrap32_small (z : Z) : (- 2 ^ 31 <= z < 2 ^ 31)%Z -> wrap32 z = z.
Proof. intros Hz. unfold wrap32. rewrite Z.mod_small; lia. Qed.

(** With fixed lengths the call reads the two sizes and nothing else. *)
Lemma adjust_lengths_fixed_spec (w : world) (inputs targets : array_ref) (B T : nat)
    (rest : list nat) :
  ashape inputs = B :: T :: rest ->
  adjust_lengths false inputs targets w = (Ok (replicate B (wrap32 (Z.of_nat T))), w).
Proof.
  intros Hsi.
  unfold adjust_lengths, bind, lift, size_at. rewrite Hsi. cbn [lookup list_lookup negb].
  unfold ret. by rewrite Z.mul_1_l.
Qed.



(** ** When adjust_lengths fails *)

(** C10, amended: on a batch of at least one sequence, [adjust_lengths] with
    varying lengths fails with the [ValueError] of the draw over the empty
    range [[1, 1)] when the sequence dimension is 1, and returns when the
    sequence dimension is at least 2. *)
Theorem adjust_lengths_vary_fails_only_on_one_bit
    (w : world) (inputs targets : array_ref) (B max_bits : nat) :
  is_batch w inputs targets B max_bits -> 1 <= B ->
  (max_bits = 1 -> adjust_lengths true inputs targets w = (Raise ValueError, w)) /\
  (2 <= max_bits ->
   exists lengths w', adjust_lengths true inputs targets w = (Ok lengths, w')).
Proof.
  intros Hb HB. split.
  - intros ->. destruct Hb as (Hsi & _).
    unfold adjust_lengths, bind, lift, size_at. rewrite Hsi. cbn [lookup list_lookup negb].
    by rewrite np_random_randint_1d_empty_range by lia.
  - intros HT.
    destruct (adjust_lengths_vary_spec w inputs targets B max_bits Hb HB HT)
      as (lengths & w' & E & _).
    by exists lengths, w'.
Qed.

(** With sequence dimension 2 the call still fails on a batch of no
    sequence, with the [IndexError] of [lengths[0] = max_bits]. *)
Lemma adjust_lengths_vary_fails_beyond_one_bit :
  is_batch empty_batch_world (empty_inputs 2) (empty_targets 2) 0 2 /\ 2 <= 2 /\
  fst (adjust_lengths true (empty_inputs 2) (empty_targets 2) empty_batch_world)
    = Raise IndexError /\
  ~ (exists lengths w',
       adjust_lengths true (empty_inputs 2) (empty_targets 2) empty_batch_world
         = (Ok lengths, w')).
Proof.
  assert (H : is_batch empty_batch_world (empty_inputs 2) (empty_targets 2) 0 2).
  { unfold is_batch. vm_compute. repeat split; lia. }
  split; [exact H|]. split; [lia|].
  rewrite (adjust_lengths_vary_empty _ _ _ 2 H). split; [reflexivity|].
  intros (lengths & w' & E). discriminate.
Qed.

Example sample_batch_is_batch :
  is_batch sample_batch_world sample_inputs sample_targets 2 3.
Proof.
  unfold is_batch, buffer, sample_batch_world. cbn [base offset ashape heap sample_inputs sample_targets].
  rewrite lookup_insert_eq, lookup_insert_ne, lookup_insert_eq by lia.
  cbn. repeat split; lia.
Qed.

Example adjust_lengths_sample :
  fst (bind (adjust_lengths true sample_inputs sample_targets)
            (fun lengths => bind (get_value sample_inputs)
               (fun x => bind (get_value sample_targets)
                  (fun y => ret (lengths, data x, data y))))
            sample_batch_world) =
    Ok ([3; 1]%Z,
        [f32_zero; f32_one; f32_zero; f32_one; f32_zero; f32_zero],
        [f32_zero; f32_one; f32_one; f32_one; f32_zero; f32_zero]).
Proof. vm_compute. reflexivity. Qed.

Lemma adjust_lengths_vary_witness :
  is_batch sample_batch_world sample_inputs sample_targets 2 3 /\ 1 <= 2 /\ 2 <= 3 /\
  exists lengths w',
    adjust_lengths true sample_inputs sample_targets sample_batch_world = (Ok lengths, w') /\
    length lengths = 2 /\
    non_increasing lengths /\
    head lengths = Some (Z.of_nat 3) /\
    Forall (fun l => (1 <= l <= Z.of_nat 3)%Z) lengths /\
    forall i li k, lengths !! i = Some li -> (li <= Z.of_nat k)%Z -> k < 3 ->
      tensor_at w' sample_inputs i k = Some f32_zero /\
      tensor_at w' sample_targets i k = Some f32_zero.
Proof.
  assert (H : is_batch sample_batch_world sample_inputs sample_targets 2 3).
  { unfold is_batch. vm_compute. repeat split; lia. }
  split; [exact H|]. split; [lia|]. split; [lia|].
  apply (adjust_lengths_vary sample_batch_world sample_inputs sample_targets 2 3 H); lia.
Defined.


Lemma adjust_lengths_vary_fails_only_on_one_bit_witness :
  (is_batch one_bit_batch_world one_bit_inputs one_bit_targets 2 1 /\
   1 <= 2 /\ 1 = 1 /\
   adjust_lengths true one_bit_inputs one_bit_targets one_bit_batch_world
     = (Raise ValueError, one_bit_batch_world)) /\
  (is_batch sample_batch_world sample_inputs sample_targets 2 3 /\
   1 <= 2 /\ 2 <= 3 /\
   exists lengths w',
     adjust_lengths true sample_inputs sample_targets sample_batch_world = (Ok lengths, w')).
Proof.
  assert (H1 : is_batch one_bit_batch_world one_bit_inputs one_bit_targets 2 1).
  { unfold is_batch. vm_compute. repeat split; lia. }
  assert (H3 : is_batch sample_batch_world sample_inputs sample_targets 2 3).
  { unfold is_batch. vm_compute. repeat split; lia. }
  split.
  - split; [exact H1|]. split; [lia|]. split; [reflexivity|].
    apply (adjust_lengths_vary_fails_only_on_one_bit _ _ _ 2 1 H1); [lia|reflexivity].
  - split; [exact H3|]. split; [lia|]. split; [lia|].
    apply (adjust_lengths_vary_fails_only_on_one_bit _ _ _ 2 3 H3); lia.
Defined.

(** ** Rounding to binary64 *)

Local Open Scope Z_scope.

Lemma digits2_pos_bounds (p : positive) :
  2 ^ (Z.pos (digits2_pos p) - 1) <= Z.pos p < 2 ^ Z.pos (digits2_pos p).
Proof.
  induction p as [p IH|p IH|]; cbn [digits2_pos].
  - rewrite Pos2Z.inj_succ, (Pos2Z.inj_xI p).
    replace (Z.succ (Z.pos (digits2_pos p)) - 1) with (Z.succ (Z.pos (digits2_pos p) - 1)) by lia.
    rewrite !Z.pow_succ_r by lia. lia.
  - rewrite Pos2Z.inj_succ, (Pos2Z.inj_xO p).
    replace (Z.succ (Z.pos (digits2_pos p)) - 1) with (Z.succ (Z.pos (digits2_pos p) - 1)) by lia.
    rewrite !Z.pow_succ_r by lia. lia.
  - cbn. lia.
Qed.

Lemma digits2_pos_unique (p : positive) (k : Z) :
  2 ^ (k - 1) <= Z.pos p < 2 ^ k -> Z.pos (digits2_pos p) = k.
Proof.
  intros [Hlo Hhi]. pose proof (digits2_pos_bounds p) as [Dlo Dhi].
  set (d := Z.pos (digits2_pos p)) in *.
  assert (0 < d) by (unfold d; lia).
  assert (0 < k).
  { destruct (Z.lt_ge_cases 0 k); [done|].
    rewrite (Z.pow_neg_r 2 (k - 1)) in Hlo by lia.
    assert (2 ^ k <= 2 ^ 0) by (destruct (Z.eq_dec k 0) as [->|]; [lia|rewrite Z.pow_neg_r; lia]).
    cbn in *. lia. }
  destruct (Z.lt_trichotomy d k) as [Hlt|[Heq|Hgt]]; [|done|].
  - assert (2 ^ d <= 2 ^ (k - 1)) by (apply Z.pow_le_mono_r; lia). lia.
  - assert (2 ^ k <= 2 ^ (d - 1)) by (apply Z.pow_le_mono_r; lia). lia.
Qed.

Lemma shr_1_m (x : shr_record) : 0 <= shr_m x -> shr_m (shr_1 x) = shr_m x / 2.
Proof.
  destruct x as [m r s]. cbn [shr_m]. intros Hm.
  destruct m as [|[p|p|]|p]; cbn [shr_1 shr_m]; try lia.
  - reflexivity.
  - rewrite (Pos2Z.inj_xI p). apply Z.div_unique with (r := 1); lia.
  - rewrite (Pos2Z.inj_xO p). apply Z.div_unique with (r := 0); lia.
  - reflexivity.
Qed.

Lemma iter_pos_shr_m (n : positive) (x : shr_record) :
  0 <= shr_m x -> shr_m (SpecFloat.iter_pos shr_1 n x) = shr_m x / 2 ^ Z.pos n.
Proof.
  revert x. induction n as [n IH|n IH|]; intros x Hx; cbn [SpecFloat.iter_pos].
  - assert (H1 : 0 <= shr_m (shr_1 x)) by (rewrite shr_1_m by done; apply Z.div_pos; lia).
    assert (H2 : 0 <= shr_m (SpecFloat.iter_pos shr_1 n (shr_1 x)))
      by (rewrite IH by done; apply Z.div_pos; lia).
    rewrite (IH _ H2), (IH _ H1), shr_1_m by done.
    rewrite !Z.div_div by lia. f_equal.
    rewrite (Pos2Z.inj_xI n), Z.pow_add_r, Z.pow_mul_r by lia.
    change (2 ^ 2) with 4. change (2 ^ 1) with 2.
    replace 4 with (2 * 2) by lia. rewrite Z.pow_mul_l. lia.
  - assert (H1 : 0 <= shr_m (SpecFloat.iter_pos shr_1 n x))
      by (rewrite IH by done; apply Z.div_pos; lia).
    rewrite (IH _ H1), (IH _ Hx).
    rewrite !Z.div_div by lia. f_equal.
    rewrite (Pos2Z.inj_xO n), Z.pow_mul_r by lia.
    change (2 ^ 2) with 4. replace 4 with (2 * 2) by lia. rewrite Z.pow_mul_l. lia.
  - rewrite shr_1_m by done. reflexivity.
Qed.

Lemma shr_1_clear (x : shr_record) :
  0 <= shr_m x -> flags_clear x -> shr_m x mod 2 = 0 -> flags_clear (shr_1 x).
Proof.
  destruct x as [m r s]. unfold flags_clear. cbn [shr_m shr_r shr_s].
  intros Hm [-> ->] Hmod.
  destruct m as [|[p|p|]|p]; cbn; try lia; try done.
  rewrite (Pos2Z.inj_xI p) in Hmod.
  rewrite <- (Z.mod_unique_pos (2 * Z.pos p + 1) 2 (Z.pos p) 1) in Hmod by lia. lia.
Qed.

Lemma mod_pow2_split (m a b : Z) :
  0 <= a -> 0 <= b -> m mod 2 ^ (a + b) = 0 ->
  m mod 2 ^ a = 0 /\ (m / 2 ^ a) mod 2 ^ b = 0.
Proof.
  intros Ha Hb H. rewrite Z.pow_add_r in H by lia.
  assert (0 < 2 ^ a) by (apply Z.pow_pos_nonneg; lia).
  assert (0 < 2 ^ b) by (apply Z.pow_pos_nonneg; lia).
  rewrite Z.rem_mul_r in H by lia.
  pose proof (Z.mod_pos_bound m (2 ^ a) ltac:(lia)).
  pose proof (Z.mod_pos_bound (m / 2 ^ a) (2 ^ b) ltac:(lia)).
  nia.
Qed.

Lemma iter_pos_shr_clear (n : positive) (x : shr_record) :
  0 <= shr_m x -> flags_clear x -> shr_m x mod 2 ^ Z.pos n = 0 ->
  flags_clear (SpecFloat.iter_pos shr_1 n x).
Proof.
  revert x. induction n as [n IH|n IH|]; intros x Hx Hc Hmod; cbn [SpecFloat.iter_pos].
  - rewrite (Pos2Z.inj_xI n) in Hmod.
    replace (2 * Z.pos n + 1) with (1 + (Z.pos n + Z.pos n)) in Hmod by lia.
    apply mod_pow2_split in Hmod as [M1 M2]; [|lia..].
    apply mod_pow2_split in M2 as [M2 M3]; [|lia..].
    change (2 ^ 1) with 2 in *.
    assert (H1 : 0 <= shr_m (shr_1 x)) by (rewrite shr_1_m by done; apply Z.div_pos; lia).
    assert (H2 : 0 <= shr_m (SpecFloat.iter_pos shr_1 n (shr_1 x)))
      by (rewrite iter_pos_shr_m by done; apply Z.div_pos; lia).
    apply IH; [done| |].
    + apply IH; [done|by apply shr_1_clear|by rewrite shr_1_m].
    + by rewrite iter_pos_shr_m, shr_1_m.
  - rewrite (Pos2Z.inj_xO n) in Hmod.
    replace (2 * Z.pos n) with (Z.pos n + Z.pos n) in Hmod by lia.
    apply mod_pow2_split in Hmod as [M1 M2]; [|lia..].
    assert (H1 : 0 <= shr_m (SpecFloat.iter_pos shr_1 n x))
      by (rewrite iter_pos_shr_m by done; apply Z.div_pos; lia).
    apply IH; [done|by apply IH|by rewrite iter_pos_shr_m].
  - apply shr_1_clear; [done..|]. by change (2 ^ 1) with 2 in Hmod.
Qed.

Lemma round_nearest_even_range (q : Z) (l : location) :
  round_nearest_even q l = q \/ round_nearest_even q l = q + 1.
Proof.
  destruct l as [|[]]; cbn; auto. destruct (Z.even q); auto.
Qed.

Lemma loc_of_clear (x : shr_record) : flags_clear x -> loc_of_shr_record x = loc_Exact.
Proof. destruct x as [m r s]. intros [H1 H2]. cbn in *. by subst. Qed.

(** Rounding an exact mantissa and exponent to binary64, in the normal range:
    a mantissa of at most 53 bits is kept. *)
Lemma round64_small (mx : positive) (ex : Z) :
  Z.pos (digits2_pos mx) <= 53 -> -1074 <= Z.pos (digits2_pos mx) + ex - 53 ->
  binary_round_aux 53 1024 false (Z.pos mx) ex loc_Exact =
    if ex <=? 971 then S754_finite false mx ex else S754_infinity false.
Proof.
  intros Hd Hn. unfold binary_round_aux, shr_fexp, fexp, emin.
  cbn [Zdigits2 shr_record_of_loc].
  set (D := Z.pos (digits2_pos mx)) in *.
  replace (Z.max (D + ex - 53) (3 - 1024 - 53) - ex) with (D - 53) by lia.
  assert (Hshr : forall r e, shr r e (D - 53) = (r, e)).
  { intros r e. unfold shr. destruct (D - 53) eqn:E; try done. lia. }
  rewrite Hshr. cbn [shr_m loc_of_shr_record round_nearest_even Zdigits2 shr_record_of_loc].
  fold D.
  replace (Z.max (D + ex - 53) (3 - 1024 - 53) - ex) with (D - 53) by lia.
  rewrite Hshr. cbn [shr_m]. reflexivity.
Qed.

(** A longer mantissa loses its low bits: the result is the quotient or the
    quotient plus one, and the quotient when no bit is lost; a carry to
    [2^53] moves to the next exponent. *)
Lemma round64_large (mx : positive) (ex : Z) :
  53 < Z.pos (digits2_pos mx) -> -1074 <= Z.pos (digits2_pos mx) + ex - 53 ->
  let n := Z.pos (digits2_pos mx) - 53 in
  let q := Z.pos mx / 2 ^ n in
  exists q',
    (q' = q \/ q' = q + 1) /\
    (Z.pos mx mod 2 ^ n = 0 -> q' = q) /\
    2 ^ 52 <= q < 2 ^ 53 /\
    binary_round_aux 53 1024 false (Z.pos mx) ex loc_Exact =
      if q' <? 2 ^ 53 then
        if ex + n <=? 971 then S754_finite false (Z.to_pos q') (ex + n)
        else S754_infinity false
      else
        if ex + n + 1 <=? 971 then S754_finite false (2 ^ 52)%positive (ex + n + 1)
        else S754_infinity false.
Proof.
  intros Hd Hn n q.
  pose proof (digits2_pos_bounds mx) as [Dlo Dhi].
  set (D := Z.pos (digits2_pos mx)) in *.
  assert (Hpn : exists pn, n = Z.pos pn).
  { destruct n eqn:E; try (unfold n in E; lia). eauto. }
  destruct Hpn as [pn Hpn].
  assert (H2n : 0 < 2 ^ n) by (apply Z.pow_pos_nonneg; lia).
  assert (Hq : 2 ^ 52 <= q < 2 ^ 53).
  { unfold q. split.
    - apply Z.div_le_lower_bound; [lia|].
      rewrite Z.mul_comm, <- Z.pow_add_r by lia.
      replace (52 + n) with (D - 1) by (unfold n; lia). done.
    - apply Z.div_lt_upper_bound; [lia|].
      rewrite <- Z.pow_add_r by lia.
      replace (n + 53) with D by (unfold n; lia). done. }
  set (r1 := SpecFloat.iter_pos shr_1 pn (Build_shr_record (Z.pos mx) false false)).
  assert (Hm1 : shr_m r1 = q).
  { unfold r1. rewrite iter_pos_shr_m by (cbn; lia). cbn [shr_m]. by rewrite <- Hpn. }
  set (q' := round_nearest_even (shr_m r1) (loc_of_shr_record r1)).
  exists q'.
  assert (Hq' : q' = q \/ q' = q + 1).
  { unfold q'. rewrite <- Hm1. apply round_nearest_even_range. }
  split; [done|]. split.
  { intros Hmod. unfold q'. rewrite loc_of_clear; [by rewrite <- Hm1|].
    unfold r1. apply iter_pos_shr_clear; cbn [shr_m]; [lia|done|by rewrite <- Hpn]. }
  split; [done|].
  unfold binary_round_aux, shr_fexp, fexp, emin.
  cbn [Zdigits2 shr_record_of_loc]. fold D.
  replace (Z.max (D + ex - 53) (3 - 1024 - 53) - ex) with n by (unfold n; lia).
  unfold shr at 1. rewrite Hpn. fold r1. rewrite <- Hpn. fold q'.
  change (2 ^ 53) with 9007199254740992 in *.
  change (2 ^ 52) with 4503599627370496 in *.
  destruct (Z.ltb_spec q' 9007199254740992) as [Hlt|Hge].
  - destruct q' as [|pq|] eqn:Eq'; try lia.
    assert (Hdq : Z.pos (digits2_pos pq) = 53).
    { apply digits2_pos_unique. change (2 ^ (53 - 1)) with 4503599627370496.
      change (2 ^ 53) with 9007199254740992. lia. }
    cbn [Zdigits2]. rewrite Hdq.
    replace (Z.max (53 + (ex + n) - 53) (3 - 1024 - 53) - (ex + n)) with 0 by (unfold n; lia).
    cbn [shr shr_m Z.to_pos]. reflexivity.
  - assert (Eq' : q' = 9007199254740992) by lia.
    rewrite Eq'. change (Zdigits2 9007199254740992) with 54.
    replace (Z.max (54 + (ex + n) - 53) (3 - 1024 - 53) - (ex + n)) with 1 by (unfold n; lia).
    cbn [shr SpecFloat.iter_pos shr_1 shr_m shr_record_of_loc].
    reflexivity.
Qed.

Lemma pos_iter_xO (p k : positive) : Z.pos (Pos.iter xO p k) = Z.pos p * 2 ^ Z.pos k.
Proof.
  induction k as [|k IH] using Pos.peano_ind.
  - cbn. lia.
  - rewrite Pos.iter_succ, Pos2Z.inj_xO, IH, Pos2Z.inj_succ, Z.pow_succ_r by lia. lia.
Qed.

(** [float(m)] for [m >= 2]: OverflowError, or a normalized float that is
    exactly [m] when [m] has at most 53 bits and within one unit in the last
    place of [m] otherwise. *)
Lemma py_float_of_int_cases (m : Z) :
  2 <= m ->
  (py_float_of_int m = Raise OverflowError /\ 2 ^ 1000 <= m) \/
  exists M E,
    py_float_of_int m = Ok (S754_finite false M E) /\
    2 ^ 52 <= Z.pos M < 2 ^ 53 /\ -52 <= E /\
    (m < 2 ^ 1000 -> E <= 948) /\
    ((E <= 0 /\ Z.pos M = m * 2 ^ (- E)) \/
     (1 <= E /\ m < (Z.pos M + 1) * 2 ^ E)).
Proof.
  intros Hm. destruct m as [|p|p]; try lia.
  unfold py_float_of_int, f64_of_Z, binary_normalize, binary_round, fexp, emin.
  pose proof (digits2_pos_bounds p) as [Dlo Dhi].
  set (D := Z.pos (digits2_pos p)) in *.
  assert (HD2 : 2 <= D).
  { destruct (Z.lt_ge_cases D 2); [|done].
    assert (2 ^ D <= 2 ^ 1) by (apply Z.pow_le_mono_r; lia). change (2 ^ 1) with 2 in *. lia. }
  assert (Hbig : Z.pos p < 2 ^ 1000 -> D <= 1000).
  { intros Hlt. destruct (Z.le_gt_cases D 1000); [done|].
    assert (2 ^ 1000 <= 2 ^ (D - 1)) by (apply Z.pow_le_mono_r; lia). lia. }
  replace (Z.max (D + 0 - 53) (3 - 1024 - 53)) with (D - 53) by lia.
  unfold shl_align.
  destruct (Z.le_gt_cases D 53) as [Hsmall|Hlarge].
  - (* at most 53 bits: exact *)
    right.
    destruct (D - 53 - 0) as [|k|k] eqn:Ek; try lia.
    + (* exactly 53 bits *)
      rewrite round64_small by (fold D; lia). cbn [Z.leb Z.compare].
      exists p, 0. split; [reflexivity|].
      replace D with 53 in * by lia.
      change (2 ^ (53 - 1)) with (2 ^ 52) in Dlo.
      split; [lia|]. split; [lia|]. split; [lia|]. left. cbn. lia.
    + (* fewer bits: shifted left *)
      assert (Hmz : Z.pos (Pos.iter xO p k) = Z.pos p * 2 ^ Z.pos k) by apply pos_iter_xO.
      assert (Hk : Z.pos k = 53 - D) by lia.
      assert (H2k : 0 < 2 ^ Z.pos k) by (apply Z.pow_pos_nonneg; lia).
      assert (Hrange : 2 ^ 52 <= Z.pos (Pos.iter xO p k) < 2 ^ 53).
      { rewrite Hmz, Hk. split.
        - replace 52 with ((D - 1) + (53 - D)) by lia. rewrite Z.pow_add_r by lia.
          apply Z.mul_le_mono_nonneg_r; [lia|done].
        - replace 53 with (D + (53 - D)) at 2 by lia. rewrite Z.pow_add_r by lia.
          apply Z.mul_lt_mono_pos_r; [lia|done]. }
      assert (Hdz : Z.pos (digits2_pos (Pos.iter xO p k)) = 53).
      { apply digits2_pos_unique. change (53 - 1) with 52. done. }
      rewrite round64_small by (rewrite Hdz; lia).
      destruct (Z.leb_spec (D - 53) 971); [|lia].
      exists (Pos.iter xO p k), (D - 53).
      split; [reflexivity|]. split; [done|]. split; [lia|]. split; [lia|].
      left. split; [lia|]. rewrite Hmz. do 2 f_equal. lia.
  - (* more than 53 bits: rounded *)
    destruct (D - 53 - 0) as [|k|k] eqn:Ek; try lia.
    destruct (round64_large p 0) as (q' & Hq' & _ & Hq & ->); [fold D; lia..|].
    fold D in Hq', Hq |- *. set (n := D - 53) in *. set (q := Z.pos p / 2 ^ n) in *.
    assert (H2n : 0 < 2 ^ n) by (apply Z.pow_pos_nonneg; lia).
    assert (Hqm : Z.pos p < (q + 1) * 2 ^ n).
    { unfold q. pose proof (Z.mod_pos_bound (Z.pos p) (2 ^ n) H2n).
      pose proof (Z.div_mod (Z.pos p) (2 ^ n) ltac:(lia)). nia. }
    assert (Hov : 971 < n -> 2 ^ 1000 <= Z.pos p).
    { intros Hn. destruct (Z.le_gt_cases (2 ^ 1000) (Z.pos p)); [done|].
      specialize (Hbig ltac:(lia)). lia. }
    change (2 ^ 53) with 9007199254740992 in *.
    change (2 ^ 52) with 4503599627370496 in *.
    destruct (Z.ltb_spec q' 9007199254740992) as [Hlt|Hge].
    + destruct (Z.leb_spec (0 + n) 971) as [Hle|Hgt].
      * right. exists (Z.to_pos q'), (0 + n).
        split; [reflexivity|]. rewrite Z2Pos.id by lia.
        split; [lia|]. split; [lia|].
        split; [intros Hlt'; specialize (Hbig Hlt'); lia|].
        right. split; [lia|]. replace (0 + n) with n by lia. nia.
      * left. split; [reflexivity|]. apply Hov. lia.
    + destruct (Z.leb_spec (0 + n + 1) 971) as [Hle|Hgt].
      * right. exists (2 ^ 52)%positive, (0 + n + 1).
        split; [reflexivity|].
        change (Z.pos (2 ^ 52)) with 4503599627370496.
        split; [lia|]. split; [lia|].
        split; [intros Hlt'; specialize (Hbig Hlt'); lia|].
        right. split; [lia|].
        replace (0 + n + 1) with (Z.succ n) by lia. rewrite Z.pow_succ_r by lia. nia.
      * left. split; [reflexivity|].
        destruct (Z.le_gt_cases (2 ^ 1000) (Z.pos p)); [done|].
        specialize (Hbig ltac:(lia)). lia.
Qed.

(** The product of a normalized float with [1.5]: infinity, or a float whose
    mantissa [R], scaled by [2^s] to the unit of the exact product
    [P = 3 * 2^51 * M], is within [2^n] of it, and is [P] when [2^n]
    divides [P]. *)
Lemma mul_1_5_cases (M : positive) (E : Z) :
  2 ^ 52 <= Z.pos M < 2 ^ 53 -> -52 <= E ->
  let P := Z.pos M * 6755399441055744 in
  (SFmul 53 1024 (S754_finite false M E) f64_1_5 = S754_infinity false /\ 949 <= E) \/
  exists R e_r n s,
    SFmul 53 1024 (S754_finite false M E) f64_1_5 = S754_finite false R e_r /\
    (n = 52 \/ n = 53) /\ (s = n \/ s = n + 1) /\ e_r = E - 52 + s /\
    P - 2 ^ n < Z.pos R * 2 ^ s <= P + 2 ^ n /\
    (P mod 2 ^ n = 0 -> Z.pos R * 2 ^ s = P).
Proof.
  intros HM HE P. unfold f64_1_5. cbn [SFmul xorb].
  change (2 ^ 52) with 4503599627370496 in HM.
  change (2 ^ 53) with 9007199254740992 in HM.
  set (mx := (M * 6755399441055744)%positive).
  assert (Hmx : Z.pos mx = P) by (unfold mx, P; lia).
  assert (HD : Z.pos (digits2_pos mx) = 105 \/ Z.pos (digits2_pos mx) = 106).
  { destruct (Z.lt_ge_cases P (2 ^ 105)) as [Hlt|Hge].
    - left. apply digits2_pos_unique. rewrite Hmx. split; [|done].
      change (2 ^ (105 - 1)) with 20282409603651670423947251286016. unfold P. lia.
    - right. apply digits2_pos_unique. rewrite Hmx. split.
      + change (2 ^ (106 - 1)) with (2 ^ 105). lia.
      + change (2 ^ 106) with 81129638414606681695789005144064. unfold P. lia. }
  destruct (round64_large mx (E + -52)) as (q' & Hq' & Hex & Hq & ->); [lia..|].
  rewrite Hmx in *.
  set (n := Z.pos (digits2_pos mx) - 53) in *.
  assert (Hn : n = 52 \/ n = 53) by (unfold n; lia).
  set (q := P / 2 ^ n) in *.
  assert (H2n : 0 < 2 ^ n) by (apply Z.pow_pos_nonneg; lia).
  pose proof (Z.mod_pos_bound P (2 ^ n) H2n) as Hmod.
  pose proof (Z.div_mod P (2 ^ n) ltac:(lia)) as Hdm. fold q in Hdm.
  change (2 ^ 53) with 9007199254740992 in *.
  change (2 ^ 52) with 4503599627370496 in *.
  destruct (Z.ltb_spec q' 9007199254740992) as [Hlt|Hge].
  - destruct (Z.leb_spec (E + -52 + n) 971) as [Hle|Hgt]; [|left; split; [reflexivity|lia]].
    right. exists (Z.to_pos q'), (E + -52 + n), n, n.
    split; [reflexivity|]. split; [done|]. split; [by left|]. split; [lia|].
    rewrite Z2Pos.id by lia. split; [nia|].
    intros H0. rewrite (Hex H0). lia.
  - destruct (Z.leb_spec (E + -52 + n + 1) 971) as [Hle|Hgt]; [|left; split; [reflexivity|lia]].
    right. exists (2 ^ 52)%positive, (E + -52 + n + 1), n, (n + 1).
    split; [reflexivity|]. split; [done|]. split; [by right|]. split; [lia|].
    change (Z.pos (2 ^ 52)) with 4503599627370496.
    assert (Eq' : q' = 9007199254740992) by lia.
    assert (Hs : 4503599627370496 * 2 ^ (n + 1) = q' * 2 ^ n).
    { rewrite Eq'. replace (n + 1) with (Z.succ n) by lia. rewrite Z.pow_succ_r by lia. lia. }
    rewrite Hs. split; [nia|].
    intros H0. specialize (Hex H0). lia.
Qed.

Lemma float_trunc_finite (R : positive) (e : Z) :
  float_trunc (S754_finite false R e) =
    if 0 <=? e then Z.pos R * 2 ^ e else Z.pos R / 2 ^ (- e).
Proof.
  cbn [float_trunc cond_Zopp]. destruct (Z.leb_spec 0 e).
  - by rewrite Z.shiftl_mul_pow2.
  - by rewrite Z.shiftr_div_pow2 by lia.
Qed.

(** [int(max_bits * 1.5)], when it is defined, exceeds [max_bits >= 2]; it is
    defined below [2^1000] at the least, and where it is not defined the
    error is [OverflowError]. *)
Lemma evaluate_num_bits_spec (m : Z) :
  2 <= m ->
  (forall n, evaluate_num_bits m = Ok n -> m < n) /\
  (m < 2 ^ 1000 -> exists n, evaluate_num_bits m = Ok n) /\
  (forall e, evaluate_num_bits m = Raise e -> e = OverflowError /\ 2 ^ 1000 <= m).
Proof.
  intros Hm. unfold evaluate_num_bits, result_bind.
  destruct (py_float_of_int_cases m Hm) as [[-> Hbig]|(M & E & -> & HM & HE & Hsmall & Hrel)].
  { split; [intros n H; discriminate|]. split; [intros; lia|].
    intros e Hr. by injection Hr as <-. }
  destruct (mul_1_5_cases M E HM HE)
    as [[-> HE2]|(R & e_r & n & s & -> & Hn & Hs & He & HW & Hex)].
  { split; [intros k H; discriminate|].
    split; [intros Hlt; specialize (Hsmall Hlt); lia|].
    intros e Hr. cbn [py_int_of_float] in Hr. injection Hr as <-. split; [done|].
    destruct (Z.lt_ge_cases m (2 ^ 1000)) as [Hlt|Hge]; [|done].
    specialize (Hsmall Hlt). lia. }
  cbn [py_int_of_float]. split; [|split; [eauto|intros e Hr; discriminate]].
  intros k Hk. injection Hk as <-.
  change (m < float_trunc (S754_finite false R e_r)). rewrite float_trunc_finite.
  change (2 ^ 52) with 4503599627370496 in HM.
  change (2 ^ 53) with 9007199254740992 in HM.
  set (P := Z.pos M * 6755399441055744) in *.
  destruct Hrel as [[HE0 HMm]|[HE1 Hmlt]].
  - (* float(m) is m *)
    set (j := - E) in *.
    assert (H2j : 0 < 2 ^ j) by (apply Z.pow_pos_nonneg; lia).
    destruct (Z.eq_dec (P mod 2 ^ n) 0) as [Hdiv|Hndiv].
    + (* the product is exact: the result is floor(3m/2) *)
      specialize (Hex Hdiv).
      assert (HP : P = 3 * m * 2 ^ (51 + j)).
      { unfold P. rewrite HMm, Z.pow_add_r by lia.
        change (2 ^ 51) with 2251799813685248. lia. }
      destruct (Z.leb_spec 0 e_r) as [Hpos|Hneg].
      * assert (Hs' : s = e_r + 1 + (51 + j)) by lia.
        rewrite Hs', HP, !Z.pow_add_r in Hex by lia.
        assert (H51 : 0 < 2 ^ 51 * 2 ^ j) by (change (2 ^ 51) with 2251799813685248; lia).
        change (2 ^ 1) with 2 in Hex.
        assert (Heq : Z.pos R * 2 ^ e_r * 2 = 3 * m).
        { apply (Z.mul_reg_r _ _ (2 ^ 51 * 2 ^ j)); lia. }
        lia.
      * set (u := - e_r) in *.
        assert (Hj : 51 + j = (u - 1) + s) by lia.
        rewrite HP, Hj, Z.pow_add_r in Hex by lia.
        assert (H2s : 0 < 2 ^ s) by (apply Z.pow_pos_nonneg; lia).
        assert (HR : Z.pos R = 3 * m * 2 ^ (u - 1)).
        { apply (Z.mul_reg_r _ _ (2 ^ s)); lia. }
        assert (H2u : 0 < 2 ^ (u - 1)) by (apply Z.pow_pos_nonneg; lia).
        rewrite HR. replace u with (Z.succ (u - 1)) at 2 by lia.
        rewrite Z.pow_succ_r by lia.
        rewrite Z.div_mul_cancel_r by lia.
        pose proof (Z.div_mod (3 * m) 2 ltac:(lia)).
        pose proof (Z.mod_pos_bound (3 * m) 2 ltac:(lia)). lia.
    + (* the product is rounded: few bits are lost, of a large integer *)
      assert (Hjn : 51 + j < n).
      { destruct (Z.lt_ge_cases (51 + j) n); [done|]. exfalso. apply Hndiv.
        unfold P. rewrite HMm.
        replace (m * 2 ^ j * 6755399441055744) with (3 * m * (2 ^ 51 * 2 ^ j))
          by (change (2 ^ 51) with 2251799813685248; lia).
        rewrite <- Z.pow_add_r by lia.
        replace (51 + j) with ((51 + j - n) + n) by lia.
        rewrite Z.pow_add_r by lia. rewrite Z.mul_assoc. apply Z_mod_mult. }
      assert (HE01 : E = 0 \/ E = -1) by lia.
      destruct (Z.leb_spec 0 e_r) as [_|?]; [|lia].
      clear Hex Hndiv Hsmall H2j. subst j P.
      destruct HE01 as [-> | ->]; destruct Hn as [-> | ->]; try lia;
        destruct Hs as [-> | ->]; subst e_r; cbn in HW, HMm |- *; lia.
  - (* float(m) is within one unit in the last place of m *)
    destruct (Z.leb_spec 0 e_r) as [_|?]; [|lia].
    assert (H2E : 0 < 2 ^ E) by (apply Z.pow_pos_nonneg; lia).
    replace e_r with ((s - 52) + E) by lia. rewrite Z.pow_add_r by lia.
    assert (HV : Z.pos M + 1 <= Z.pos R * 2 ^ (s - 52)).
    { unfold P in HW.
      destruct Hn as [-> | ->]; destruct Hs as [-> | ->]; cbn in HW |- *; lia. }
    nia.
Qed.

(** [float(m)] of a positive integer of at most 53 bits is [m] itself, with
    a normalized mantissa. *)
Lemma py_float_of_int_exact (m : Z) :
  1 <= m < 2 ^ 53 ->
  exists M j,
    py_float_of_int m = Ok (S754_finite false M (- j)) /\
    0 <= j <= 52 /\ Z.pos M = m * 2 ^ j /\ 2 ^ 52 <= Z.pos M < 2 ^ 53.
Proof.
  intros Hm. destruct m as [|p|p]; try lia.
  unfold py_float_of_int, f64_of_Z, binary_normalize, binary_round, fexp, emin.
  pose proof (digits2_pos_bounds p) as [Dlo Dhi].
  set (D := Z.pos (digits2_pos p)) in *.
  assert (HD1 : 1 <= D) by (unfold D; lia).
  assert (HD53 : D <= 53).
  { destruct (Z.le_gt_cases D 53); [done|].
    assert (2 ^ 53 <= 2 ^ (D - 1)) by (apply Z.pow_le_mono_r; lia). lia. }
  replace (Z.max (D + 0 - 53) (3 - 1024 - 53)) with (D - 53) by lia.
  unfold shl_align.
  destruct (D - 53 - 0) as [|k|k] eqn:Ek; try lia.
  - rewrite round64_small by (fold D; lia). cbn [Z.leb Z.compare].
    exists p, 0. split; [reflexivity|].
    replace D with 53 in * by lia.
    change (2 ^ (53 - 1)) with (2 ^ 52) in Dlo.
    split; [lia|]. split; [cbn; lia|]. lia.
  - assert (Hmz : Z.pos (Pos.iter xO p k) = Z.pos p * 2 ^ Z.pos k) by apply pos_iter_xO.
    assert (Hk : Z.pos k = 53 - D) by lia.
    assert (H2k : 0 < 2 ^ Z.pos k) by (apply Z.pow_pos_nonneg; lia).
    assert (Hrange : 2 ^ 52 <= Z.pos (Pos.iter xO p k) < 2 ^ 53).
    { rewrite Hmz, Hk. split.
      - replace 52 with ((D - 1) + (53 - D)) by lia. rewrite Z.pow_add_r by lia.
        apply Z.mul_le_mono_nonneg_r; [lia|done].
      - replace 53 with (D + (53 - D)) at 2 by lia. rewrite Z.pow_add_r by lia.
        apply Z.mul_lt_mono_pos_r; [lia|done]. }
    assert (Hdz : Z.pos (digits2_pos (Pos.iter xO p k)) = 53).
    { apply digits2_pos_unique. change (53 - 1) with 52. done. }
    rewrite round64_small by (rewrite Hdz; lia).
    destruct (Z.leb_spec (D - 53) 971); [|lia].
    exists (Pos.iter xO p k), (53 - D).
    split; [do 2 f_equal; lia|]. split; [lia|]. split; [|done].
    rewrite Hmz. do 2 f_equal. lia.
Qed.

(** [int(m * 1.5)] below [2^51]: the conversion and the product are exact,
    and the value is the floor of one and a half times [m]. *)
Lemma evaluate_num_bits_floor (max_bits : Z) :
  0 <= max_bits < 2 ^ 51 -> evaluate_num_bits max_bits = Ok (3 * max_bits / 2).
Proof.
  intros Hm.
  destruct (Z.eq_dec max_bits 0) as [->|H0]; [reflexivity|].
destruct (py_float_of_int_exact max_bits) as (M & j & Ef & Hj & HM & HMr).
{ change (2 ^ 53) with 9007199254740992. change (2 ^ 51) with 2251799813685248 in Hm.
  lia. }
unfold evaluate_num_bits, result_bind. rewrite Ef.
assert (H2j : 4 <= 2 ^ j).
{ destruct (Z.lt_ge_cases j 2) as [Hlt|Hge].
  - assert (2 ^ j <= 2 ^ 1) by (apply Z.pow_le_mono_r; lia).
    change (2 ^ 1) with 2 in *. change (2 ^ 52) with 4503599627370496 in HMr.
    change (2 ^ 51) with 2251799813685248 in Hm. nia.
  - change 4 with (2 ^ 2). apply Z.pow_le_mono_r; lia. }
assert (Hj2 : 2 <= j).
{ destruct (Z.lt_ge_cases j 2) as [Hlt|Hge]; [|done].
  assert (2 ^ j <= 2 ^ 1) by (apply Z.pow_le_mono_r; lia).
  change (2 ^ 1) with 2 in *. lia. }
destruct (mul_1_5_cases M (- j) HMr ltac:(lia))
  as [[_ HE2]|(R & e_r & n & s & -> & Hn & Hs & He & HW & Hex)]; [lia|].
cbn [py_int_of_float]. f_equal. rewrite float_trunc_finite.
set (P := Z.pos M * 6755399441055744) in *.
assert (HP : P = 3 * max_bits * 2 ^ (51 + j)).
{ unfold P. rewrite HM, Z.pow_add_r by lia.
  change (2 ^ 51) with 2251799813685248. lia. }
assert (Hdiv : P mod 2 ^ n = 0).
{ rewrite HP. replace (51 + j) with ((51 + j - n) + n) by lia.
  rewrite Z.pow_add_r by lia. rewrite Z.mul_assoc. apply Z_mod_mult. }
specialize (Hex Hdiv).
destruct (Z.leb_spec 0 e_r) as [Hpos|Hneg].
- assert (Hs' : s = e_r + 1 + (51 + j)) by lia.
  rewrite Hs', HP, !Z.pow_add_r in Hex by lia.
  assert (H51 : 0 < 2 ^ 51 * 2 ^ j) by (change (2 ^ 51) with 2251799813685248; lia).
  change (2 ^ 1) with 2 in Hex.
  assert (Heq : Z.pos R * 2 ^ e_r * 2 = 3 * max_bits).
  { apply (Z.mul_reg_r _ _ (2 ^ 51 * 2 ^ j)); lia. }
  rewrite <- Heq. by rewrite Z.div_mul by lia.
- set (u := - e_r) in *.
  assert (Hju : 51 + j = (u - 1) + s) by lia.
  rewrite HP, Hju, Z.pow_add_r in Hex by lia.
  assert (H2s : 0 < 2 ^ s) by (apply Z.pow_pos_nonneg; lia).
  assert (HR : Z.pos R = 3 * max_bits * 2 ^ (u - 1)).
  { apply (Z.mul_reg_r _ _ (2 ^ s)); lia. }
  assert (H2u : 0 < 2 ^ (u - 1)) by (apply Z.pow_pos_nonneg; lia).
  rewrite HR. replace u with (Z.succ (u - 1)) at 2 by lia.
  rewrite Z.pow_succ_r by lia.
  by rewrite Z.div_mul_cancel_r by lia.
Qed.

(** ** The validation dataset is longer than the training sequences *)

Lemma evaluate_limit_spec (m : Z) :
  m <= evaluate_limit <-> 8 * 5000 * (3 * m / 2) < 2 ^ 63.
Proof.
  unfold evaluate_limit. change (2 ^ 63) with 9223372036854775808.
  pose proof (Z.div_mod (3 * m) 2 ltac:(lia)).
  pose proof (Z.mod_pos_bound (3 * m) 2 ltac:(lia)). lia.
Qed.

(** C5, amended: for every [max_bits] from 2 to 153722867280913, the largest
    for which numpy makes the int64 array of the 5000 validation sequences,
    [evaluate] constructs its validation dataset with [num_bits] equal to
    [int(max_bits * 1.5)], which is strictly greater than [max_bits].  For
    every larger [max_bits] it constructs none: numpy refuses the array with
    [ValueError] wherever [int(max_bits * 1.5)] is defined, and from [2^1000]
    on the product may raise [OverflowError] instead. *)
Theorem evaluate_dataset_longer (max_bits : Z) (w : world) :
  2 <= max_bits ->
  (max_bits <= evaluate_limit ->
     exists ds w',
       evaluate_dataset max_bits w = (Ok ds, w') /\
       evaluate_num_bits max_bits = Ok (num_bits ds) /\
       max_bits < num_bits ds /\
       ashape (features ds) = [5000%nat; Z.to_nat (num_bits ds); 1%nat] /\
       ashape (labels ds) = [5000%nat; Z.to_nat (num_bits ds); 1%nat]) /\
  (evaluate_limit < max_bits ->
     (evaluate_dataset max_bits w = (Raise ValueError, w) /\
      exists n, evaluate_num_bits max_bits = Ok n /\ max_bits < n) \/
     (evaluate_dataset max_bits w = (Raise OverflowError, w) /\
      evaluate_num_bits max_bits = Raise OverflowError /\ 2 ^ 1000 <= max_bits)).
Proof.
  intros Hm. destruct (evaluate_num_bits_spec max_bits Hm) as (Hgt & Hdef & Herr).
  unfold evaluate_dataset, bind, lift. split.
  - intros Hle.
    assert (Hsmall : 0 <= max_bits < 2 ^ 51).
    { unfold evaluate_limit in Hle. change (2 ^ 51) with 2251799813685248. lia. }
    pose proof (evaluate_num_bits_floor max_bits Hsmall) as En. rewrite En.
    specialize (Hgt _ En).
    apply evaluate_limit_spec in Hle.
    destruct (XORDataset_init_ok 5000 (3 * max_bits / 2) w) as (b & l & w1 & E1 & _).
    { apply np_empty_ok_pos; lia. }
    rewrite E1. eexists _, _. split; [reflexivity|]. cbn. auto.
  - intros Hgt'.
    destruct (evaluate_num_bits max_bits) as [n|e] eqn:En.
    + left. specialize (Hgt n eq_refl). split; [|by exists n].
      apply XORDataset_init_refused.
      destruct (np_empty_ok 8 [5000; n]) eqn:Hok; [exfalso|done].
      apply np_empty_ok_pos in Hok; [|lia..].
      destruct (Z.lt_ge_cases max_bits (2 ^ 51)) as [Hlt|Hge].
      * rewrite evaluate_num_bits_floor in En by lia. injection En as <-.
        apply evaluate_limit_spec in Hok. lia.
      * change (2 ^ 51) with 2251799813685248 in Hge.
        change (2 ^ 63) with 9223372036854775808 in Hok. lia.
    + right. destruct (Herr e eq_refl) as [-> Hbig]. done.
Qed.

Lemma evaluate_dataset_longer_witness :
  2 <= 50 /\ 50 <= evaluate_limit /\
  exists ds w',
    evaluate_dataset 50 sample_world = (Ok ds, w') /\
    evaluate_num_bits 50 = Ok (num_bits ds) /\
    50 < num_bits ds /\
    ashape (features ds) = [5000%nat; Z.to_nat (num_bits ds); 1%nat] /\
    ashape (labels ds) = [5000%nat; Z.to_nat (num_bits ds); 1%nat].
Proof.
  assert (H1 : 2 <= 50) by lia.
  assert (H2 : 50 <= evaluate_limit) by (unfold evaluate_limit; lia).
  split; [exact H1|]. split; [exact H2|].
  exact (proj1 (evaluate_dataset_longer 50 sample_world H1) H2).
Defined.

Example evaluate_num_bits_samples :
  map evaluate_num_bits [2; 3; 50; 2 ^ 53 + 1; - 5] =
    [Ok 3; Ok 4; Ok 75; Ok 13510798882111488; Ok (- 7)] /\
  evaluate_num_bits 1 = Ok 1.
Proof. split; vm_compute; reflexivity. Qed.

(** C5 as stated fails from [max_bits = 153722867280914] on: there
    [int(max_bits * 1.5)] is 230584300921371, the int64 array of 5000 such
    sequences would have [2^63] bytes or more, numpy refuses it with
    [ValueError], and [evaluate] constructs no dataset. *)
Lemma evaluate_refuses_oversized_dataset :
  2 <= 153722867280914 /\
  evaluate_num_bits 153722867280914 = Ok 230584300921371 /\
  2 ^ 63 <= 8 * 5000 * 230584300921371 /\
  evaluate_dataset 153722867280914 sample_world = (Raise ValueError, sample_world) /\
  fst (@evaluate sample_ops 153722867280914 false cpu
         (mk_RNN_obj 4 (mk_ref 0 0 [num_params 4])) sample_world) = Raise ValueError /\
  ~ (exists ds w', evaluate_dataset 153722867280914 sample_world = (Ok ds, w')).
Proof.
  assert (E : evaluate_num_bits 153722867280914 = Ok 230584300921371)
    by (vm_compute; reflexivity).
  split; [lia|]. split; [exact E|].
  split; [change (2 ^ 63) with 9223372036854775808; lia|].
  assert (E2 : evaluate_dataset 153722867280914 sample_world
               = (Raise ValueError, sample_world)).
  { unfold evaluate_dataset, bind, lift. rewrite E.
    by apply XORDataset_init_refused. }
  split; [exact E2|]. split.
  - unfold evaluate, bind. by rewrite E2.
  - intros (ds & w' & H). rewrite E2 in H. discriminate.
Qed.

(** Beyond the range of floats, at [max_bits = 2^1024], the product
    [max_bits * 1.5] raises [OverflowError]. *)
Example evaluate_overflows_beyond_floats :
  2 <= 2 ^ 1024 /\
  evaluate_num_bits (2 ^ 1024) = Raise OverflowError /\
  fst (evaluate_dataset (2 ^ 1024) sample_world) = Raise OverflowError /\
  fst (@evaluate sample_ops (2 ^ 1024) false cpu (mk_RNN_obj 4 (mk_ref 0 0 [num_params 4]))
         sample_world) = Raise OverflowError /\
  ~ (exists ds w', evaluate_dataset (2 ^ 1024) sample_world = (Ok ds, w')).
Proof.
  assert (E : evaluate_num_bits (2 ^ 1024) = Raise OverflowError) by (vm_compute; reflexivity).
  split; [lia|]. split; [exact E|].
  assert (E2 : evaluate_dataset (2 ^ 1024) sample_world = (Raise OverflowError, sample_world)).
  { unfold evaluate_dataset, bind, lift. by rewrite E. }
  split; [by rewrite E2|]. split.
  - unfold evaluate, bind. by rewrite E2.
  - intros (ds & w' & H). rewrite E2 in H. discriminate.
Qed.

Local Close Scope Z_scope.

(** ** The recurrent model *)

(** *** Live sequences under sorted lengths *)

Lemma live_at_le_length (lengths : list Z) (t : nat) : live_at lengths t <= length lengths.
Proof. unfold live_at. apply length_filter. Qed.

Lemma live_at_mono (lengths : list Z) (t t' : nat) :
  t <= t' -> live_at lengths t' <= live_at lengths t.
Proof.
  intros Ht. unfold live_at. induction lengths as [|l lengths IH]; [done|].
  rewrite !filter_cons.
  destruct (decide (Z.of_nat t' < l)%Z), (decide (Z.of_nat t < l)%Z); cbn; lia.
Qed.

Lemma live_at_none (lengths : list Z) (t : nat) :
  Forall (fun l => (l <= Z.of_nat t)%Z) lengths -> live_at lengths t = 0.
Proof.
  unfold live_at. induction 1 as [|l lengths Hl _ IH]; [done|].
  rewrite filter_cons_False by lia. done.
Qed.

Lemma live_at_all (lengths : list Z) (t : nat) :
  Forall (fun l => (Z.of_nat t < l)%Z) lengths -> live_at lengths t = length lengths.
Proof.
  unfold live_at. induction 1 as [|l lengths Hl _ IH]; [done|].
  rewrite filter_cons_True by lia. cbn. by rewrite IH.
Qed.

Lemma non_increasing_tail (l0 : Z) (lengths : list Z) :
  non_increasing (l0 :: lengths) -> non_increasing lengths.
Proof.
  intros Hs i j x y Hij Hx Hy. by apply (Hs (S i) (S j) x y); [lia|..].
Qed.

(** Under sorted lengths the sequences live at step [t] are the first ones. *)
Lemma live_at_prefix (lengths : list Z) (t b : nat) (l : Z) :
  non_increasing lengths -> lengths !! b = Some l ->
  b < live_at lengths t <-> (Z.of_nat t < l)%Z.
Proof.
  revert b. induction lengths as [|l0 lengths IH]; intros b Hs Hb; [done|].
  pose proof (non_increasing_tail _ _ Hs) as Hs'.
  destruct (decide (Z.of_nat t < l0)%Z) as [Hlt|Hge].
  - unfold live_at in *. rewrite filter_cons_True by done.
    destruct b as [|b]; cbn in Hb |- *.
    + injection Hb as <-. split; [done|lia].
    + rewrite <- (IH b Hs' Hb). lia.
  - assert (Hle : (l <= l0)%Z) by (by apply (Hs 0 b l0 l); [lia|..]).
    rewrite live_at_none; [lia|].
    apply Forall_forall. intros x Hx.
    apply list_elem_of_lookup in Hx as [j Hj].
    assert (x <= l0)%Z by (by apply (Hs 0 j l0 x); [lia|..]). lia.
Qed.

(** *** The recurrence over packed steps *)

Section Packed.
Context `{FloatOps}.
Variable r : RNNLayer.
(** The input of sequence [b] at step [t], and the live sequences at [t]. *)
Variable x : nat -> nat -> list float32.
Variable bs : nat -> nat.
Hypothesis bs_mono : forall t, bs (S t) <= bs t.

(** The state of sequence [b] after [t] steps. *)
Let st (b t : nat) : list float32 :=
  foldl (fun h t' => cell r (x b t') h) (zeros (hidden_size r)) (seq 0 t).

Local Lemma st_step (b t : nat) : st b (S t) = cell r (x b t) (st b t).
Proof. unfold st. by rewrite seq_S, foldl_app. Qed.

Local Lemma zip_with_map_seq {A B C} (f : A -> B -> C) (g : nat -> A) (h : nat -> B) (n : nat) :
  zip_with f (map g (seq 0 n)) (map h (seq 0 n)) = map (fun i => f (g i) (h i)) (seq 0 n).
Proof. generalize 0. induction n as [|n IH]; intros k; [done|]. cbn. by rewrite IH. Qed.

Local Lemma take_map_seq {A} (g : nat -> A) (n m : nat) :
  n <= m -> take n (map g (seq 0 m)) = map g (seq 0 n).
Proof.
  intros Hn. change (map g (seq 0 m)) with (g <$> seq 0 m).
  rewrite <- fmap_take, take_seq. by rewrite Nat.min_l.
Qed.

Lemma rnn_steps_packed (k t0 nprev : nat) :
  bs t0 <= nprev ->
  rnn_steps r (flat_map (fun t => map (fun b => x b t) (seq 0 (bs t))) (seq t0 k))
            (map bs (seq t0 k)) (map (fun b => st b t0) (seq 0 nprev)) =
    Ok (flat_map (fun t => map (fun b => st b (S t)) (seq 0 (bs t))) (seq t0 k)).
Proof.
  revert t0 nprev. induction k as [|k IH]; intros t0 nprev Hn; [done|].
  cbn [seq flat_map map rnn_steps].
  rewrite length_app, length_map, length_seq.
  destruct (Nat.ltb_spec (bs t0 + length (flat_map (fun t => map (fun b => x b t) (seq 0 (bs t)))
                                             (seq (S t0) k))) (bs t0)); [lia|].
  rewrite take_app_length' by (by rewrite length_map, length_seq).
  rewrite drop_app_length' by (by rewrite length_map, length_seq).
  rewrite take_map_seq by done.
  rewrite zip_with_map_seq.
  assert (Hst : map (fun i => cell r (x i t0) (st i t0)) (seq 0 (bs t0))
                = map (fun b => st b (S t0)) (seq 0 (bs t0))).
  { apply map_ext. intros b. by rewrite st_step. }
  rewrite Hst. rewrite (IH (S t0) (bs t0)) by apply bs_mono. reflexivity.
Qed.

Lemma padded_steps_packed (width B : nat) (g : nat -> nat -> list float32)
    (ts : list nat) (rest : list (list float32)) :
  padded_steps width B (flat_map (fun t => map (fun b => g b t) (seq 0 (bs t))) ts ++ rest)
               (map bs ts) =
    map (fun t => map (fun b => g b t) (seq 0 (bs t)) ++ replicate (B - bs t) (zeros width)) ts.
Proof.
  revert rest. induction ts as [|t ts IH]; intros rest; [done|].
  cbn [flat_map map padded_steps]. rewrite <- app_assoc.
  rewrite take_app_length' by (by rewrite length_map, length_seq).
  rewrite drop_app_length' by (by rewrite length_map, length_seq).
  by rewrite IH.
Qed.

End Packed.

(** *** forward *)

Lemma flat_map_flat_map {A B C} (f : B -> list C) (g : A -> list B) (l : list A) :
  flat_map f (flat_map g l) = flat_map (fun a => flat_map f (g a)) l.
Proof.
  induction l as [|a l IH]; [done|]. cbn. by rewrite flat_map_app, IH.
Qed.

Lemma flat_map_map {A B C} (f : B -> list C) (g : A -> B) (l : list A) :
  flat_map f (map g l) = flat_map (fun a => f (g a)) l.
Proof. induction l as [|a l IH]; [done|]. cbn. by rewrite IH. Qed.

Lemma flat_map_ext_in {A B} (f g : A -> list B) (l : list A) :
  (forall a, In a l -> f a = g a) -> flat_map f l = flat_map g l.
Proof.
  intros Hfg. rewrite !flat_map_concat_map. f_equal. by apply map_ext_in.
Qed.

Lemma length_feature_at (T : nat) (l : list float32) (b t : nat) :
  b * T + t < length l -> length (feature_at T 1 l b t) = 1.
Proof.
  intros Hl. unfold feature_at. rewrite length_take, length_drop. lia.
Qed.

Lemma head_valid_lengths (B T : nat) (lengths : list Z) :
  valid_lengths B T lengths ->
  exists l0, head lengths = Some l0 /\ (1 <= l0 <= Z.of_nat T)%Z /\
             live_at lengths 0 = B /\
             (1 <= default 0 (last lengths))%Z.
Proof.
  intros (Hlen & HB & Hs & Hr).
  destruct lengths as [|l0 rest] eqn:E; [cbn in Hlen; lia|].
  exists l0. split; [done|]. split; [by apply Forall_cons in Hr as [? _]|]. split.
  - rewrite live_at_all; [done|]. eapply Forall_impl; [exact Hr|]. cbn. intros; lia.
  - rewrite <- E in *.
    destruct (last lengths) as [x|] eqn:El.
    + cbn. rewrite Forall_forall in Hr.
      assert (Hx : x ∈ lengths).
      { rewrite last_lookup in El. by eapply list_elem_of_lookup_2. }
      by apply Hr in Hx as [? _].
    + apply last_None in El. congruence.
Qed.

(** [forward] on any parameters: packing, the recurrence, padding, the
    projection and the activation. *)
Lemma forward_spec `{FloatOps} (self : RNN) (inputs : ndarray float32)
    (lengths : list Z) (B T : nat) :
  shape inputs = [B; T; 1] -> length (data inputs) = B * T ->
  valid_lengths B T lengths ->
  exists logits predictions,
    forward self inputs lengths = Ok (logits, predictions) /\
    shape logits = [B; Z.to_nat (default 0%Z (head lengths));
                    length (weight (hidden_to_logits self))] /\
    data logits =
      flat_map (fun b =>
        flat_map (fun t =>
          apply_linear (hidden_to_logits self) (unpacked_at (rnn self) inputs lengths b t))
          (seq 0 (Z.to_nat (default 0%Z (head lengths)))))
        (seq 0 B) /\
    shape predictions = shape logits /\
    data predictions = map fsigmoid (data logits).
Proof.
  intros Hshape Hdata Hvalid.
  destruct (head_valid_lengths B T lengths Hvalid) as (l0 & Hhead & Hl0 & Hlive0 & Hlast).
  destruct Hvalid as (Hlen & HB & Hs & Hr).
  rewrite Hhead. change (default 0%Z (Some l0)) with l0.
  set (L := Z.to_nat l0).
  assert (HL : 1 <= L <= T) by (unfold L; lia).
  set (x := feature_at T 1 (data inputs)).
  set (bs := live_at lengths).
  assert (Hmono : forall t, bs (S t) <= bs t) by (intros t; apply live_at_mono; lia).
  set (r := rnn self).
  set (st := fun b t => foldl (fun h t' => cell r (x b t') h) (zeros (hidden_size r)) (seq 0 t)).
  (* packing *)
  assert (Epack : pack_padded_sequence inputs lengths =
            Ok (mk_PackedSequence
                  (flat_map (fun t => map (fun b => x b t) (seq 0 (bs t))) (seq 0 L))
                  (map bs (seq 0 L)))).
  { unfold pack_padded_sequence. rewrite Hshape, Hlen, Nat.eqb_refl. cbn [negb].
    destruct (Z.leb_spec (default 0%Z (last lengths)) 0); [lia|].
    rewrite decreasing_of_non_increasing by done. cbn [negb].
    rewrite Hhead. change (default 0%Z (Some l0)) with l0.
    destruct (Z.ltb_spec (Z.of_nat T) l0); [lia|].
    unfold numel. cbn [foldr]. rewrite Nat.mul_1_r. reflexivity. }
  (* the recurrent layer *)
  assert (Ernn : rnn_packed r (mk_PackedSequence
                  (flat_map (fun t => map (fun b => x b t) (seq 0 (bs t))) (seq 0 L))
                  (map bs (seq 0 L))) =
            Ok (mk_PackedSequence
                  (flat_map (fun t => map (fun b => st b (S t)) (seq 0 (bs t))) (seq 0 L))
                  (map bs (seq 0 L)))).
  { unfold rnn_packed. cbn [ps_data ps_batch_sizes].
    assert (Hall : forallb (fun v => length v =? 1)
                     (flat_map (fun t => map (fun b => x b t) (seq 0 (bs t))) (seq 0 L)) = true).
    { apply forallb_forall. intros v Hv.
      apply in_flat_map in Hv as (t & Ht & Hv). apply in_map_iff in Hv as (b & <- & Hb).
      apply in_seq in Ht, Hb. apply Nat.eqb_eq. apply length_feature_at.
      pose proof (live_at_le_length lengths t) as Hle. fold bs in Hle. nia. }
    rewrite Hall. cbn [negb].
    assert (Hh : default 0 (head (map bs (seq 0 L))) = bs 0)
      by (destruct L; [lia|reflexivity]).
    assert (Hz : replicate (bs 0) (zeros (hidden_size r)) = map (fun b => st b 0) (seq 0 (bs 0))).
    { unfold st. cbn [seq foldl]. generalize 0 at 2. generalize (bs 0).
      induction n as [|n IH]; intros k; [done|]. cbn. by rewrite <- IH. }
    rewrite Hh, Hz.
    pose proof (rnn_steps_packed r x bs Hmono L 0 (bs 0) ltac:(done)) as Hsteps.
    cbv zeta in Hsteps. fold st in Hsteps. rewrite Hsteps. reflexivity. }
  (* padding *)
  assert (Epad : pad_packed_sequence (hidden_size r)
            (mk_PackedSequence
               (flat_map (fun t => map (fun b => st b (S t)) (seq 0 (bs t))) (seq 0 L))
               (map bs (seq 0 L))) =
            mk_ndarray [B; L]
              (flat_map (fun b => map (fun t => unpacked_at r inputs lengths b t) (seq 0 L))
                        (seq 0 B))).
  { unfold pad_packed_sequence. cbn [ps_data ps_batch_sizes].
    rewrite length_map, length_seq.
    assert (Hh : default 0 (head (map bs (seq 0 L))) = B).
    { destruct L; [lia|]. cbn. exact Hlive0. }
    rewrite Hh.
    rewrite <- (app_nil_r (flat_map _ (seq 0 L))), padded_steps_packed.
    f_equal. apply flat_map_ext_in. intros b Hb. apply in_seq in Hb.
    rewrite map_map. apply map_ext_in. intros t Ht. apply in_seq in Ht.
    assert (Hlb : exists lb, lengths !! b = Some lb) by (apply lookup_lt_is_Some; lia).
    destruct Hlb as [lb Hlb].
    pose proof (live_at_prefix lengths t b lb Hs Hlb) as Hp. fold bs in Hp.
    pose proof (live_at_le_length lengths t) as Hle. fold bs in Hle.
    unfold unpacked_at. rewrite Hlb. change (default 0%Z (Some lb)) with lb.
    destruct (Z.ltb_spec (Z.of_nat t) lb) as [Hlt|Hge].
    - assert (Hbt : b < bs t) by (apply Hp; lia).
      rewrite lookup_app_l by (by rewrite length_map, length_seq).
      change (map ?f ?l) with (f <$> l). rewrite list_lookup_fmap, lookup_seq_lt by done.
      cbn [fmap option_fmap option_map default].
      unfold hidden_state, sequence_prefix. rewrite Hshape.
      unfold numel. cbn [foldr]. rewrite Nat.mul_1_r. fold x.
      change (map (x b) (seq 0 (S t))) with (x b <$> seq 0 (S t)).
      rewrite foldl_fmap. reflexivity.
    - assert (Hbt : ~ b < bs t) by (rewrite Hp; lia).
      rewrite lookup_app_r by (rewrite length_map, length_seq; lia).
      rewrite length_map, length_seq.
      rewrite lookup_replicate_2 by lia. reflexivity. }
  unfold forward. rewrite Epack. cbn [result_bind]. fold r. rewrite Ernn. cbn [result_bind].
  rewrite Epad. eexists _, _. split; [reflexivity|].
  unfold nd_map. cbn [shape data app]. fold L.
  split; [done|]. split; [|done].
  rewrite flat_map_flat_map. apply flat_map_ext. intros b.
  by rewrite flat_map_map.
Qed.

(** The model of the notebook projects to one logit. *)
Lemma RNN_of_flat_one_logit (h : nat) (theta : list float32) :
  length (weight (hidden_to_logits (RNN_of_flat h theta))) = 1.
Proof. reflexivity. Qed.

Lemma RNN_of_flat_apply_linear `{FloatOps} (h : nat) (theta x : list float32) :
  length theta = num_params h ->
  length (apply_linear (hidden_to_logits (RNN_of_flat h theta)) x) = 1.
Proof.
  intros Hl. unfold apply_linear, RNN_of_flat. cbn [hidden_to_logits weight bias].
  rewrite length_zip_with, length_map. unfold rows_of, nd_rows.
  rewrite length_map, length_seq, length_take, !length_drop, Hl.
  unfold num_params. lia.
Qed.

Lemma length_flat_map_const {A B} (f : A -> list B) (l : list A) (n : nat) :
  (forall a, length (f a) = n) -> length (flat_map f l) = length l * n.
Proof.
  intros Hf. induction l as [|a l IH]; [done|]. cbn. rewrite length_app, Hf, IH. lia.
Qed.



(** The logits beyond a sequence's length are the projection of a zero
    state: the bias of the projection. *)
Example forward_sample :
  match @forward sample_ops (RNN_of_flat 2 sample_theta) sample_batch [3; 1]%Z with
  | Ok (logits, predictions) =>
      shape logits = [2; 3; 1] /\ length (data logits) = 6 /\
      data logits !! (1 * 3 + 1) = Some (SFdiv 24 128 (f32_of_Z 6) (f32_of_Z 4)) /\
      data logits !! (1 * 3 + 2) = Some (SFdiv 24 128 (f32_of_Z 6) (f32_of_Z 4)) /\
      data predictions !! (1 * 3 + 2) = Some f32_one
  | Raise _ => False
  end.
Proof. vm_compute. repeat split. Qed.


(** The lengths that [adjust_lengths] returns for a batch of the loader are
    lengths that [forward] accepts for it. *)
Lemma adjust_lengths_valid_lengths (vary : bool) (w : world) (inputs targets : array_ref)
    (B T : nat) :
  is_batch w inputs targets B T -> 1 <= B -> lengths_fit vary T ->
  exists lengths w',
    adjust_lengths vary inputs targets w = (Ok lengths, w') /\ valid_lengths B T lengths.
Proof.
  intros Hb HB HT. destruct vary.
  - destruct (adjust_lengths_vary_spec w inputs targets B T Hb HB HT)
      as (lengths & w' & E & Hlen & Hs & _ & Hr & _).
    exists lengths, w'. split; [exact E|]. unfold valid_lengths. auto.
  - destruct Hb as (Hsi & _). destruct HT as [HT H31].
    exists (replicate B (Z.of_nat T)), w. split.
    + rewrite (adjust_lengths_fixed_spec w inputs targets B T [1] Hsi).
      by rewrite wrap32_small by lia.
    + split; [apply length_replicate|]. split; [done|]. split.
      * intros i j a b _ Ha Hb'. apply lookup_replicate in Ha as [-> _], Hb' as [-> _]. lia.
      * apply Forall_forall. intros l Hl. apply elem_of_replicate in Hl as [-> _]. lia.
Qed.

(** ** What the notebook writes to *)

Section Frame.
Variable P : nat -> Prop.

Lemma frame_ret {A} (a : A) (Q : A -> Prop) : Q a -> frame P (ret a) Q.
Proof. intros Hq w _. cbn. split; [lia|]. split; [done|]. by intros ? [= <-]. Qed.

Lemma frame_raise {A} (e : exn) (Q : A -> Prop) : frame P (raise e) Q.
Proof. intros w _. cbn. split; [lia|]. split; done. Qed.

Lemma frame_lift {A} (r : result A) (Q : A -> Prop) :
  (forall a, r = Ok a -> Q a) -> frame P (lift r) Q.
Proof. intros Hq w _. cbn. split; [lia|]. split; [done|]. done. Qed.

Lemma frame_bind {A B} (m : M A) (k : A -> M B) (Q : A -> Prop) (R : B -> Prop) :
  frame P m Q -> (forall a, Q a -> frame P (k a) R) -> frame P (bind m k) R.
Proof.
  intros Hm Hk w Hw. unfold bind.
  destruct (Hm w Hw) as (N1 & F1 & Q1).
  destruct (m w) as [[a|e] w1]; cbn in *; [|split; [done|]; split; done].
  assert (Hw1 : forall l, P l -> l < next_loc w1) by (intros l Hl; specialize (Hw l Hl); lia).
  destruct (Hk a (Q1 a eq_refl) w1 Hw1) as (N2 & F2 & Q2).
  split; [lia|]. split; [|done].
  intros l Hl. by rewrite F2, F1.
Qed.

Lemma frame_weaken {A} (m : M A) (Q R : A -> Prop) :
  frame P m Q -> (forall a, Q a -> R a) -> frame P m R.
Proof.
  intros Hm HQR w Hw. destruct (Hm w Hw) as (N & F & Hq). auto.
Qed.

Lemma frame_get_value (r : array_ref) : frame P (get_value r) (fun _ => True).
Proof. intros w _. cbn. split; [lia|]. split; done. Qed.

(** A new buffer is none of the protected ones. *)
Lemma frame_alloc (v : ndarray float32) : frame P (alloc v) (fresh P).
Proof.
  intros w Hw. cbn. split; [lia|]. split.
  - intros l Hl. apply lookup_insert_ne. specialize (Hw l Hl). lia.
  - intros a [= <-]. unfold fresh. cbn. intros Hp. specialize (Hw _ Hp). lia.
Qed.

(** In-place writes go to the buffer of the tensor written. *)
Lemma frame_fill (r : array_ref) (start len : nat) (v : float32) :
  fresh P r -> frame P (fill r start len v) (fun _ => True).
Proof.
  intros Hr w _. cbn. split; [lia|]. split; [|done].
  intros l Hl. apply lookup_alter_ne. intros <-. by apply Hr.
Qed.

Lemma frame_fill_with (r : array_ref) (vs : list float32) :
  fresh P r -> frame P (fill_with r vs) (fun _ => True).
Proof.
  intros Hr w _. cbn. split; [lia|]. split; [|done].
  intros l Hl. apply lookup_alter_ne. intros <-. by apply Hr.
Qed.

Lemma frame_for_each {A} (f : A -> M unit) (l : list A) :
  (forall a, frame P (f a) (fun _ => True)) -> frame P (for_each f l) (fun _ => True).
Proof.
  intros Hf. induction l as [|a l IH]; cbn [for_each].
  - by apply frame_ret.
  - eapply frame_bind; [apply Hf|]. intros _ _. exact IH.
Qed.

Lemma frame_map_M {A B} (f : A -> M B) (l : list A) (Q : B -> Prop) :
  (forall a, frame P (f a) Q) -> frame P (map_M f l) (Forall Q).
Proof.
  intros Hf. induction l as [|a l IH]; cbn [map_M].
  - by apply frame_ret.
  - eapply frame_bind; [apply Hf|]. intros b Hb.
    eapply frame_bind; [exact IH|]. intros bs Hbs.
    apply frame_ret. by constructor.
Qed.

(** The generators touch no buffer. *)
Lemma frame_np_random_randint (lo : Z) (hi : option Z) (size : list Z) :
  frame P (np_random_randint lo hi size) (fun _ => True).
Proof.
  intros w _. unfold np_random_randint.
  destruct (match hi with Some h => (lo, h) | None => (0%Z, lo) end) as [lo' hi'].
  destruct (negb _); [cbn; split; [lia|]; split; done|].
  destruct (numel _ =? 0); [cbn; split; [lia|]; split; done|].
  destruct (_ || _ || _); cbn; (split; [lia|]; split; done).
Qed.

Lemma frame_torch_randperm (n : nat) : frame P (torch_randperm n) (fun _ => True).
Proof. intros w _. cbn. split; [lia|]. split; done. Qed.

(** *** The dataset and the loader *)

Lemma frame_get_random_bits_parity (ns nb : Z) :
  frame P (get_random_bits_parity ns nb) (fun _ => True).
Proof.
  unfold get_random_bits_parity.
  eapply frame_bind; [apply frame_np_random_randint|]. intros a _.
  apply (frame_bind _ _ (fun _ => True)); [by apply frame_lift|]. intros b _.
  by apply frame_ret.
Qed.

Lemma frame_XORDataset_init (ns nb : Z) :
  frame P (XORDataset_init ns nb) (fun _ => True).
Proof.
  unfold XORDataset_init.
  eapply frame_bind; [apply frame_get_random_bits_parity|]. intros fl _.
  eapply frame_bind; [apply frame_alloc|]. intros f _.
  eapply frame_bind; [apply frame_alloc|]. intros l _.
  by apply frame_ret.
Qed.

Lemma frame_XORDataset_getitem (self : XORDataset) (index : Z) :
  frame P (XORDataset_getitem self index) (fun _ => True).
Proof.
  unfold XORDataset_getitem.
  apply (frame_bind _ _ (fun _ => True)); [by apply frame_lift|]. intros f _.
  apply (frame_bind _ _ (fun _ => True)); [by apply frame_lift|]. intros l _.
  by apply frame_ret.
Qed.

Lemma frame_DataLoader_init (ds : XORDataset) (batch_size : Z) (shuffle : bool) :
  frame P (DataLoader_init ds batch_size shuffle) (fun _ => True).
Proof.
  unfold DataLoader_init. destruct (_ <=? _)%Z; [apply frame_raise|by apply frame_ret].
Qed.

Lemma frame_DataLoader_batches (dl : DataLoader) :
  frame P (DataLoader_batches dl) (fun _ => True).
Proof.
  unfold DataLoader_batches, XORDataset_len.
  apply (frame_bind _ _ (fun _ => True)); [by apply frame_lift|]. intros n _.
  eapply frame_bind.
  - destruct (shuffle dl); [apply frame_torch_randperm|by apply (frame_ret _ (fun _ => True))].
  - intros order _. by apply frame_ret.
Qed.

(** The batch tensors are new: stacking copies the samples. *)
Lemma frame_torch_stack (ts : list array_ref) : frame P (torch_stack ts) (fresh P).
Proof.
  unfold torch_stack. destruct ts as [|t rest]; [apply frame_raise|].
  destruct (forallb _ _); [|apply frame_raise].
  eapply frame_bind; [apply (frame_map_M _ _ (fun _ => True)); intros; apply frame_get_value|].
  intros vals _. apply frame_alloc.
Qed.

Lemma frame_default_collate (samples : list (array_ref * array_ref)) :
  frame P (default_collate samples) (fun b => fresh P (fst b) /\ fresh P (snd b)).
Proof.
  unfold default_collate.
  eapply frame_bind; [apply frame_torch_stack|]. intros inputs Hi.
  eapply frame_bind; [apply frame_torch_stack|]. intros targets Ht.
  by apply frame_ret.
Qed.

Lemma frame_DataLoader_fetch (dl : DataLoader) (idxs : list nat) :
  frame P (DataLoader_fetch dl idxs) (fun b => fresh P (fst b) /\ fresh P (snd b)).
Proof.
  unfold DataLoader_fetch.
  eapply frame_bind.
  - apply (frame_map_M _ _ (fun _ => True)). intros i. apply frame_XORDataset_getitem.
  - intros samples _. apply frame_default_collate.
Qed.

(** *** adjust_lengths *)

Lemma frame_zero_from (x : array_ref) (i : nat) (start : Z) :
  fresh P x -> frame P (zero_from x i start) (fun _ => True).
Proof.
  intros Hx. unfold zero_from.
  destruct (ashape x) as [|n [|t inner]]; try apply frame_raise.
  destruct (n <=? i); [apply frame_raise|by apply frame_fill].
Qed.

Lemma frame_adjust_lengths (vary : bool) (inputs targets : array_ref) :
  fresh P inputs -> fresh P targets ->
  frame P (adjust_lengths vary inputs targets) (fun _ => True).
Proof.
  intros Hi Ht. unfold adjust_lengths.
  apply (frame_bind _ _ (fun _ => True)); [by apply frame_lift|]. intros B _.
  apply (frame_bind _ _ (fun _ => True)); [by apply frame_lift|]. intros T _.
  destruct vary; cbn [negb]; [|by apply frame_ret].
  eapply frame_bind; [apply frame_np_random_randint|]. intros a _.
  apply (frame_bind _ _ (fun _ => True)); [by apply frame_lift|]. intros l _.
  eapply frame_bind; [|intros; by apply frame_ret].
  apply frame_for_each. intros i. unfold chop.
  apply (frame_bind _ _ (fun _ => True)); [by apply frame_lift|]. intros li _.
  eapply frame_bind; [by apply frame_zero_from|]. intros _ _.
  apply (frame_bind _ _ (fun _ => True)); [by apply frame_lift|]. intros li' _.
  by apply frame_zero_from.
Qed.

End Frame.

(** *** The model, evaluation and training *)

Section FrameModel.
Context `{FloatOps}.
Variable P : nat -> Prop.

Lemma frame_to_device (d : device) (t : array_ref) :
  fresh P t -> frame P (to_device d t) (fresh P).
Proof.
  intros Ht. destruct d; cbn [to_device]; [by apply frame_ret|].
  eapply frame_bind; [apply frame_get_value|]. intros v _. apply frame_alloc.
Qed.

Lemma frame_RNN_init (hidden_size : nat) (d : device) :
  frame P (RNN_init hidden_size d) (fun model => fresh P (obj_params model)).
Proof.
  intros w Hw. unfold RNN_init, rng_take.
  set (w1 := mk_world (heap w) (next_loc w) (np_rng w) _).
  destruct (frame_alloc P (mk_ndarray [num_params hidden_size]
              (map (uniform_init hidden_size)
                   (map (torch_rng w) (seq 0 (num_params hidden_size))))) w1 Hw)
    as (N & F & Q).
  cbn in *. split; [lia|]. split; [done|].
  intros a [= <-]. unfold fresh. cbn. intros Hp. specialize (Hw _ Hp). lia.
Qed.

Lemma frame_RNN_call (model : RNN_obj) (inputs : array_ref) (lengths : list Z) :
  frame P (RNN_call model inputs lengths) (fun _ => True).
Proof.
  unfold RNN_call.
  eapply frame_bind; [apply frame_get_value|]. intros x _.
  eapply frame_bind; [apply frame_get_value|]. intros theta _.
  apply (frame_bind _ _ _ (fun _ => True)); [by apply frame_lift|]. intros out _.
  eapply frame_bind; [apply frame_alloc|]. intros logits _.
  eapply frame_bind; [apply frame_alloc|]. intros predictions _.
  by apply frame_ret.
Qed.

(** The optimizer writes to the parameters of the model. *)
Lemma frame_train_step (model : RNN_obj) (inputs logits targets : array_ref)
    (lengths : list Z) :
  fresh P (obj_params model) ->
  frame P (train_step model inputs logits targets lengths) (fun _ => True).
Proof.
  intros Hm. unfold train_step. destruct (negb _); [apply frame_raise|].
  eapply frame_bind; [apply frame_get_value|]. intros x _.
  eapply frame_bind; [apply frame_get_value|]. intros y _.
  eapply frame_bind; [apply frame_get_value|]. intros theta _.
  by apply frame_fill_with.
Qed.

Lemma frame_evaluate_batches (valid_loader : DataLoader) (vary : bool) (d : device)
    (model : RNN_obj) (batches : list (list nat)) (is_correct : list bool) :
  frame P (evaluate_batches valid_loader vary d model batches is_correct) (fun _ => True).
Proof.
  revert is_correct. induction batches as [|idxs rest IH]; intros is_correct;
    cbn [evaluate_batches]; [by apply frame_ret|].
  eapply frame_bind; [apply frame_DataLoader_fetch|]. intros batch [Hi Ht].
  eapply frame_bind; [by apply frame_adjust_lengths|]. intros lengths _.
  eapply frame_bind; [by apply frame_to_device|]. intros inputs Hi'.
  eapply frame_bind; [by apply frame_to_device|]. intros targets Ht'.
  eapply frame_bind; [apply frame_RNN_call|]. intros out _.
  eapply frame_bind; [apply frame_get_value|]. intros p _.
  eapply frame_bind; [apply frame_get_value|]. intros t _.
  apply (frame_bind _ _ _ (fun _ => True)); [by apply frame_lift|]. intros c _.
  apply IH.
Qed.

Lemma frame_evaluate (max_bits : Z) (vary : bool) (d : device) (model : RNN_obj) :
  frame P (evaluate max_bits vary d model) (fun _ => True).
Proof.
  unfold evaluate, evaluate_dataset.
  eapply frame_bind.
  - apply (frame_bind _ _ _ (fun _ => True)); [by apply frame_lift|]. intros n _.
    apply frame_XORDataset_init.
  - intros ds _.
    eapply frame_bind; [apply frame_DataLoader_init|]. intros valid_loader _.
    eapply frame_bind; [apply frame_DataLoader_batches|]. intros batches _.
    eapply frame_bind; [apply frame_evaluate_batches|]. intros is_correct _.
    by apply frame_ret.
Qed.

Lemma frame_train_batch (cfg : settings) (train_loader : DataLoader) (model : RNN_obj)
    (st : loop_state) (idxs : list nat) :
  fresh P (obj_params model) ->
  frame P (train_batch cfg train_loader model st idxs) (fun _ => True).
Proof.
  intros Hm. unfold train_batch.
  eapply frame_bind; [apply frame_DataLoader_fetch|]. intros batch [Hi Ht].
  eapply frame_bind; [by apply frame_adjust_lengths|]. intros lengths _.
  eapply frame_bind; [by apply frame_to_device|]. intros targets Ht'.
  eapply frame_bind; [apply frame_RNN_call|]. intros out _.
  eapply frame_bind; [by apply frame_train_step|]. intros _ _.
  eapply frame_bind; [apply frame_get_value|]. intros p _.
  eapply frame_bind; [apply frame_get_value|]. intros t _.
  apply (frame_bind _ _ _ (fun _ => True)); [by apply frame_lift|]. intros c _.
  destruct (_ =? _)%Z; [|by apply frame_ret].
  eapply frame_bind; [apply frame_evaluate|]. intros v _.
  by apply frame_ret.
Qed.

Lemma frame_train_batches (cfg : settings) (train_loader : DataLoader) (model : RNN_obj)
    (batches : list (list nat)) (st : loop_state) :
  fresh P (obj_params model) ->
  frame P (train_batches cfg train_loader model batches st) (fun _ => True).
Proof.
  intros Hm. revert st. induction batches as [|idxs rest IH]; intros st;
    cbn [train_batches]; [by apply frame_ret|].
  eapply frame_bind; [by apply frame_train_batch|]. intros r _.
  destruct (snd r); [by apply frame_ret|apply IH].
Qed.

Lemma frame_train_epochs (cfg : settings) (train_loader : DataLoader) (model : RNN_obj)
    (n : nat) (st : loop_state) :
  fresh P (obj_params model) ->
  frame P (train_epochs cfg train_loader model n st) (fun _ => True).
Proof.
  intros Hm. revert st. induction n as [|n IH]; intros st;
    cbn [train_epochs]; [by apply frame_ret|].
  eapply frame_bind; [apply frame_DataLoader_batches|]. intros batches _.
  eapply frame_bind; [by apply frame_train_batches|]. intros r _.
  destruct (valid_accuracy (fst r)) as [v|]; [|apply frame_raise].
  destruct (SFeqb v f64_one); [by apply frame_ret|apply IH].
Qed.

(** Everything the notebook does once the dataset exists. *)
Lemma frame_after_dataset (cfg : settings) (ds : XORDataset) (batch_size : Z)
    (hidden_size : nat) :
  frame P (after_dataset cfg ds batch_size hidden_size) (fun _ => True).
Proof.
  unfold after_dataset.
  eapply frame_bind; [apply frame_DataLoader_init|]. intros train_loader _.
  eapply frame_bind; [apply frame_RNN_init|]. intros model Hm.
  eapply frame_bind; [by apply frame_train_epochs|]. intros st _.
  by apply frame_ret.
Qed.

End FrameModel.

(** ** The stored arrays of a dataset are never written *)

Lemma frame_dataset_unchanged {A} (ds : XORDataset) (m : M A) (Q : A -> Prop) (w : world) :
  frame (stored_in ds) m Q ->
  base (features ds) < next_loc w -> base (labels ds) < next_loc w ->
  dataset_unchanged ds w (snd (m w)).
Proof.
  intros Hm Hf Hl.
  destruct (Hm w) as (_ & F & _).
  { intros l [-> | ->]; done. }
  unfold dataset_unchanged, value_of, read_ref, buffer.
  rewrite !F by (unfold stored_in; auto). done.
Qed.

Lemma XORDataset_init_allocated (ns nb : Z) (w0 w1 : world) (ds : XORDataset) :
  XORDataset_init ns nb w0 = (Ok ds, w1) ->
  base (features ds) < next_loc w1 /\ base (labels ds) < next_loc w1 /\
  base (features ds) <> base (labels ds).
Proof.
  intros E. pose proof (XORDataset_init_size _ _ _ _ _ E) as Hok.
  destruct (XORDataset_init_ok ns nb w0 Hok) as (b & l & w' & E' & _ & _ & _ & _ & Hn & _).
  rewrite E' in E. injection E as <- <-. cbn. lia.
Qed.

(** C4: once an XORDataset is constructed, [__getitem__] and [__len__]
    change nothing at all, and in every later state neither the making of a
    batch followed by [adjust_lengths] (with or without varying lengths), nor
    any run of the training loop over batches or epochs with its evaluations,
    nor the rest of the notebook changes what the dataset's stored features
    and labels hold. *)
Theorem dataset_never_modified `{FloatOps} (num_sequences num_bits : Z) (w0 w1 : world)
    (ds : XORDataset) :
  XORDataset_init num_sequences num_bits w0 = (Ok ds, w1) ->
  (forall w index, snd (XORDataset_getitem ds index w) = w) /\
  (forall w, snd (XORDataset_len ds w) = w) /\
  (forall w dl idxs vary, next_loc w1 <= next_loc w ->
     dataset_unchanged ds w
       (snd (bind (DataLoader_fetch dl idxs)
                  (fun batch => adjust_lengths vary (fst batch) (snd batch)) w))) /\
  (forall w cfg dl model batches st, next_loc w1 <= next_loc w ->
     ~ stored_in ds (base (obj_params model)) ->
     dataset_unchanged ds w (snd (train_batches cfg dl model batches st w))) /\
  (forall w cfg dl model n st, next_loc w1 <= next_loc w ->
     ~ stored_in ds (base (obj_params model)) ->
     dataset_unchanged ds w (snd (train_epochs cfg dl model n st w))) /\
  (forall w max_bits vary d model, next_loc w1 <= next_loc w ->
     dataset_unchanged ds w (snd (evaluate max_bits vary d model w))) /\
  (forall cfg batch_size hidden_size,
     dataset_unchanged ds w1 (snd (after_dataset cfg ds batch_size hidden_size w1))).
Proof.
  intros E. destruct (XORDataset_init_allocated _ _ _ _ _ E) as (Hf & Hl & _).
  split; [intros w index; unfold XORDataset_getitem, bind, lift;
          destruct (np_index0_all _ _); [destruct (np_index0 _ _)|]; reflexivity|].
  split; [reflexivity|].
  split; [|split; [|split; [|split]]].
  - intros w dl idxs vary Hw.
    apply (frame_dataset_unchanged ds _ (fun _ => True)); [|lia..].
    eapply frame_bind; [apply frame_DataLoader_fetch|].
    intros batch [Hi Ht]. by apply frame_adjust_lengths.
  - intros w cfg dl model batches st Hw Hm.
    apply (frame_dataset_unchanged ds _ (fun _ => True)); [|lia..].
    by apply frame_train_batches.
  - intros w cfg dl model n st Hw Hm.
    apply (frame_dataset_unchanged ds _ (fun _ => True)); [|lia..].
    by apply frame_train_epochs.
  - intros w max_bits vary d model Hw.
    apply (frame_dataset_unchanged ds _ (fun _ => True)); [|lia..].
    apply frame_evaluate.
  - intros cfg batch_size hidden_size.
    apply (frame_dataset_unchanged ds _ (fun _ => True)); [|lia..].
    apply frame_after_dataset.
Qed.

Lemma dataset_never_modified_witness :
  exists ds w1,
    XORDataset_init 3 4 sample_world = (Ok ds, w1) /\
    (forall w index, snd (XORDataset_getitem ds index w) = w) /\
    (forall w, snd (XORDataset_len ds w) = w) /\
    (forall w dl idxs vary, next_loc w1 <= next_loc w ->
       dataset_unchanged ds w
         (snd (bind (DataLoader_fetch dl idxs)
                    (fun batch => adjust_lengths vary (fst batch) (snd batch)) w))) /\
    (forall w cfg dl model batches st, next_loc w1 <= next_loc w ->
       ~ stored_in ds (base (obj_params model)) ->
       dataset_unchanged ds w (snd (@train_batches sample_ops cfg dl model batches st w))) /\
    (forall w cfg dl model n st, next_loc w1 <= next_loc w ->
       ~ stored_in ds (base (obj_params model)) ->
       dataset_unchanged ds w (snd (@train_epochs sample_ops cfg dl model n st w))) /\
    (forall w max_bits vary d model, next_loc w1 <= next_loc w ->
       dataset_unchanged ds w (snd (@evaluate sample_ops max_bits vary d model w))) /\
    (forall cfg batch_size hidden_size,
       dataset_unchanged ds w1
         (snd (@after_dataset sample_ops cfg ds batch_size hidden_size w1))).
Proof.
  eexists _, _. split; [reflexivity|].
  apply (@dataset_never_modified sample_ops 3 4 sample_world). reflexivity.
Defined.

(** One batch of the dataset, cut to varying lengths: the batch tensors are
    written, the dataset reads as before. *)
Example adjust_lengths_leaves_dataset :
  let '(r, w1) := XORDataset_init 2 3 sample_world in
  match r with
  | Ok ds =>
      let w2 := snd (bind (DataLoader_fetch (mk_DataLoader ds 2 false) [0; 1])
                          (fun batch => adjust_lengths true (fst batch) (snd batch)) w1) in
      value_of w2 (features ds) = value_of w1 (features ds) /\
      value_of w2 (labels ds) = value_of w1 (labels ds) /\
      heap w2 <> heap w1
  | Raise _ => False
  end.
Proof.
  vm_compute. split; [reflexivity|]. split; [reflexivity|]. discriminate.
Qed.

(* ================================================================== *)
(** * Part III: further properties of the notebook's code *)
(* ================================================================== *)

(** ** The items of a dataset *)

(** What a dataset holds after construction: the drawn bits as floats and
    the parities of their running sums. *)
Lemma XORDataset_init_contents (ns nb : Z) (w0 w1 : world) (ds : XORDataset) :
  XORDataset_init ns nb w0 = (Ok ds, w1) ->
  let n := Z.to_nat ns in
  let m := Z.to_nat nb in
  let ints := drawn_bits ns nb w0 in
  (0 <= ns)%Z /\ (0 <= nb)%Z /\
  ds = mk_XORDataset ns nb (mk_ref (next_loc w0) 0 [n; m; 1])
                     (mk_ref (S (next_loc w0)) 0 [n; m; 1]) /\
  next_loc w1 = S (S (next_loc w0)) /\
  buffer w1 (next_loc w0) = map f32_of_Z ints /\
  buffer w1 (S (next_loc w0)) =
    map f32_of_bool (map (fun s => negb (s mod 2 =? 0)%Z)
                         (concat (map cumsum_row (nd_rows n m ints)))) /\
  length (buffer w1 (next_loc w0)) = n * m /\
  length (buffer w1 (S (next_loc w0))) = n * m.
Proof.
  intros E n m ints. pose proof (XORDataset_init_size _ _ _ _ _ E) as Hok.
  destruct (XORDataset_init_ok ns nb w0 Hok)
    as (bits & labs & w' & E' & G & Hb & Hl & Hh & Hn & _).
  destruct (get_random_bits_parity_ok ns nb w0 Hok) as (w'' & G' & _).
  apply np_empty_ok_pair in Hok as ([Hns _] & [Hnb _] & _).
  rewrite G' in G. cbn in G. injection G as <- <-.
  rewrite E' in E. injection E as <- <-.
  fold n m in Hb, Hl, Hh. fold ints in Hb, Hl, Hh. fold n m ints.
  do 4 (split; [done|]).
  assert (B0 : buffer w' (next_loc w0) = map f32_of_Z ints).
  { unfold buffer. by rewrite Hh, lookup_insert_ne, lookup_insert_eq by lia. }
  assert (B1 : buffer w' (S (next_loc w0)) =
               map f32_of_bool (map (fun s => negb (s mod 2 =? 0)%Z)
                                    (concat (map cumsum_row (nd_rows n m ints))))).
  { unfold buffer. by rewrite Hh, lookup_insert_eq. }
  rewrite B0, B1. auto.
Qed.

(** A window on row [k] of an [[n, m, 1]] array that starts its buffer. *)
Lemma read_row (w : world) (l n m k : nat) :
  k < n ->
  read_ref w (mk_ref l (0 + k * numel [m; 1]) [m; 1]) =
    nd_row m (read_ref w (mk_ref l 0 [n; m; 1])) k.
Proof.
  intros Hk. unfold read_ref, nd_row. cbn [base offset ashape].
  assert (H1 : numel [m; 1] = m) by (unfold numel; cbn; lia).
  assert (H2 : numel [n; m; 1] = n * m) by (unfold numel; cbn; lia).
  rewrite H1, H2, drop_0, Nat.add_0_l.
  apply list_eq. intros i. destruct (decide (i < m)) as [Hi|Hi].
  - rewrite !lookup_take_lt, !lookup_drop by done. by rewrite lookup_take_lt by nia.
  - by rewrite !lookup_take_ge by lia.
Qed.

(** The index that [__getitem__] reads for [index]. *)
Lemma getitem_ok (ns nb : Z) (w0 w1 : world) (ds : XORDataset) (index : Z) (w : world) :
  XORDataset_init ns nb w0 = (Ok ds, w1) ->
  (- ns <= index < ns)%Z ->
  let k := Z.to_nat (index mod ns) in
  let m := Z.to_nat nb in
  k < Z.to_nat ns /\
  XORDataset_getitem ds index w =
    (Ok (mk_ref (base (features ds)) (0 + k * numel [m; 1]) [m; 1],
         mk_ref (base (labels ds)) (0 + k * numel [m; 1]) [m; 1]), w).
Proof.
  intros E Hi k m.
  destruct (XORDataset_init_contents ns nb w0 w1 ds E) as (Hns & Hnb & -> & _).
  assert (Hk : k < Z.to_nat ns).
  { unfold k. pose proof (Z.mod_pos_bound index ns ltac:(lia)). lia. }
  split; [exact Hk|].
  unfold XORDataset_getitem, bind, lift, np_index0_all. cbn [features labels ashape base].
  pose proof (np_index0_spec (mk_ref (next_loc w0) 0 [Z.to_nat ns; m; 1]) index
                (Z.to_nat ns) [m; 1] eq_refl) as Sf.
  pose proof (np_index0_spec (mk_ref (S (next_loc w0)) 0 [Z.to_nat ns; m; 1]) index
                (Z.to_nat ns) [m; 1] eq_refl) as Sl.
  destruct (np_index0 (mk_ref (next_loc w0) 0 _) index) as [x|e]; [|destruct Sf; lia].
  destruct (np_index0 (mk_ref (S (next_loc w0)) 0 _) index) as [y|e]; [|destruct Sl; lia].
  destruct Sf as [_ ->], Sl as [_ ->]. cbn [base offset].
  rewrite Z2Nat.id by lia. reflexivity.
Qed.

(** X1: a dataset constructed for [num_sequences] sequences has that length;
    [__getitem__] accepts exactly the indices from [-num_sequences] to
    [num_sequences - 1], a negative index counting from the end; the item is
    the pair of row [index mod num_sequences] of the features and of the
    labels, and reading an item changes nothing; an index out of this range
    is refused with [IndexError]. *)
Theorem XORDataset_getitem_rows (num_sequences num_bits : Z) (w0 w1 : world)
    (ds : XORDataset) :
  XORDataset_init num_sequences num_bits w0 = (Ok ds, w1) ->
  forall (w : world) (index : Z),
    XORDataset_len ds w = (Ok (Z.to_nat num_sequences), w) /\
    match XORDataset_getitem ds index w with
    | (Ok (x, y), w') =>
        w' = w /\ (- num_sequences <= index < num_sequences)%Z /\
        value_of w x =
          mk_ndarray [Z.to_nat num_bits; 1]
            (nd_row (Z.to_nat num_bits) (read_ref w (features ds))
                    (Z.to_nat (index mod num_sequences))) /\
        value_of w y =
          mk_ndarray [Z.to_nat num_bits; 1]
            (nd_row (Z.to_nat num_bits) (read_ref w (labels ds))
                    (Z.to_nat (index mod num_sequences)))
    | (Raise e, w') =>
        w' = w /\ e = IndexError /\ (index < - num_sequences \/ num_sequences <= index)%Z
    end.
Proof.
  intros E w index.
  destruct (XORDataset_init_contents _ _ _ _ _ E) as (Hns & Hnb & Hds & _).
  split; [by rewrite Hds|].
  destruct (decide (- num_sequences <= index < num_sequences)%Z) as [Hi|Hi].
  - destruct (getitem_ok _ _ _ _ _ index w E Hi) as [Hk ->].
    split; [done|]. split; [done|]. rewrite Hds. cbn [features labels base].
    unfold value_of. cbn [ashape]. by rewrite !(read_row w _ (Z.to_nat num_sequences)).
  - rewrite Hds. unfold XORDataset_getitem, bind, lift, np_index0_all.
    cbn [features labels ashape].
    pose proof (np_index0_spec (mk_ref (next_loc w0) 0
                  [Z.to_nat num_sequences; Z.to_nat num_bits; 1]) index
                  (Z.to_nat num_sequences) [Z.to_nat num_bits; 1] eq_refl) as Sf.
    destruct (np_index0 (mk_ref (next_loc w0) 0 _) index) as [x|e].
    + destruct Sf as [Hr _]. lia.
    + destruct Sf as [-> Hr]. split; [done|]. split; [done|]. lia.
Qed.

Lemma XORDataset_getitem_rows_witness :
  exists ds w1,
    XORDataset_init 2 3 sample_world = (Ok ds, w1) /\
    forall (w : world) (index : Z),
      XORDataset_len ds w = (Ok (Z.to_nat 2), w) /\
      match XORDataset_getitem ds index w with
      | (Ok (x, y), w') =>
          w' = w /\ (- 2 <= index < 2)%Z /\
          value_of w x =
            mk_ndarray [Z.to_nat 3; 1]
              (nd_row (Z.to_nat 3) (read_ref w (features ds)) (Z.to_nat (index mod 2))) /\
          value_of w y =
            mk_ndarray [Z.to_nat 3; 1]
              (nd_row (Z.to_nat 3) (read_ref w (labels ds)) (Z.to_nat (index mod 2)))
      | (Raise e, w') => w' = w /\ e = IndexError /\ (index < - 2 \/ 2 <= index)%Z
      end.
Proof.
  eexists _, _. split; [reflexivity|].
  exact (XORDataset_getitem_rows 2 3 sample_world _ _ eq_refl).
Defined.

(** Row [k] of a concatenation of rows of one length. *)
Lemma nd_row_concat {A} (m : nat) (rows : list (list A)) (k : nat) (r : list A) :
  Forall (fun r => length r = m) rows -> rows !! k = Some r ->
  nd_row m (concat rows) k = r.
Proof.
  intros Hrows Hk. apply list_eq. intros t.
  assert (Hr : length r = m).
  { rewrite Forall_forall in Hrows. apply Hrows. by eapply list_elem_of_lookup_2. }
  destruct (decide (t < m)) as [Ht|Ht].
  - rewrite lookup_nd_row by done. rewrite (lookup_concat_rows m) by done.
    by rewrite Hk.
  - unfold nd_row. rewrite lookup_take_ge by lia. symmetry. apply lookup_ge_None. lia.
Qed.

(** The item at a valid index, in the integers that were drawn: the bits of
    one row, and the parities of the running sums of that row. *)
Lemma getitem_contents (ns nb : Z) (w0 w1 : world) (ds : XORDataset) (w w' : world)
    (index : Z) (x y : array_ref) :
  XORDataset_init ns nb w0 = (Ok ds, w1) ->
  dataset_unchanged ds w1 w ->
  XORDataset_getitem ds index w = (Ok (x, y), w') ->
  exists row : list Z,
    length row = Z.to_nat nb /\ Forall is_bit row /\
    read_ref w x = map f32_of_Z row /\
    read_ref w y = map (fun s => f32_of_bool (negb (s mod 2 =? 0)%Z)) (cumsum_row row).
Proof.
  intros E [Uf Ul] G.
  destruct (XORDataset_init_contents _ _ _ _ _ E)
    as (Hns & Hnb & Hds & Hn & B0 & B1 & L0 & L1).
  destruct (drawn_bits_spec ns nb w0) as [Hlen Hbits].
  set (n := Z.to_nat ns) in *. set (m := Z.to_nat nb) in *.
  set (ints := drawn_bits ns nb w0) in *.
  assert (Hi : (- ns <= index < ns)%Z).
  { destruct (decide (- ns <= index < ns)%Z) as [Hi|Hi]; [done|exfalso].
    rewrite Hds in G. unfold XORDataset_getitem, bind, lift, np_index0_all in G.
    cbn [features labels ashape] in G.
    pose proof (np_index0_spec (mk_ref (next_loc w0) 0 [n; m; 1]) index n [m; 1] eq_refl) as Sf.
    destruct (np_index0 (mk_ref (next_loc w0) 0 _) index) as [x'|e]; [|discriminate].
    destruct Sf as [Hr _]. lia. }
  destruct (getitem_ok _ _ _ _ _ index w E Hi) as [Hk G'].
  rewrite G' in G. injection G as <- <- <-.
  fold n m in Hk |- *. set (k := Z.to_nat (index mod ns)) in *.
  assert (Rf : read_ref w (features ds) = map f32_of_Z ints).
  { injection Uf as ->. rewrite Hds. unfold read_ref. cbn [features base offset ashape].
    rewrite B0, drop_0. apply take_ge. rewrite length_map. fold ints.
    unfold numel. cbn. lia. }
  assert (Rl : read_ref w (labels ds) =
               map f32_of_bool (map (fun s => negb (s mod 2 =? 0)%Z)
                                    (concat (map cumsum_row (nd_rows n m ints))))).
  { injection Ul as ->. rewrite Hds. unfold read_ref. cbn [labels base offset ashape].
    rewrite B1, drop_0. apply take_ge. rewrite <- B1, L1.
    unfold numel. cbn. lia. }
  rewrite Hds in Rf, Rl |- *. cbn [features labels base] in *.
  exists (nd_row m ints k).
  split; [apply length_nd_row; nia|]. split; [by apply Forall_nd_row|].
  change (k * (m * 1)) with (0 + k * numel [m; 1]).
  rewrite !(read_row w _ n) by done. rewrite Rf, Rl. split.
  - apply nd_row_map.
  - rewrite map_map, nd_row_map. f_equal.
    apply nd_row_concat.
    + apply Forall_forall. intros r Hr.
      apply list_elem_of_In, in_map_iff in Hr as (r0 & <- & Hr0).
      rewrite length_cumsum_row.
      pose proof (Forall_length_nd_rows n m ints Hlen) as HF.
      rewrite Forall_forall in HF. apply HF. by apply list_elem_of_In.
    + change (map cumsum_row ?l) with (cumsum_row <$> l).
      rewrite list_lookup_fmap, lookup_nd_rows by done. reflexivity.
Qed.

(** X2: every item of a dataset whose stored arrays are as constructed pairs
    a sequence of bits (each 0.0 or 1.0) with its running parity: the label
    at position [t] is the cumulative XOR of the bits [0..t] of the item. *)
Theorem XORDataset_items_are_labelled (num_sequences num_bits : Z) (w0 w1 : world)
    (ds : XORDataset) (w w' : world) (index : Z) (x y : array_ref) :
  XORDataset_init num_sequences num_bits w0 = (Ok ds, w1) ->
  dataset_unchanged ds w1 w ->
  XORDataset_getitem ds index w = (Ok (x, y), w') ->
  length (read_ref w x) = Z.to_nat num_bits /\
  length (read_ref w y) = Z.to_nat num_bits /\
  Forall (fun b => b = f32_zero \/ b = f32_one) (read_ref w x) /\
  forall t, t < Z.to_nat num_bits ->
    read_ref w y !! t = Some (f32_of_bool (cumulative_xor (take (S t) (read_ref w x)))).
Proof.
  intros E U G.
  destruct (getitem_contents _ _ _ _ _ _ _ _ _ _ E U G) as (row & Hlen & Hbits & -> & ->).
  rewrite !length_map, length_cumsum_row. split; [done|]. split; [done|]. split.
  - apply Forall_forall. intros b Hb.
    apply list_elem_of_In, in_map_iff in Hb as (z & <- & Hz).
    rewrite Forall_forall in Hbits.
    destruct (Hbits z) as [-> | ->]; [by apply list_elem_of_In|by left|by right].
  - intros t Ht.
    assert (Hc : exists c, cumsum_row row !! t = Some c).
    { apply lookup_lt_is_Some. rewrite length_cumsum_row. lia. }
    destruct Hc as [c Hc].
    change (map ?f ?l) with (f <$> l). rewrite list_lookup_fmap, Hc. cbn.
    apply cumsum_row_parity in Hc. rewrite Hc.
    rewrite <- fmap_take.
    assert (Hp : Forall is_bit (take (S t) row)) by by apply Forall_take.
    destruct (bits_as_floats _ Hp) as [Hx _].
    change (f32_of_Z <$> take (S t) row) with (map f32_of_Z (take (S t) row)).
    by rewrite Hx.
Qed.

Lemma XORDataset_items_are_labelled_witness :
  exists ds w1 x y w',
    XORDataset_init 2 3 sample_world = (Ok ds, w1) /\
    dataset_unchanged ds w1 w1 /\
    XORDataset_getitem ds (-1) w1 = (Ok (x, y), w') /\
    length (read_ref w1 x) = Z.to_nat 3 /\
    length (read_ref w1 y) = Z.to_nat 3 /\
    Forall (fun b => b = f32_zero \/ b = f32_one) (read_ref w1 x) /\
    forall t, t < Z.to_nat 3 ->
      read_ref w1 y !! t = Some (f32_of_bool (cumulative_xor (take (S t) (read_ref w1 x)))).
Proof.
  eexists _, _, _, _, _.
  split; [reflexivity|]. split; [split; reflexivity|]. split; [reflexivity|].
  exact (XORDataset_items_are_labelled 2 3 sample_world _ _ _ _ (-1) _ _
           eq_refl (conj eq_refl eq_refl) eq_refl).
Defined.

Lemma sum_take_S (l : list Z) (t : nat) (b : Z) :
  l !! t = Some b ->
  foldr Z.add 0%Z (take (S t) l) = (foldr Z.add 0 (take t l) + b)%Z.
Proof.
  revert t. induction l as [|x l IH]; intros t H; [done|].
  destruct t as [|t]; cbn in H |- *.
  - injection H as <-. rewrite take_0. cbn. lia.
  - change (take (S t) l) with (take (S t) l). rewrite (IH t H). lia.
Qed.

Lemma bit_of_f32_of_bool (b : bool) : bit_of (f32_of_bool b) = b.
Proof. by destruct b. Qed.

(** X3: an item's bits can be read back from its labels: the first bit is
    the first label, and every later bit is the XOR of its label with the
    label before. *)
Theorem XORDataset_bits_from_labels (num_sequences num_bits : Z) (w0 w1 : world)
    (ds : XORDataset) (w w' : world) (index : Z) (x y : array_ref) :
  XORDataset_init num_sequences num_bits w0 = (Ok ds, w1) ->
  dataset_unchanged ds w1 w ->
  XORDataset_getitem ds index w = (Ok (x, y), w') ->
  read_ref w x !! 0 = read_ref w y !! 0 /\
  forall t, S t < Z.to_nat num_bits ->
    exists p q,
      read_ref w y !! t = Some p /\ read_ref w y !! S t = Some q /\
      read_ref w x !! S t = Some (f32_of_bool (xorb (bit_of p) (bit_of q))).
Proof.
  intros E U G.
  destruct (getitem_contents _ _ _ _ _ _ _ _ _ _ E U G) as (row & Hlen & Hbits & -> & ->).
  assert (Hpar : forall t b, row !! t = Some b ->
            exists c, cumsum_row row !! t = Some c /\
                      (c mod 2 = foldr Z.add 0 (take (S t) row) mod 2)%Z).
  { intros t b Hb.
    assert (Hc : exists c, cumsum_row row !! t = Some c).
    { apply lookup_lt_is_Some. rewrite length_cumsum_row. by eapply lookup_lt_Some. }
    destruct Hc as [c Hc]. exists c. split; [done|]. by apply cumsum_row_parity. }
  assert (Hbit : forall t b, row !! t = Some b -> is_bit b).
  { intros t b Hb. rewrite Forall_forall in Hbits. apply Hbits.
    by eapply list_elem_of_lookup_2. }
  change (map ?f ?l) with (f <$> l). split.
  - rewrite !list_lookup_fmap. destruct row as [|b row]; [done|]. cbn.
    destruct (Hbit 0 b eq_refl) as [-> | ->]; reflexivity.
  - intros t Ht.
    assert (Hb0 : exists b0, row !! t = Some b0) by (apply lookup_lt_is_Some; lia).
    assert (Hb1 : exists b1, row !! S t = Some b1) by (apply lookup_lt_is_Some; lia).
    destruct Hb0 as [b0 Hb0], Hb1 as [b1 Hb1].
    destruct (Hpar _ _ Hb0) as (c0 & Hc0 & P0), (Hpar _ _ Hb1) as (c1 & Hc1 & P1).
    rewrite !list_lookup_fmap, Hc0, Hc1, Hb1. cbn.
    eexists _, _. split; [reflexivity|]. split; [reflexivity|].
    rewrite !bit_of_f32_of_bool. f_equal.
    rewrite (sum_take_S row (S t) b1 Hb1) in P1.
    rewrite Z.add_mod in P1 by lia. rewrite <- P0 in P1.
    pose proof (Z.mod_pos_bound c0 2 ltac:(lia)) as Hm0.
    assert (Hd : (c0 mod 2 = 0 \/ c0 mod 2 = 1)%Z) by lia.
    destruct (Hbit _ _ Hb1) as [-> | ->], Hd as [Hd | Hd]; rewrite Hd in P1 |- *;
      cbn in P1; rewrite P1; reflexivity.
Qed.

Lemma XORDataset_bits_from_labels_witness :
  exists ds w1 x y w',
    XORDataset_init 2 3 sample_world = (Ok ds, w1) /\
    dataset_unchanged ds w1 w1 /\
    XORDataset_getitem ds 1 w1 = (Ok (x, y), w') /\
    read_ref w1 x !! 0 = read_ref w1 y !! 0 /\
    forall t, S t < Z.to_nat 3 ->
      exists p q,
        read_ref w1 y !! t = Some p /\ read_ref w1 y !! S t = Some q /\
        read_ref w1 x !! S t = Some (f32_of_bool (xorb (bit_of p) (bit_of q))).
Proof.
  eexists _, _, _, _, _.
  split; [reflexivity|]. split; [split; reflexivity|]. split; [reflexivity|].
  exact (XORDataset_bits_from_labels 2 3 sample_world _ _ _ _ 1 _ _
           eq_refl (conj eq_refl eq_refl) eq_refl).
Defined.

(** ** The batches of a loader *)

Lemma chunks_fuel_spec {A} (size fuel : nat) (l : list A) :
  1 <= size -> length l <= fuel ->
  concat (chunks_fuel fuel size l) = l /\
  length (chunks_fuel fuel size l) = (length l + size - 1) / size /\
  forall j c, chunks_fuel fuel size l !! j = Some c ->
    1 <= length c <= size /\
    (S j < length (chunks_fuel fuel size l) -> length c = size).
Proof.
  intros Hs. revert l. induction fuel as [|fuel IH]; intros l Hl.
  - destruct l; [|cbn in Hl; lia]. cbn. split; [done|]. split; [|done].
    symmetry. apply Nat.div_small. lia.
  - destruct l as [|a l]; cbn [chunks_fuel].
    { cbn. split; [done|]. split; [|done]. symmetry. apply Nat.div_small. lia. }
    set (l0 := a :: l) in *.
    assert (Hl0 : length l0 = S (length l)) by reflexivity.
    destruct (IH (drop size l0)) as (Hc & Hn & Hj).
    { rewrite length_drop. lia. }
    split; [|split].
    + cbn [concat]. rewrite Hc. apply take_drop.
    + cbn [length]. rewrite Hn, length_drop.
      destruct (decide (length l0 <= size)) as [Hle|Hgt].
      * replace (length l0 - size + size - 1) with (size - 1) by lia.
        rewrite (Nat.div_small (size - 1)) by lia.
        apply (Nat.div_unique _ _ 1 (length l0 - 1)); lia.
      * replace (length l0 + size - 1) with ((length l0 - size + size - 1) + 1 * size) by lia.
        rewrite Nat.div_add by lia. lia.
    + intros j c Hjc. destruct j as [|j]; cbn in Hjc.
      * injection Hjc as <-. rewrite length_take. split; [lia|].
        cbn [length]. rewrite Hn, length_drop. intros Hlt.
        destruct (decide (length l0 <= size)) as [Hle|Hgt]; [|lia].
        replace (length l0 - size + size - 1) with (size - 1) in Hlt by lia.
        rewrite (Nat.div_small (size - 1)) in Hlt by lia. lia.
      * destruct (Hj j c Hjc) as [H1 H2]. split; [done|].
        cbn [length]. intros Hlt. apply H2. lia.
Qed.

Lemma chunks_spec {A} (size : nat) (l : list A) :
  1 <= size ->
  concat (chunks size l) = l /\
  length (chunks size l) = (length l + size - 1) / size /\
  forall j c, chunks size l !! j = Some c ->
    1 <= length c <= size /\ (S j < length (chunks size l) -> length c = size).
Proof. intros Hs. by apply chunks_fuel_spec. Qed.

(** The draws of [torch.randperm] take every index once. *)
Lemma pick_all_Permutation (raw : list Z) (pool : list nat) :
  length raw = length pool -> pick_all raw pool ≡ₚ pool.
Proof.
  revert pool. induction raw as [|r raw IH]; intros pool Hl.
  - destruct pool; [done|discriminate].
  - cbn [pick_all].
    assert (Hk : Z.to_nat (r mod Z.of_nat (length pool)) < length pool).
    { cbn in Hl. pose proof (Z.mod_pos_bound r (Z.of_nat (length pool)) ltac:(lia)). lia. }
    destruct (lookup_lt_is_Some_2 pool _ Hk) as [x Hx]. rewrite Hx.
    rewrite IH.
    + symmetry. by apply delete_Permutation.
    + rewrite length_delete by eauto. cbn in Hl. lia.
Qed.

(** One pass over a loader of a constructed dataset. *)
Lemma DataLoader_batches_spec (ns nb : Z) (w0 w1 : world) (ds : XORDataset)
    (dl : DataLoader) (w : world) :
  XORDataset_init ns nb w0 = (Ok ds, w1) ->
  dataset dl = ds -> 1 <= batch_size dl ->
  exists batches w',
    DataLoader_batches dl w = (Ok batches, w') /\
    heap w' = heap w /\ next_loc w' = next_loc w /\
    concat batches ≡ₚ seq 0 (Z.to_nat ns) /\
    (shuffle dl = false -> concat batches = seq 0 (Z.to_nat ns)) /\
    length batches = (Z.to_nat ns + batch_size dl - 1) / batch_size dl /\
    forall j b, batches !! j = Some b ->
      1 <= length b <= batch_size dl /\
      (S j < length batches -> length b = batch_size dl).
Proof.
  intros E Hdl Hbs.
  destruct (XORDataset_init_contents _ _ _ _ _ E) as (Hns & Hnb & Hds & _).
  set (n := Z.to_nat ns) in *. set (bs := batch_size dl) in *.
  unfold DataLoader_batches, bind, XORDataset_len, lift.
  rewrite Hdl. fold bs. rewrite Hds. cbn [features ashape].
  destruct (shuffle dl).
  - unfold torch_randperm, rng_take, ret.
    set (order := pick_all _ _).
    assert (Hp : order ≡ₚ seq 0 n).
    { apply pick_all_Permutation. by rewrite length_map, !length_seq. }
    destruct (chunks_spec bs order Hbs) as (Hc & Hl & Hj).
    eexists _, _. split; [reflexivity|]. cbn [heap next_loc].
    split; [done|]. split; [done|]. split; [by rewrite Hc|].
    split; [done|]. split; [|exact Hj].
    rewrite Hl. by rewrite (Permutation_length Hp), length_seq.
  - unfold ret.
    destruct (chunks_spec bs (seq 0 n) Hbs) as (Hc & Hl & Hj).
    eexists _, _. split; [reflexivity|].
    split; [done|]. split; [done|]. split; [by rewrite Hc|].
    split; [done|]. split; [|exact Hj].
    by rewrite Hl, length_seq.
Qed.

(** Every index list of a pass is a non-empty list of valid indices. *)
Lemma batches_valid (n bs : nat) (batches : list (list nat)) :
  concat batches ≡ₚ seq 0 n ->
  (forall j b, batches !! j = Some b ->
     1 <= length b <= bs /\ (S j < length batches -> length b = bs)) ->
  Forall (valid_batch n) batches.
Proof.
  intros Hp Hj. apply Forall_forall. intros b Hb.
  apply list_elem_of_lookup in Hb as [j Hjb]. split; [|split].
  - destruct (Hj j b Hjb) as [Hl _]. destruct b; [cbn in Hl; lia|done].
  - apply Forall_forall. intros i Hi.
    assert (Hin : i ∈ concat batches).
    { apply list_elem_of_In, in_concat. exists b.
      split; apply list_elem_of_In; [by eapply list_elem_of_lookup_2|done]. }
    rewrite Hp in Hin. apply elem_of_seq in Hin. lia.
  - apply Permutation_length in Hp. rewrite length_seq in Hp. rewrite <- Hp.
    clear -Hjb. revert j Hjb. induction batches as [|b0 rest IH]; intros j Hjb; [done|].
    cbn [concat]. rewrite length_app. destruct j as [|j].
    + injection Hjb as ->. lia.
    + specialize (IH j Hjb). lia.
Qed.

(** X4: a loader wants a positive batch size ([ValueError] otherwise).  One
    pass over a loader of a dataset of [num_sequences >= 1] items yields index
    lists that together hold every index [0 .. num_sequences - 1] exactly
    once (in order when the loader does not shuffle); there are
    [ceil(num_sequences / batch_size)] of them, none is empty, and every one
    but the last holds exactly [batch_size] indices.  The pass writes to no
    buffer. *)
Theorem DataLoader_batches_cover (num_sequences num_bits : Z) (w0 w1 : world)
    (ds : XORDataset) (batch_size : Z) (shuffle : bool) (w : world) :
  XORDataset_init num_sequences num_bits w0 = (Ok ds, w1) ->
  ((batch_size <= 0)%Z ->
   DataLoader_init ds batch_size shuffle w = (Raise ValueError, w)) /\
  ((1 <= batch_size)%Z -> (1 <= num_sequences)%Z ->
   exists batches w',
     bind (DataLoader_init ds batch_size shuffle) DataLoader_batches w = (Ok batches, w') /\
     heap w' = heap w /\ next_loc w' = next_loc w /\
     concat batches ≡ₚ seq 0 (Z.to_nat num_sequences) /\
     (shuffle = false -> concat batches = seq 0 (Z.to_nat num_sequences)) /\
     length batches =
       (Z.to_nat num_sequences + Z.to_nat batch_size - 1) / Z.to_nat batch_size /\
     forall j b, batches !! j = Some b ->
       1 <= length b <= Z.to_nat batch_size /\
       (S j < length batches -> length b = Z.to_nat batch_size)).
Proof.
  intros E. split.
  - intros Hb. unfold DataLoader_init. by destruct (Z.leb_spec batch_size 0); [|lia].
  - intros Hb _.
    destruct (DataLoader_batches_spec _ _ _ _ _
                (mk_DataLoader ds (Z.to_nat batch_size) shuffle) w E eq_refl)
      as (batches & w' & G & Hrest); [cbn; lia|].
    exists batches, w'. split; [|exact Hrest].
    unfold bind, DataLoader_init. destruct (Z.leb_spec batch_size 0); [lia|]. exact G.
Qed.

Lemma DataLoader_batches_cover_witness :
  exists ds w1,
    XORDataset_init 5 3 sample_world = (Ok ds, w1) /\
    ((2 <= 0)%Z -> DataLoader_init ds 2 true w1 = (Raise ValueError, w1)) /\
    ((1 <= 2)%Z -> (1 <= 5)%Z ->
     exists batches w',
       bind (DataLoader_init ds 2 true) DataLoader_batches w1 = (Ok batches, w') /\
       heap w' = heap w1 /\ next_loc w' = next_loc w1 /\
       concat batches ≡ₚ seq 0 (Z.to_nat 5) /\
       (true = false -> concat batches = seq 0 (Z.to_nat 5)) /\
       length batches = (Z.to_nat 5 + Z.to_nat 2 - 1) / Z.to_nat 2 /\
       forall j b, batches !! j = Some b ->
         1 <= length b <= Z.to_nat 2 /\
         (S j < length batches -> length b = Z.to_nat 2)).
Proof.
  eexists _, _. split; [reflexivity|].
  exact (DataLoader_batches_cover 5 3 sample_world _ _ 2 true _ eq_refl).
Defined.

Example DataLoader_batches_sample :
  fst (bind (XORDataset_init 5 3)
            (fun ds => bind (DataLoader_init ds 2 true) DataLoader_batches) sample_world)
    = Ok [[2; 1]; [0; 4]; [3]] /\
  fst (bind (XORDataset_init 5 3)
            (fun ds => bind (DataLoader_init ds 2 false) DataLoader_batches) sample_world)
    = Ok [[0; 1]; [2; 3]; [4]].
Proof. split; vm_compute; reflexivity. Qed.

(** ** One batch of a loader *)

Lemma map_M_pure {A B} (f : A -> M B) (g : A -> B) (l : list A) (w : world) :
  (forall a, a ∈ l -> f a w = (Ok (g a), w)) ->
  map_M f l w = (Ok (map g l), w).
Proof.
  induction l as [|a l IH]; intros Hf; [reflexivity|].
  cbn [map_M map]. unfold bind. rewrite Hf by (left).
  rewrite IH by (intros b Hb; apply Hf; by right). reflexivity.
Qed.

(** Stacking tensors of one shape: a new buffer with their values in order. *)
Lemma torch_stack_spec (ts : list array_ref) (s : list nat) (w : world) :
  ts <> [] -> Forall (fun r => ashape r = s) ts ->
  torch_stack ts w =
    (Ok (mk_ref (next_loc w) 0 (length ts :: s)),
     mk_world (<[next_loc w := concat (map (read_ref w) ts)]> (heap w)) (S (next_loc w))
              (np_rng w) (torch_rng w)).
Proof.
  intros Hne Hs. destruct ts as [|t rest]; [done|].
  apply Forall_cons in Hs as [Ht Hrest]. unfold torch_stack.
  assert (Hall : forallb (fun r => bool_decide (ashape r = ashape t)) rest = true).
  { apply forallb_forall. intros r Hr. apply bool_decide_eq_true.
    rewrite Forall_forall in Hrest. rewrite Ht. apply Hrest. by apply list_elem_of_In. }
  rewrite Hall. unfold bind.
  rewrite (map_M_pure get_value (value_of w)) by done.
  unfold alloc. cbn [shape data]. rewrite Ht, map_map. reflexivity.
Qed.

(** The float32 arrays of a dataset have fewer than [2^63] bytes. *)
Lemma dataset_bytes (ns nb : Z) (w0 w1 : world) (ds : XORDataset) :
  XORDataset_init ns nb w0 = (Ok ds, w1) ->
  (4 * (Z.of_nat (Z.to_nat ns) * Z.of_nat (Z.to_nat nb)) < 2 ^ 63)%Z.
Proof.
  intros E. apply XORDataset_init_size, np_empty_ok_pair in E as (Hns & Hnb & Hsz).
  rewrite !Z2Nat.id by lia.
  destruct (Z.eqb_spec ns 0), (Z.eqb_spec nb 0); nia.
Qed.

(** The stored arrays of a dataset keep their size. *)
Lemma dataset_lengths (ns nb : Z) (w0 w1 : world) (ds : XORDataset) (w : world) :
  XORDataset_init ns nb w0 = (Ok ds, w1) -> dataset_unchanged ds w1 w ->
  length (read_ref w (features ds)) = Z.to_nat ns * Z.to_nat nb /\
  length (read_ref w (labels ds)) = Z.to_nat ns * Z.to_nat nb.
Proof.
  intros E [Uf Ul].
  destruct (XORDataset_init_contents _ _ _ _ _ E) as (_ & _ & Hds & _ & _ & _ & L0 & L1).
  injection Uf as ->. injection Ul as ->. rewrite Hds.
  unfold read_ref. cbn [features labels base offset ashape].
  rewrite !drop_0, !length_take, L0, L1. unfold numel. cbn. lia.
Qed.

Lemma read_ref_own_buffer (w : world) (l : nat) (s : list nat) (v : list float32) :
  heap w !! l = Some v -> length v = numel s -> read_ref w (mk_ref l 0 s) = v.
Proof.
  intros Hh Hl. unfold read_ref, buffer. cbn [base offset ashape].
  rewrite Hh. cbn. rewrite drop_0. apply take_ge. lia.
Qed.

(** The batch for the indices [idxs]: two new tensors, the items' features
    stacked and the items' labels stacked. *)
Lemma DataLoader_fetch_spec (ns nb : Z) (w0 w1 : world) (ds : XORDataset) (w : world)
    (dl : DataLoader) (idxs : list nat) :
  XORDataset_init ns nb w0 = (Ok ds, w1) -> dataset_unchanged ds w1 w ->
  next_loc w1 <= next_loc w ->
  dataset dl = ds -> idxs <> [] -> Forall (fun i => i < Z.to_nat ns) idxs ->
  let m := Z.to_nat nb in
  let F := read_ref w (features ds) in
  let L := read_ref w (labels ds) in
  DataLoader_fetch dl idxs w =
    (Ok (mk_ref (next_loc w) 0 [length idxs; m; 1],
         mk_ref (S (next_loc w)) 0 [length idxs; m; 1]),
     mk_world (<[S (next_loc w) := concat (map (nd_row m L) idxs)]>
                 (<[next_loc w := concat (map (nd_row m F) idxs)]> (heap w)))
              (S (S (next_loc w))) (np_rng w) (torch_rng w)) /\
  length (concat (map (nd_row m F) idxs)) = length idxs * m /\
  length (concat (map (nd_row m L) idxs)) = length idxs * m.
Proof.
  intros E U Hnl Hdl Hne Hidx m F L.
  destruct (dataset_lengths _ _ _ _ _ _ E U) as [LF LL]. fold F L m in LF, LL.
  destruct (XORDataset_init_contents _ _ _ _ _ E) as (Hns & Hnb & Hds & Hn1 & _).
  set (n := Z.to_nat ns) in *.
  set (xf := fun i : nat => mk_ref (base (features ds)) (0 + i * numel [m; 1]) [m; 1]).
  set (xl := fun i : nat => mk_ref (base (labels ds)) (0 + i * numel [m; 1]) [m; 1]).
  assert (Hget : forall i w2, i ∈ idxs ->
            XORDataset_getitem ds (Z.of_nat i) w2 = (Ok (xf i, xl i), w2)).
  { intros i w2 Hi. rewrite Forall_forall in Hidx. specialize (Hidx i Hi).
    destruct (getitem_ok _ _ _ _ _ (Z.of_nat i) w2 E) as [_ G]; [lia|].
    rewrite G. unfold xf, xl. rewrite Z.mod_small by lia. by rewrite Nat2Z.id. }
  assert (Hrow : forall (l : nat) i w2, i ∈ idxs ->
            read_ref w2 (mk_ref l (0 + i * numel [m; 1]) [m; 1]) =
            nd_row m (read_ref w2 (mk_ref l 0 [n; m; 1])) i).
  { intros l i w2 Hi. apply read_row. rewrite Forall_forall in Hidx. by apply Hidx. }
  assert (Hlen : forall (X : list float32), length X = n * m ->
            Forall (fun r => length r = m) (map (nd_row m X) idxs)).
  { intros X HX. apply Forall_forall. intros r Hr.
    apply list_elem_of_In, in_map_iff in Hr as (i & <- & Hi).
    apply length_nd_row. rewrite Forall_forall in Hidx.
    apply list_elem_of_In in Hi. specialize (Hidx i Hi). nia. }
  assert (HF : features ds = mk_ref (base (features ds)) 0 [n; m; 1]) by by rewrite Hds.
  assert (HL : labels ds = mk_ref (base (labels ds)) 0 [n; m; 1]) by by rewrite Hds.
  split; [|split].
  - unfold DataLoader_fetch, bind. rewrite Hdl.
    rewrite (map_M_pure _ (fun i => (xf i, xl i))) by (intros i Hi; by apply Hget).
    unfold default_collate, bind. rewrite !map_map. cbn [fst snd].
    rewrite (torch_stack_spec _ [m; 1]).
    2: { by destruct idxs. }
    2: { apply Forall_forall. intros r Hr.
         by apply list_elem_of_In, in_map_iff in Hr as (i & <- & Hi). }
    rewrite (torch_stack_spec _ [m; 1]).
    2: { by destruct idxs. }
    2: { apply Forall_forall. intros r Hr.
         by apply list_elem_of_In, in_map_iff in Hr as (i & <- & Hi). }
    cbn [next_loc heap np_rng torch_rng]. rewrite !length_map, !map_map.
    assert (H1 : map (fun i => read_ref w (xf i)) idxs = map (nd_row m F) idxs).
    { apply map_ext_in. intros i Hi. apply list_elem_of_In in Hi.
      unfold xf. rewrite Hrow by done. unfold F. by rewrite HF at 2. }
    assert (H2 : forall w2, heap w2 !! base (labels ds) = heap w !! base (labels ds) ->
               map (fun i => read_ref w2 (xl i)) idxs = map (nd_row m L) idxs).
    { intros w2 Hw2. apply map_ext_in. intros i Hi. apply list_elem_of_In in Hi.
      unfold xl. rewrite Hrow by done. f_equal. unfold L. rewrite HL at 2.
      unfold read_ref, buffer. cbn [base offset ashape]. by rewrite Hw2. }
    rewrite H1, H2; [reflexivity|].
    cbn [heap]. apply lookup_insert_ne. rewrite Hds. cbn [labels base]. lia.
  - rewrite (length_concat_rows m); [by rewrite length_map|]. by apply Hlen.
  - rewrite (length_concat_rows m); [by rewrite length_map|]. by apply Hlen.
Qed.

(** X5: for a non-empty list of valid indices, the loader returns a batch of
    two new tensors of shape [[len(idxs), num_bits, 1]], each in a buffer of
    its own that holds it entirely; sequence [j] of the batch holds a copy of
    the dataset's item at the [j]-th index: its features in [inputs], its
    labels in [targets].  With no more indices than the dataset has
    sequences, the two tensors have fewer than [2^63] bytes each. *)
Theorem DataLoader_fetch_copies_items (num_sequences num_bits : Z) (w0 w1 : world)
    (ds : XORDataset) (w : world) (dl : DataLoader) (idxs : list nat) :
  XORDataset_init num_sequences num_bits w0 = (Ok ds, w1) ->
  dataset_unchanged ds w1 w -> next_loc w1 <= next_loc w ->
  dataset dl = ds -> idxs <> [] -> Forall (fun i => i < Z.to_nat num_sequences) idxs ->
  exists inputs targets w',
    DataLoader_fetch dl idxs w = (Ok (inputs, targets), w') /\
    batch_windows w' inputs targets (length idxs) (Z.to_nat num_bits) /\
    (length idxs <= Z.to_nat num_sequences ->
     is_batch w' inputs targets (length idxs) (Z.to_nat num_bits)) /\
    next_loc w <= base inputs /\ next_loc w <= base targets /\
    base inputs <> base targets /\
    forall j i t, idxs !! j = Some i -> t < Z.to_nat num_bits ->
      tensor_at w' inputs j t =
        read_ref w (features ds) !! (i * Z.to_nat num_bits + t) /\
      tensor_at w' targets j t =
        read_ref w (labels ds) !! (i * Z.to_nat num_bits + t).
Proof.
  intros E U Hnl Hdl Hne Hidx.
  pose proof (dataset_bytes _ _ _ _ _ E) as Hbytes.
  destruct (DataLoader_fetch_spec _ _ _ _ _ _ dl idxs E U Hnl Hdl Hne Hidx) as (G & LF & LL).
  destruct (dataset_lengths _ _ _ _ _ _ E U) as [HF HL].
  set (m := Z.to_nat num_bits) in *. set (n := Z.to_nat num_sequences) in *.
  eexists _, _, _. split; [exact G|].
  set (w' := mk_world _ _ _ _).
  assert (Bi : buffer w' (next_loc w) = concat (map (nd_row m (read_ref w (features ds))) idxs)).
  { unfold buffer, w'. cbn [heap]. by rewrite lookup_insert_ne, lookup_insert_eq by lia. }
  assert (Bt : buffer w' (S (next_loc w)) = concat (map (nd_row m (read_ref w (labels ds))) idxs)).
  { unfold buffer, w'. cbn [heap]. by rewrite lookup_insert_eq. }
  assert (Hwin : batch_windows w' (mk_ref (next_loc w) 0 [length idxs; m; 1])
                    (mk_ref (S (next_loc w)) 0 [length idxs; m; 1]) (length idxs) m).
  { unfold batch_windows. cbn [ashape base offset]. rewrite Bi, Bt, LF, LL.
    split; [done|]. split; [done|]. lia. }
  split; [exact Hwin|].
  split; [|split; [|split; [|split]]]; cbn [base]; try lia.
  - intros Hlen. destruct Hwin as (W1 & W2 & W3 & W4).
    unfold is_batch. do 4 (split; [done|]). fold n m in Hbytes. nia.
  - intros j i t Hj Ht.
    assert (Hjl : j < length idxs) by by eapply lookup_lt_Some.
    assert (Hin : i < n).
    { rewrite Forall_forall in Hidx. apply Hidx. by eapply list_elem_of_lookup_2. }
    assert (Hrows : forall X : list float32, length X = n * m ->
              concat (map (nd_row m X) idxs) !! (j * m + t) = X !! (i * m + t)).
    { intros X HX. rewrite (lookup_concat_rows m).
      - change (map ?f ?l) with (f <$> l). rewrite list_lookup_fmap, Hj. cbn.
        by apply lookup_nd_row.
      - apply Forall_forall. intros r Hr.
        apply list_elem_of_In, in_map_iff in Hr as (i' & <- & Hi').
        apply length_nd_row. rewrite Forall_forall in Hidx.
        apply list_elem_of_In in Hi'. specialize (Hidx i' Hi'). nia.
      - done. }
    rewrite !(tensor_at_buffer w' _ (length idxs) m) by done. cbn [base offset].
    rewrite Bi, Bt, !Nat.add_0_l. split; by apply Hrows.
Qed.

Lemma DataLoader_fetch_copies_items_witness :
  exists ds w1,
    XORDataset_init 3 4 sample_world = (Ok ds, w1) /\
    dataset_unchanged ds w1 w1 /\ next_loc w1 <= next_loc w1 /\
    dataset (mk_DataLoader ds 2 false) = ds /\ [2; 0] <> [] /\
    Forall (fun i => i < Z.to_nat 3) [2; 0] /\
    exists inputs targets w',
      DataLoader_fetch (mk_DataLoader ds 2 false) [2; 0] w1 = (Ok (inputs, targets), w') /\
      batch_windows w' inputs targets (length [2; 0]) (Z.to_nat 4) /\
      (length [2; 0] <= Z.to_nat 3 ->
       is_batch w' inputs targets (length [2; 0]) (Z.to_nat 4)) /\
      next_loc w1 <= base inputs /\ next_loc w1 <= base targets /\
      base inputs <> base targets /\
      forall j i t, [2; 0] !! j = Some i -> t < Z.to_nat 4 ->
        tensor_at w' inputs j t = read_ref w1 (features ds) !! (i * Z.to_nat 4 + t) /\
        tensor_at w' targets j t = read_ref w1 (labels ds) !! (i * Z.to_nat 4 + t).
Proof.
  eexists _, _.
  split; [reflexivity|]. split; [split; reflexivity|]. split; [lia|].
  split; [reflexivity|]. split; [discriminate|].
  split; [repeat constructor; cbn; lia|].
  eapply (DataLoader_fetch_copies_items 3 4 sample_world _ _ _ (mk_DataLoader _ 2 false) [2; 0]);
    [reflexivity|split; reflexivity|lia|reflexivity|discriminate|repeat constructor; cbn; lia].
Defined.

(** ** What adjust_lengths keeps *)

(** [x[i, li:, ] = 0] leaves alone every cell outside the tail of row [i]. *)
Lemma zero_from_keeps (x : array_ref) (B T i : nat) (li : Z) (w : world) (l c : nat) :
  ashape x = [B; T; 1] -> (1 <= li <= Z.of_nat T)%Z ->
  l <> base x \/ c < offset x + (i * T + Z.to_nat li) \/ offset x + (i * T + T) <= c ->
  buffer (snd (zero_from x i li w)) l !! c = buffer w l !! c.
Proof.
  intros Hs Hli Hc. unfold zero_from. rewrite Hs.
  destruct (B <=? i); [reflexivity|].
  rewrite slice_start_in_range by done. rewrite buffer_fill.
  destruct (decide (l = base x)) as [->|]; [|done].
  destruct Hc as [Hc|[Hc|Hc]]; [done| |].
  - apply list_lookup_inserts_lt. unfold numel. cbn. lia.
  - apply list_lookup_inserts_ge. rewrite length_replicate. unfold numel. cbn. lia.
Qed.

Lemma for_each_keeps {A B} (f : A -> M unit) (phi : world -> B) (l : list A) (w : world) :
  (forall a w, a ∈ l -> phi (snd (f a w)) = phi w) ->
  phi (snd (for_each f l w)) = phi w.
Proof.
  revert w. induction l as [|a l IH]; intros w Hf; [reflexivity|].
  cbn [for_each]. unfold bind.
  pose proof (Hf a w ltac:(left)) as Ha.
  destruct (f a w) as [[[]|e] w1]; cbn in Ha |- *; [|done].
  rewrite IH; [done|]. intros b w2 Hb. apply Hf. by right.
Qed.

(** The chopping loop leaves alone every cell that is in no tail. *)
Lemma chop_loop_keeps (inputs targets : array_ref) (B T : nat) (lengths : list Z)
    (idxs : list nat) (w : world) (l c : nat) :
  ashape inputs = [B; T; 1] -> ashape targets = [B; T; 1] ->
  Forall (fun l => (1 <= l <= Z.of_nat T)%Z) lengths ->
  (forall i li, lengths !! i = Some li ->
     (l <> base inputs \/ c < offset inputs + (i * T + Z.to_nat li) \/
      offset inputs + (i * T + T) <= c) /\
     (l <> base targets \/ c < offset targets + (i * T + Z.to_nat li) \/
      offset targets + (i * T + T) <= c)) ->
  buffer (snd (for_each (chop inputs targets lengths) idxs w)) l !! c = buffer w l !! c.
Proof.
  intros Hsi Hst Hr Hc.
  apply (for_each_keeps _ (fun w => buffer w l !! c)). intros i w2 _.
  unfold chop, bind, lift, getitem.
  destruct (lengths !! i) as [li|] eqn:Hi; [|reflexivity].
  assert (Hli : (1 <= li <= Z.of_nat T)%Z).
  { rewrite Forall_forall in Hr. apply Hr. by eapply list_elem_of_lookup_2. }
  destruct (Hc i li Hi) as [Ci Ct].
  pose proof (zero_from_keeps inputs B T i li w2 l c Hsi Hli Ci) as K1.
  destruct (zero_from inputs i li w2) as [[[]|e] w3]; cbn in K1 |- *; [|done].
  pose proof (zero_from_keeps targets B T i li w3 l c Hst Hli Ct) as K2.
  by rewrite K2.
Qed.

(** The run of [adjust_lengths] with varying lengths: the draw, then the
    chopping loop on the sorted lengths. *)
Lemma adjust_lengths_vary_unfold (w : world) (inputs targets : array_ref) (B T : nat) :
  is_batch w inputs targets B T -> 1 <= B -> 2 <= T ->
  exists wr lengths,
    heap wr = heap w /\ next_loc wr = next_loc w /\ torch_rng wr = torch_rng w /\
    length lengths = B /\
    head lengths = Some (Z.of_nat T) /\
    non_increasing lengths /\
    Forall (fun l => (1 <= l <= Z.of_nat T)%Z) lengths /\
    adjust_lengths true inputs targets w =
      bind (for_each (chop inputs targets lengths) (seq 0 (length lengths)))
           (fun _ => ret lengths) wr.
Proof.
  intros (Hsi & Hst & Hbi & Hbt & Hsz) HB HT.
  destruct (np_random_randint_1d 1 (Z.of_nat T) B w HB)
    as (a & wr & Er & _ & Hla & Hra & Hh & Hn); [nia|lia|lia|nia|].
  destruct (data a) as [|d0 drawn] eqn:Ea; [cbn in Hla; lia|].
  assert (Hdrawn : Forall (fun l => (1 <= l <= Z.of_nat T)%Z) drawn).
  { apply Forall_cons in Hra as [_ Hra]. eapply Forall_impl; [exact Hra|].
    cbn. intros; lia. }
  destruct (sorted_lengths_spec (Z.of_nat T) drawn Hdrawn ltac:(lia))
    as (Hlen & Hsorted & Hhead & Hrange).
  set (lengths := map Z.opp (np_sort (map Z.opp (Z.of_nat T :: drawn)))) in *.
  exists wr, lengths.
  split; [done|]. split; [done|]. split.
  { unfold np_random_randint in Er.
    destruct (negb _); [discriminate|].
    destruct (numel _ =? 0); [by injection Er as _ <-|].
    destruct (_ || _ || _); [discriminate|].
    unfold rng_take in Er. by injection Er as _ <-. }
  split; [cbn in Hla; lia|]. do 3 (split; [done|]).
  unfold adjust_lengths, bind at 1 2 3 4, lift, size_at. rewrite Hsi.
  cbn [lookup list_lookup negb]. rewrite Er, Ea. cbn [setitem0]. reflexivity.
Qed.

(** [adjust_lengths] with varying lengths on a batch whose tensors lie in
    two buffers: what it returns and what it keeps. *)
Lemma adjust_lengths_vary_keeps (w : world) (inputs targets : array_ref)
    (B max_bits : nat) :
  is_batch w inputs targets B max_bits -> 1 <= B -> 2 <= max_bits ->
  base inputs <> base targets ->
  exists lengths w',
    adjust_lengths true inputs targets w = (Ok lengths, w') /\
    valid_lengths B max_bits lengths /\
    is_batch w' inputs targets B max_bits /\
    (forall i li k, lengths !! i = Some li -> (Z.of_nat k < li)%Z ->
       tensor_at w' inputs i k = tensor_at w inputs i k /\
       tensor_at w' targets i k = tensor_at w targets i k) /\
    (forall k, k < max_bits ->
       tensor_at w' inputs 0 k = tensor_at w inputs 0 k /\
       tensor_at w' targets 0 k = tensor_at w targets 0 k) /\
    (forall l, l <> base inputs -> l <> base targets -> heap w' !! l = heap w !! l).
Proof.
  intros Hb HB HT Hne.
  destruct (adjust_lengths_vary_unfold w inputs targets B max_bits Hb HB HT)
    as (wr & lengths & Hh & Hn & _ & Hlen & Hhead & Hsort & Hr & E).
  destruct Hb as (Hsi & Hst & Hbi & Hbt & Hsz).
  assert (Hbuf : forall l, buffer wr l = buffer w l)
    by (intros l; unfold buffer; by rewrite Hh).
  destruct (chop_loop inputs targets B max_bits lengths (seq 0 (length lengths))
              Hsi Hst Hlen Hr) with (w := wr) as (w' & El & Zl & _).
  { apply Forall_forall. intros i Hi. apply elem_of_seq in Hi. lia. }
  { by rewrite Hbuf. }
  { by rewrite Hbuf. }
  assert (Hkeep : forall l c,
            (forall i li, lengths !! i = Some li ->
               (l <> base inputs \/ c < offset inputs + (i * max_bits + Z.to_nat li) \/
                offset inputs + (i * max_bits + max_bits) <= c) /\
               (l <> base targets \/ c < offset targets + (i * max_bits + Z.to_nat li) \/
                offset targets + (i * max_bits + max_bits) <= c)) ->
            buffer w' l !! c = buffer w l !! c).
  { intros l c Hc.
    pose proof (chop_loop_keeps inputs targets B max_bits lengths (seq 0 (length lengths))
                  wr l c Hsi Hst Hr Hc) as K.
    rewrite El in K. cbn in K. by rewrite K, Hbuf. }
  assert (Hpre : forall i li k, lengths !! i = Some li -> (Z.of_nat k < li)%Z ->
            tensor_at w' inputs i k = tensor_at w inputs i k /\
            tensor_at w' targets i k = tensor_at w targets i k).
  { intros i li k Hi Hk.
    assert (HiB : i < B) by (apply lookup_lt_Some in Hi; lia).
    assert (Hli : (1 <= li <= Z.of_nat max_bits)%Z).
    { rewrite Forall_forall in Hr. apply Hr. by eapply list_elem_of_lookup_2. }
    rewrite !(tensor_at_buffer _ _ B max_bits) by (done || lia).
    split; apply Hkeep; intros i' li' Hi'.
    - split; [|by left].
      right. destruct (decide (i' = i)) as [->|Hii].
      + rewrite Hi in Hi'. injection Hi' as <-. left. lia.
      + assert (Hl' : (1 <= li' <= Z.of_nat max_bits)%Z).
        { rewrite Forall_forall in Hr. apply Hr. by eapply list_elem_of_lookup_2. }
        destruct (decide (i' < i)); [right; nia|left; nia].
    - split; [left; congruence|].
      right. destruct (decide (i' = i)) as [->|Hii].
      + rewrite Hi in Hi'. injection Hi' as <-. left. lia.
      + assert (Hl' : (1 <= li' <= Z.of_nat max_bits)%Z).
        { rewrite Forall_forall in Hr. apply Hr. by eapply list_elem_of_lookup_2. }
        destruct (decide (i' < i)); [right; nia|left; nia]. }
  exists lengths, w'. split; [|split; [|split; [|split; [exact Hpre|split]]]].
  - rewrite E. unfold bind. by rewrite El.
  - by unfold valid_lengths.
  - destruct Zl as (_ & _ & HL & _). unfold is_batch. rewrite !HL, !Hbuf. auto 10.
  - intros k Hk. destruct lengths as [|l0 rest]; [discriminate|].
    injection Hhead as ->. apply (Hpre 0 (Z.of_nat max_bits) k); [done|lia].
  - intros l Hl1 Hl2. destruct Zl as (_ & F & _). rewrite F, Hh; [done|].
    intros Hin. apply elem_of_cons in Hin as [->|Hin]; [done|].
    apply list_elem_of_singleton in Hin. done.
Qed.

(** X6: [adjust_lengths] with varying lengths changes nothing before the
    new length of a sequence: [inputs[i, k]] and [targets[i, k]] are after the
    call what they were before it at every position [k < lengths[i]]; the
    first sequence, whose length is the whole sequence dimension, is kept
    entirely; and no buffer but those of [inputs] and [targets] is
    written. *)
Theorem adjust_lengths_keeps_prefix (w : world) (inputs targets : array_ref)
    (B max_bits : nat) :
  is_batch w inputs targets B max_bits -> 1 <= B -> 2 <= max_bits ->
  base inputs <> base targets ->
  exists lengths w',
    adjust_lengths true inputs targets w = (Ok lengths, w') /\
    (forall i li k, lengths !! i = Some li -> (Z.of_nat k < li)%Z ->
       tensor_at w' inputs i k = tensor_at w inputs i k /\
       tensor_at w' targets i k = tensor_at w targets i k) /\
    (forall k, k < max_bits ->
       tensor_at w' inputs 0 k = tensor_at w inputs 0 k /\
       tensor_at w' targets 0 k = tensor_at w targets 0 k) /\
    (forall l, l <> base inputs -> l <> base targets -> heap w' !! l = heap w !! l).
Proof.
  intros Hb HB HT Hne.
  destruct (adjust_lengths_vary_keeps w inputs targets B max_bits Hb HB HT Hne)
    as (lengths & w' & E & _ & _ & Hrest).
  by exists lengths, w'.
Qed.

Lemma adjust_lengths_keeps_prefix_witness :
  is_batch sample_batch_world sample_inputs sample_targets 2 3 /\ 1 <= 2 /\ 2 <= 3 /\
  base sample_inputs <> base sample_targets /\
  exists lengths w',
    adjust_lengths true sample_inputs sample_targets sample_batch_world = (Ok lengths, w') /\
    (forall i li k, lengths !! i = Some li -> (Z.of_nat k < li)%Z ->
       tensor_at w' sample_inputs i k = tensor_at sample_batch_world sample_inputs i k /\
       tensor_at w' sample_targets i k = tensor_at sample_batch_world sample_targets i k) /\
    (forall k, k < 3 ->
       tensor_at w' sample_inputs 0 k = tensor_at sample_batch_world sample_inputs 0 k /\
       tensor_at w' sample_targets 0 k = tensor_at sample_batch_world sample_targets 0 k) /\
    (forall l, l <> base sample_inputs -> l <> base sample_targets ->
       heap w' !! l = heap sample_batch_world !! l).
Proof.
  assert (H : is_batch sample_batch_world sample_inputs sample_targets 2 3).
  { unfold is_batch. vm_compute. repeat split; lia. }
  split; [exact H|]. split; [lia|]. split; [lia|]. split; [discriminate|].
  apply (adjust_lengths_keeps_prefix sample_batch_world sample_inputs sample_targets 2 3 H);
    [lia|lia|discriminate].
Defined.

(** ** The length of the validation sequences *)

Local Open Scope Z_scope.

(** X7: for a sequence length from 0 up to (not including) [2^51], the value
    [int(max_bits * 1.5)] that [evaluate] computes through Python's floats is
    exactly the integer [floor(3 * max_bits / 2)]: the call of [evaluate] is
    [XORDataset(num_sequences=5000, num_bits=floor(3 * max_bits / 2))], and a
    validation dataset that it constructs has 5000 sequences of exactly that
    many bits. *)
Theorem evaluate_num_bits_exact (max_bits : Z) (w : world) :
  0 <= max_bits < 2 ^ 51 ->
  evaluate_num_bits max_bits = Ok (3 * max_bits / 2) /\
  evaluate_dataset max_bits w = XORDataset_init 5000 (3 * max_bits / 2) w /\
  forall ds w',
    evaluate_dataset max_bits w = (Ok ds, w') ->
    num_bits ds = 3 * max_bits / 2 /\
    ashape (features ds) = [5000%nat; Z.to_nat (3 * max_bits / 2); 1%nat] /\
    ashape (labels ds) = [5000%nat; Z.to_nat (3 * max_bits / 2); 1%nat].
Proof.
  intros Hm.
  pose proof (evaluate_num_bits_floor max_bits Hm) as Hnb.
  assert (Hds : evaluate_dataset max_bits w = XORDataset_init 5000 (3 * max_bits / 2) w).
  { unfold evaluate_dataset, bind, lift. by rewrite Hnb. }
  split; [exact Hnb|]. split; [exact Hds|].
  intros ds w' E. rewrite Hds in E.
  pose proof (XORDataset_init_size _ _ _ _ _ E) as Hok.
  destruct (XORDataset_init_ok 5000 (3 * max_bits / 2) w Hok) as (b & l & w1 & E1 & _).
  rewrite E1 in E. injection E as <- _. cbn. auto.
Qed.

Lemma evaluate_num_bits_exact_witness :
  0 <= 51 < 2 ^ 51 /\
  evaluate_num_bits 51 = Ok (3 * 51 / 2) /\
  evaluate_dataset 51 sample_world = XORDataset_init 5000 (3 * 51 / 2) sample_world /\
  forall ds w',
    evaluate_dataset 51 sample_world = (Ok ds, w') ->
    num_bits ds = 3 * 51 / 2 /\
    ashape (features ds) = [5000%nat; Z.to_nat (3 * 51 / 2); 1%nat] /\
    ashape (labels ds) = [5000%nat; Z.to_nat (3 * 51 / 2); 1%nat].
Proof.
  assert (H : 0 <= 51 < 2 ^ 51) by (change (2 ^ 51) with 2251799813685248; lia).
  split; [exact H|]. apply (evaluate_num_bits_exact 51 sample_world H).
Defined.

(** Past the exact range the float product rounds: the value is no longer
    the floor of one and a half times the length. *)
Example evaluate_num_bits_rounds :
  evaluate_num_bits (2 ^ 52 + 1) = Ok (3 * (2 ^ 52 + 1) / 2 + 1).
Proof. vm_compute. reflexivity. Qed.

Local Close Scope Z_scope.

(** ** What the model's output depends on *)

Lemma feature_at_lookup (T : nat) (l : list float32) (b t : nat) :
  feature_at T 1 l b t = match l !! (b * T + t) with Some a => [a] | None => [] end.
Proof.
  unfold feature_at. rewrite Nat.mul_1_r.
  destruct (l !! (b * T + t)) as [a|] eqn:E.
  - rewrite <- (take_drop_middle l _ a E) at 1.
    rewrite drop_app_length'; [reflexivity|].
    rewrite length_take. apply lookup_lt_Some in E. lia.
  - apply lookup_ge_None in E. by rewrite drop_ge by lia.
Qed.

(** The padded output of the recurrent layer at [(b, t)] reads the inputs of
    sequence [b] up to step [t], and nothing when [t] is beyond the length. *)
Lemma unpacked_at_ext `{FloatOps} (r : RNNLayer) (x1 x2 : ndarray float32) (lengths : list Z)
    (B T b t : nat) :
  shape x1 = [B; T; 1] -> shape x2 = [B; T; 1] ->
  (forall t', t' <= t -> (Z.of_nat t' < default 0 (lengths !! b))%Z ->
     data x1 !! (b * T + t') = data x2 !! (b * T + t')) ->
  unpacked_at r x1 lengths b t = unpacked_at r x2 lengths b t.
Proof.
  intros H1 H2 Hx. unfold unpacked_at.
  destruct (Z.ltb_spec (Z.of_nat t) (default 0%Z (lengths !! b))) as [Hlt|]; [|done].
  f_equal. unfold sequence_prefix. rewrite H1, H2.
  apply map_ext_in. intros t' Ht'. apply in_seq in Ht'.
  assert (Hn : numel [1] = 1) by reflexivity. rewrite Hn.
  rewrite !feature_at_lookup. rewrite Hx by lia. reflexivity.
Qed.

(** Batches that agree within the lengths: both runs return, with logits and
    predictions of one shape and one content. *)
Lemma forward_pair_ext `{FloatOps} (self : RNN) (inputs1 inputs2 : ndarray float32)
    (lengths : list Z) (B T : nat) :
  shape inputs1 = [B; T; 1] -> length (data inputs1) = B * T ->
  shape inputs2 = [B; T; 1] -> length (data inputs2) = B * T ->
  valid_lengths B T lengths ->
  (forall b t l, lengths !! b = Some l -> (Z.of_nat t < l)%Z ->
     data inputs1 !! (b * T + t) = data inputs2 !! (b * T + t)) ->
  exists l1 p1 l2 p2,
    forward self inputs1 lengths = Ok (l1, p1) /\
    forward self inputs2 lengths = Ok (l2, p2) /\
    shape l1 = shape l2 /\ data l1 = data l2 /\
    shape p1 = shape p2 /\ data p1 = data p2.
Proof.
  intros Hs1 Hd1 Hs2 Hd2 Hv Hx.
  destruct (forward_spec self inputs1 lengths B T Hs1 Hd1 Hv)
    as (l1 & p1 & E1 & Sl1 & Dl1 & Sp1 & Dp1).
  destruct (forward_spec self inputs2 lengths B T Hs2 Hd2 Hv)
    as (l2 & p2 & E2 & Sl2 & Dl2 & Sp2 & Dp2).
  exists l1, p1, l2, p2. split; [done|]. split; [done|].
  assert (HD : data l1 = data l2).
  { rewrite Dl1, Dl2. apply flat_map_ext. intros b. apply flat_map_ext. intros t.
    f_equal. apply (unpacked_at_ext _ _ _ _ B T); [done..|].
    intros t' _ Hlt. destruct (lengths !! b) as [l|] eqn:Hb; [|cbn in Hlt; lia].
    by apply (Hx b t' l). }
  split; [congruence|]. split; [done|]. split; congruence.
Qed.

(** X8: the output of [RNN.forward] does not depend on what the input batch
    holds beyond the lengths: two batches of one shape that agree at every
    position [t < lengths[b]] of every sequence [b] give the same logits and
    the same predictions. *)
Theorem forward_ignores_padding `{FloatOps} (self : RNN) (inputs1 inputs2 : ndarray float32)
    (lengths : list Z) (B T : nat) :
  shape inputs1 = [B; T; 1] -> length (data inputs1) = B * T ->
  shape inputs2 = [B; T; 1] -> length (data inputs2) = B * T ->
  valid_lengths B T lengths ->
  (forall b t l, lengths !! b = Some l -> (Z.of_nat t < l)%Z ->
     data inputs1 !! (b * T + t) = data inputs2 !! (b * T + t)) ->
  forward self inputs1 lengths = forward self inputs2 lengths /\
  exists out, forward self inputs1 lengths = Ok out.
Proof.
  intros Hs1 Hd1 Hs2 Hd2 Hv Hx.
  destruct (forward_pair_ext self inputs1 inputs2 lengths B T Hs1 Hd1 Hs2 Hd2 Hv Hx)
    as (l1 & p1 & l2 & p2 & E1 & E2 & Sl & Dl & Sp & Dp).
  split; [|by eexists].
  rewrite E1, E2.
  destruct l1 as [sl1 dl1], l2 as [sl2 dl2], p1 as [sp1 dp1], p2 as [sp2 dp2].
  cbn in Sl, Dl, Sp, Dp. by subst.
Qed.

Lemma forward_ignores_padding_witness :
  shape sample_batch = [2; 3; 1] /\ length (data sample_batch) = 2 * 3 /\
  shape sample_batch_chopped = [2; 3; 1] /\ length (data sample_batch_chopped) = 2 * 3 /\
  valid_lengths 2 3 [3; 1]%Z /\
  (forall b t l, [3; 1]%Z !! b = Some l -> (Z.of_nat t < l)%Z ->
     data sample_batch !! (b * 3 + t) = data sample_batch_chopped !! (b * 3 + t)) /\
  @forward sample_ops (RNN_of_flat 2 sample_theta) sample_batch [3; 1]%Z =
    @forward sample_ops (RNN_of_flat 2 sample_theta) sample_batch_chopped [3; 1]%Z /\
  exists out,
    @forward sample_ops (RNN_of_flat 2 sample_theta) sample_batch [3; 1]%Z = Ok out.
Proof.
  assert (Hv : valid_lengths 2 3 [3; 1]%Z).
  { split; [reflexivity|]. split; [lia|]. split.
    - apply non_increasing_of_decreasing. reflexivity.
    - repeat constructor; lia. }
  assert (Hx : forall b t l, [3; 1]%Z !! b = Some l -> (Z.of_nat t < l)%Z ->
     data sample_batch !! (b * 3 + t) = data sample_batch_chopped !! (b * 3 + t)).
  { intros [|[|b]] t l Hb Hl; cbn in Hb; [| |discriminate]; injection Hb as <-.
    - destruct t as [|[|[|t]]]; [reflexivity..|lia].
    - destruct t as [|t]; [reflexivity|lia]. }
  do 4 (split; [reflexivity|]). split; [exact Hv|]. split; [exact Hx|].
  apply (@forward_ignores_padding sample_ops (RNN_of_flat 2 sample_theta) sample_batch
           sample_batch_chopped [3; 1]%Z 2 3 eq_refl eq_refl eq_refl eq_refl Hv Hx).
Defined.

(** Element [(b, t)] of a [[B, L]] grid of single values laid out row by row. *)
Lemma lookup_flat_map_grid {A} (g : nat -> nat -> list A) (B L b t : nat) :
  (forall b t, length (g b t) = 1) -> b < B -> t < L ->
  flat_map (fun b => flat_map (g b) (seq 0 L)) (seq 0 B) !! (b * L + t) = g b t !! 0.
Proof.
  intros Hg Hb Ht.
  assert (Hrow : forall b', length (flat_map (g b') (seq 0 L)) = L).
  { intros b'. rewrite (length_flat_map_const _ _ 1) by done. rewrite length_seq. lia. }
  rewrite flat_map_concat_map.
  rewrite (lookup_concat_rows L); [| |done].
  2: { apply Forall_forall. intros r Hr.
       apply list_elem_of_In, in_map_iff in Hr as (b' & <- & _). apply Hrow. }
  change (map ?f ?l) with (f <$> l).
  rewrite list_lookup_fmap, lookup_seq_lt by done. cbn.
  rewrite flat_map_concat_map.
  replace t with (t * 1 + 0) at 1 by lia.
  rewrite (lookup_concat_rows 1); [| |lia].
  2: { apply Forall_forall. intros r Hr.
       apply list_elem_of_In, in_map_iff in Hr as (t' & <- & _). apply Hg. }
  change (map ?f ?l) with (f <$> l).
  by rewrite list_lookup_fmap, lookup_seq_lt by done.
Qed.

(** X9: the model of the notebook is causal and treats the sequences of a
    batch one by one: the logit and the prediction at step [t] of sequence
    [b] are determined by the inputs of that sequence at the steps [0..t]
    that lie within its length (beyond the length they are the same for
    every input). *)
Theorem forward_is_causal `{FloatOps} (h : nat) (theta : list float32)
    (inputs1 inputs2 : ndarray float32) (lengths : list Z) (B T b t : nat) :
  length theta = num_params h ->
  shape inputs1 = [B; T; 1] -> length (data inputs1) = B * T ->
  shape inputs2 = [B; T; 1] -> length (data inputs2) = B * T ->
  valid_lengths B T lengths ->
  b < B -> t < Z.to_nat (default 0%Z (head lengths)) ->
  (forall t', t' <= t -> (Z.of_nat t' < default 0 (lengths !! b))%Z ->
     data inputs1 !! (b * T + t') = data inputs2 !! (b * T + t')) ->
  exists logits1 predictions1 logits2 predictions2 v,
    forward (RNN_of_flat h theta) inputs1 lengths = Ok (logits1, predictions1) /\
    forward (RNN_of_flat h theta) inputs2 lengths = Ok (logits2, predictions2) /\
    data logits1 !! (b * Z.to_nat (default 0%Z (head lengths)) + t) = Some v /\
    data logits2 !! (b * Z.to_nat (default 0%Z (head lengths)) + t) = Some v /\
    data predictions1 !! (b * Z.to_nat (default 0%Z (head lengths)) + t) = Some (fsigmoid v) /\
    data predictions2 !! (b * Z.to_nat (default 0%Z (head lengths)) + t) = Some (fsigmoid v).
Proof.
  intros Hth Hs1 Hd1 Hs2 Hd2 Hv Hb Ht Hx.
  destruct (forward_spec (RNN_of_flat h theta) inputs1 lengths B T Hs1 Hd1 Hv)
    as (l1 & p1 & E1 & Sl1 & Dl1 & Sp1 & Dp1).
  destruct (forward_spec (RNN_of_flat h theta) inputs2 lengths B T Hs2 Hd2 Hv)
    as (l2 & p2 & E2 & Sl2 & Dl2 & Sp2 & Dp2).
  set (L := Z.to_nat (default 0%Z (head lengths))) in *.
  set (g := fun (x : ndarray float32) b t =>
              apply_linear (hidden_to_logits (RNN_of_flat h theta))
                (unpacked_at (rnn (RNN_of_flat h theta)) x lengths b t)).
  assert (Hg : forall x b t, length (g x b t) = 1)
    by (intros; by apply RNN_of_flat_apply_linear).
  assert (G1 : data l1 !! (b * L + t) = g inputs1 b t !! 0).
  { rewrite Dl1. by apply (lookup_flat_map_grid (g inputs1)). }
  assert (G2 : data l2 !! (b * L + t) = g inputs2 b t !! 0).
  { rewrite Dl2. by apply (lookup_flat_map_grid (g inputs2)). }
  assert (G12 : g inputs1 b t = g inputs2 b t).
  { unfold g. f_equal. by apply (unpacked_at_ext _ _ _ _ B T). }
  destruct (lookup_lt_is_Some_2 (g inputs1 b t) 0) as [v Hv0]; [rewrite Hg; lia|].
  exists l1, p1, l2, p2, v. split; [done|]. split; [done|].
  rewrite Dp1, Dp2. change (map ?f ?l) with (f <$> l).
  rewrite !list_lookup_fmap, G1, G2, <- G12, Hv0. done.
Qed.

Lemma forward_is_causal_witness :
  length sample_theta = num_params 2 /\
  shape sample_batch = [2; 3; 1] /\ length (data sample_batch) = 2 * 3 /\
  shape sample_batch_chopped = [2; 3; 1] /\ length (data sample_batch_chopped) = 2 * 3 /\
  valid_lengths 2 3 [3; 2]%Z /\ 1 < 2 /\ 0 < Z.to_nat (default 0%Z (head [3; 2]%Z)) /\
  (forall t', t' <= 0 -> (Z.of_nat t' < default 0 ([3; 2]%Z !! 1%nat))%Z ->
     data sample_batch !! (1 * 3 + t') = data sample_batch_chopped !! (1 * 3 + t')) /\
  exists logits1 predictions1 logits2 predictions2 v,
    @forward sample_ops (RNN_of_flat 2 sample_theta) sample_batch [3; 2]%Z
      = Ok (logits1, predictions1) /\
    @forward sample_ops (RNN_of_flat 2 sample_theta) sample_batch_chopped [3; 2]%Z
      = Ok (logits2, predictions2) /\
    data logits1 !! (1 * Z.to_nat (default 0%Z (head [3; 2]%Z)) + 0) = Some v /\
    data logits2 !! (1 * Z.to_nat (default 0%Z (head [3; 2]%Z)) + 0) = Some v /\
    data predictions1 !! (1 * Z.to_nat (default 0%Z (head [3; 2]%Z)) + 0)
      = Some (@fsigmoid sample_ops v) /\
    data predictions2 !! (1 * Z.to_nat (default 0%Z (head [3; 2]%Z)) + 0)
      = Some (@fsigmoid sample_ops v).
Proof.
  assert (Hv : valid_lengths 2 3 [3; 2]%Z).
  { split; [reflexivity|]. split; [lia|]. split.
    - apply non_increasing_of_decreasing. reflexivity.
    - repeat constructor; lia. }
  assert (Hx : forall t', t' <= 0 -> (Z.of_nat t' < default 0 ([3; 2]%Z !! 1%nat))%Z ->
     data sample_batch !! (1 * 3 + t') = data sample_batch_chopped !! (1 * 3 + t')).
  { intros [|t'] Ht' _; [reflexivity|lia]. }
  split; [reflexivity|]. do 4 (split; [reflexivity|]). split; [exact Hv|].
  split; [lia|]. split; [cbn; lia|]. split; [exact Hx|].
  apply (@forward_is_causal sample_ops 2 sample_theta sample_batch sample_batch_chopped
           [3; 2]%Z 2 3 1 0 eq_refl eq_refl eq_refl eq_refl eq_refl Hv);
    [lia|cbn; lia|exact Hx].
Defined.

(** ** The batches of the notebook never fail *)

(** [adjust_lengths] on a batch: the lengths are lengths that the model
    accepts, the first one the whole sequence dimension. *)
Lemma adjust_lengths_total (vary : bool) (w : world) (inputs targets : array_ref)
    (B T : nat) :
  is_batch w inputs targets B T -> 1 <= B -> lengths_fit vary T ->
  exists lengths w',
    adjust_lengths vary inputs targets w = (Ok lengths, w') /\
    valid_lengths B T lengths /\ head lengths = Some (Z.of_nat T) /\
    is_batch w' inputs targets B T.
Proof.
  intros Hb HB HT. destruct vary.
  - destruct (adjust_lengths_vary_spec w inputs targets B T Hb HB HT)
      as (lengths & w' & E & Hlen & Hs & Hh & Hr & (_ & _ & HL & _) & _).
    exists lengths, w'. split; [exact E|]. split; [by unfold valid_lengths|].
    split; [exact Hh|]. destruct Hb as (Hsi & Hst & Hbi & Hbt & Hsz).
    unfold is_batch. rewrite !HL. auto 10.
  - pose proof Hb as (Hsi & _). destruct HT as [HT H31].
    exists (replicate B (Z.of_nat T)), w. split.
    + rewrite (adjust_lengths_fixed_spec w inputs targets B T [1] Hsi).
      by rewrite wrap32_small by lia.
    + split; [|split; [by destruct B; [lia|]|done]].
      split; [apply length_replicate|]. split; [done|]. split.
      * intros i j a b _ Ha Hb'. apply lookup_replicate in Ha as [-> _], Hb' as [-> _]. lia.
      * apply Forall_forall. intros l Hl. apply elem_of_replicate in Hl as [-> _]. lia.
Qed.

(** What a window holds depends on its buffer only, and how much it holds
    on the length of its buffer only. *)
Lemma read_ref_heap (w w' : world) (r : array_ref) :
  heap w' !! base r = heap w !! base r -> read_ref w' r = read_ref w r.
Proof. intros Hh. unfold read_ref, buffer. by rewrite Hh. Qed.

Lemma length_read_ref (w : world) (r : array_ref) :
  length (read_ref w r) = Nat.min (numel (ashape r)) (length (buffer w (base r)) - offset r).
Proof. unfold read_ref. by rewrite length_take, length_drop. Qed.

(** The parameters stay in the store while the buffers that exist are left
    alone. *)
Lemma params_in_store_frame (w w' : world) (model : RNN_obj) :
  params_in_store w model -> next_loc w <= next_loc w' ->
  (forall l, l < next_loc w -> heap w' !! l = heap w !! l) ->
  params_in_store w' model.
Proof.
  intros [Hb Hl] Hn Hh. split; [lia|].
  by rewrite (read_ref_heap w w') by by apply Hh.
Qed.

(** The model on a batch and such lengths: two new tensors of the batch's
    shape, with one prediction per position when the parameters are all
    there. *)
Lemma RNN_call_total `{FloatOps} (model : RNN_obj) (inputs : array_ref) (lengths : list Z)
    (B T : nat) (w : world) :
  ashape inputs = [B; T; 1] -> offset inputs + B * T <= length (buffer w (base inputs)) ->
  valid_lengths B T lengths -> head lengths = Some (Z.of_nat T) ->
  exists w',
    RNN_call model inputs lengths w =
      (Ok (mk_ref (next_loc w) 0 [B; T; 1], mk_ref (S (next_loc w)) 0 [B; T; 1]), w') /\
    next_loc w' = S (S (next_loc w)) /\
    (forall l, l < next_loc w -> heap w' !! l = heap w !! l) /\
    (length (read_ref w (obj_params model)) = num_params (obj_hidden_size model) ->
     length (read_ref w' (mk_ref (S (next_loc w)) 0 [B; T; 1])) = B * T).
Proof.
  intros Hs Hbuf Hv Hh.
  assert (Hd : length (data (value_of w inputs)) = B * T).
  { cbn. unfold read_ref. rewrite Hs, length_take, length_drop.
    unfold numel. cbn. lia. }
  destruct (forward_spec (RNN_of_flat (obj_hidden_size model)
                            (data (value_of w (obj_params model))))
              (value_of w inputs) lengths B T Hs Hd Hv)
    as (logits & predictions & E & Sl & Dl & Sp & Dp).
  rewrite Hh in Sl, Dl.
  change (default 0%Z (Some (Z.of_nat T))) with (Z.of_nat T) in Sl, Dl.
  rewrite Nat2Z.id in Sl, Dl.
  rewrite RNN_of_flat_one_logit in Sl. rewrite Sl in Sp.
  unfold RNN_call, bind, get_value, lift. rewrite E. cbn [fst snd alloc].
  unfold alloc, ret. cbn [next_loc heap np_rng torch_rng]. rewrite Sl, Sp.
  eexists. split; [reflexivity|]. cbn [next_loc heap]. split; [done|]. split.
  - intros l Hl. by rewrite !lookup_insert_ne by lia.
  - intros Hth.
    assert (HL : length (data predictions) = B * T).
    { rewrite Dp, length_map, Dl. rewrite (length_flat_map_const _ _ T).
      - by rewrite length_seq.
      - intros b. rewrite (length_flat_map_const _ _ 1); [rewrite length_seq; lia|].
        intros t. apply RNN_of_flat_apply_linear. exact Hth. }
    rewrite length_read_ref. unfold buffer. cbn [base offset ashape heap].
    rewrite lookup_insert_eq.
    change (default [] (Some (data predictions))) with (data predictions).
    rewrite HL. unfold numel. cbn. lia.
Qed.

(** A computation that writes to no buffer of the dataset leaves it intact. *)
Lemma intact_step {A} (ns nb : Z) (w0 w1 : world) (ds : XORDataset) (m : M A)
    (Q : A -> Prop) (w : world) :
  XORDataset_init ns nb w0 = (Ok ds, w1) -> intact ds w1 w ->
  frame (stored_in ds) m Q ->
  intact ds w1 (snd (m w)) /\ forall a, fst (m w) = Ok a -> Q a.
Proof.
  intros E [[Uf Ul] Hn] Hm.
  destruct (XORDataset_init_allocated _ _ _ _ _ E) as (Hf & Hl & _).
  assert (Hw : forall l, stored_in ds l -> l < next_loc w) by (intros l [-> | ->]; lia).
  destruct (Hm w Hw) as (N & _ & HQ).
  destruct (frame_dataset_unchanged ds m Q w Hm) as [Vf Vl]; [lia..|].
  split; [|exact HQ]. split; [|lia]. split; congruence.
Qed.

Section Batches.
Context `{FloatOps}.
Variables (ns nb : Z) (w0 w1 : world) (ds : XORDataset).
Hypothesis E : XORDataset_init ns nb w0 = (Ok ds, w1).

(** One batch of a dataset through the loader, [adjust_lengths] and the
    model: the three steps return, the outputs have the shape of the
    targets, the dataset and every buffer that existed are left alone. *)
Lemma batch_forward (w : world) (dl : DataLoader) (idxs : list nat) (vary : bool)
    (model : RNN_obj) :
  intact ds w1 w -> dataset dl = ds -> valid_batch (Z.to_nat ns) idxs ->
  lengths_fit vary (Z.to_nat nb) ->
  exists inputs targets w2 lengths w3 logits predictions w4,
    DataLoader_fetch dl idxs w = (Ok (inputs, targets), w2) /\
    adjust_lengths vary inputs targets w2 = (Ok lengths, w3) /\
    RNN_call model inputs lengths w3 = (Ok (logits, predictions), w4) /\
    ashape targets = [length idxs; Z.to_nat nb; 1] /\
    ashape logits = [length idxs; Z.to_nat nb; 1] /\
    ashape predictions = [length idxs; Z.to_nat nb; 1] /\
    intact ds w1 w4 /\
    next_loc w <= next_loc w4 /\
    (forall l, l < next_loc w -> heap w4 !! l = heap w !! l) /\
    length (read_ref w4 targets) = length idxs * Z.to_nat nb /\
    (params_in_store w model ->
     length (read_ref w4 predictions) = length idxs * Z.to_nat nb).
Proof.
  intros Hint Hdl (Hne & Hidx & Hlen) Hm.
  pose proof Hint as [U Hn].
  pose proof (dataset_bytes _ _ _ _ _ E) as Hbytes.
  destruct (DataLoader_fetch_spec _ _ _ _ _ _ dl idxs E U Hn Hdl Hne Hidx) as (G & LF & LL).
  set (m := Z.to_nat nb) in *. set (B := length idxs) in *.
  set (inputs := mk_ref (next_loc w) 0 [B; m; 1]) in *.
  set (targets := mk_ref (S (next_loc w)) 0 [B; m; 1]) in *.
  set (w2 := mk_world _ _ _ _) in G.
  assert (HB : 1 <= B) by (unfold B; destruct idxs; [done|cbn; lia]).
  assert (Hb2 : is_batch w2 inputs targets B m).
  { assert (Hw : batch_windows w2 inputs targets B m).
    { unfold batch_windows, buffer, w2. cbn [ashape base offset heap inputs targets].
      rewrite lookup_insert_ne, !lookup_insert_eq by lia. cbn. rewrite LF, LL.
      split; [done|]. split; [done|]. lia. }
    destruct Hw as (W1 & W2 & W3 & W4). unfold is_batch. do 4 (split; [done|]).
    fold m in Hbytes. fold B in Hlen. nia. }
  destruct (adjust_lengths_total vary w2 inputs targets B m Hb2 HB Hm)
    as (lengths & w3 & A & Hv & Hh & Hb3).
  destruct Hb3 as (Hsi & Hst & Hbi & Hbt & _).
  destruct (RNN_call_total model inputs lengths B m w3 Hsi Hbi Hv Hh)
    as (w4 & R & N4 & F4 & L4).
  (* the buffers that existed are left alone by the three steps *)
  assert (F2 : forall l, l < next_loc w -> heap w2 !! l = heap w !! l).
  { intros l Hl. unfold w2. cbn [heap]. by rewrite !lookup_insert_ne by lia. }
  assert (N2 : next_loc w2 = S (S (next_loc w))) by reflexivity.
  destruct (frame_adjust_lengths (fun l => l < next_loc w) vary inputs targets)
    with (w := w2) as (N3 & F3 & _).
  { unfold fresh, inputs. cbn [base]. lia. }
  { unfold fresh, targets. cbn [base]. lia. }
  { intros l Hl. lia. }
  rewrite A in N3, F3. cbn [snd] in N3, F3.
  exists inputs, targets, w2, lengths, w3. eexists _, _, w4.
  split; [exact G|]. split; [exact A|]. split; [exact R|].
  do 3 (split; [reflexivity|]).
  split; [|split; [lia|split; [|split]]].
  - (* the dataset is intact after the three steps *)
    destruct (intact_step _ _ _ _ _ (DataLoader_fetch dl idxs) _ w E Hint
                (frame_DataLoader_fetch _ dl idxs)) as [I2 Q2].
    rewrite G in I2, Q2. cbn [fst snd] in I2, Q2. destruct (Q2 _ eq_refl) as [Fi Ft].
    destruct (intact_step _ _ _ _ _ (adjust_lengths vary inputs targets) _ w2 E I2
                (frame_adjust_lengths _ vary inputs targets Fi Ft)) as [I3 _].
    rewrite A in I3. cbn [snd] in I3.
    destruct (intact_step _ _ _ _ _ (RNN_call model inputs lengths) _ w3 E I3
                (frame_RNN_call _ model inputs lengths)) as [I4 _].
    rewrite R in I4. exact I4.
  - intros l Hl. rewrite F4 by lia. rewrite F3 by lia. by apply F2.
  - assert (Hbt4 : offset targets + B * m <= length (buffer w4 (base targets))).
    { unfold buffer. rewrite F4; [exact Hbt|]. unfold targets. cbn [base]. lia. }
    rewrite length_read_ref, Hst. unfold numel. cbn [foldr]. lia.
  - intros [Hpb Hpl]. apply L4.
    rewrite (read_ref_heap w w3); [exact Hpl|].
    rewrite F3 by lia. by apply F2.
Qed.

End Batches.

(** *** Steps of a computation that returns *)

Lemma bind_ok {A B} (m : M A) (k : A -> M B) (w w' : world) (a : A) :
  m w = (Ok a, w') -> bind m k w = k a w'.
Proof. intros E. unfold bind. by rewrite E. Qed.

Lemma bind_ret {A B} (a : A) (k : A -> M B) (w : world) : bind (ret a) k w = k a w.
Proof. reflexivity. Qed.

Lemma bind_get_value {B} (r : array_ref) (k : ndarray float32 -> M B) (w : world) :
  bind (get_value r) k w = k (value_of w r) w.
Proof. reflexivity. Qed.

Lemma bind_lift_ok {A B} (r : result A) (a : A) (k : A -> M B) (w : world) :
  r = Ok a -> bind (lift r) k w = k a w.
Proof. by intros ->. Qed.

(** Tensors of one shape are compared, element by element. *)
Lemma is_correct_of_ok (p t : ndarray float32) :
  shape p = shape t ->
  exists c, is_correct_of p t = Ok c /\
            length c = Nat.min (length (data p)) (length (data t)).
Proof.
  intros Hs. unfold is_correct_of. rewrite bool_decide_eq_true_2 by done.
  eexists. split; [reflexivity|]. apply length_zip_with.
Qed.

Section Evaluation.
Context `{FloatOps}.

(** The loop of [evaluate] over batches of an intact dataset, on the CPU:
    it returns, with one comparison more for every position of every
    sequence of the batches when the parameters of the model are there. *)
Lemma evaluate_batches_total (ns nb : Z) (w0 w1 : world) (ds : XORDataset)
    (dl : DataLoader) (vary : bool) (model : RNN_obj) (batches : list (list nat)) :
  XORDataset_init ns nb w0 = (Ok ds, w1) -> dataset dl = ds ->
  lengths_fit vary (Z.to_nat nb) ->
  Forall (valid_batch (Z.to_nat ns)) batches ->
  forall (is_correct : list bool) (w : world),
    intact ds w1 w ->
    exists is_correct' w',
      evaluate_batches dl vary cpu model batches is_correct w = (Ok is_correct', w') /\
      (params_in_store w model ->
       length is_correct' = length is_correct + length (concat batches) * Z.to_nat nb).
Proof.
  intros E Hdl Hm Hb. induction Hb as [|idxs rest Hvb _ IH]; intros acc w Hint.
  - eexists _, _. split; [reflexivity|]. cbn. lia.
  - destruct (batch_forward ns nb w0 w1 ds E w dl idxs vary model Hint Hdl Hvb Hm)
      as (inputs & targets & w2 & lengths & w3 & logits & predictions & w4
          & G & A & R & St & Sl & Sp & I4 & N4 & F4 & Lt & Lp).
    cbn [evaluate_batches].
    rewrite (bind_ok _ _ _ _ _ G). cbn [fst snd].
    rewrite (bind_ok _ _ _ _ _ A). cbn [to_device].
    rewrite !bind_ret, (bind_ok _ _ _ _ _ R). cbn [fst snd].
    rewrite !bind_get_value.
    destruct (is_correct_of_ok (value_of w4 predictions) (value_of w4 targets))
      as (c & Hc & Lc).
    { cbn. by rewrite St, Sp. }
    rewrite (bind_lift_ok _ _ _ _ Hc).
    destruct (IH (acc ++ c) w4 I4) as (acc' & w' & Ev & La).
    exists acc', w'. split; [exact Ev|].
    intros Hp.
    rewrite (La (params_in_store_frame w w4 model Hp N4 F4)).
    cbn [data value_of] in Lc. rewrite Lt, (Lp Hp) in Lc.
    cbn [concat]. rewrite !length_app, Lc. lia.
Qed.

(** [evaluate] on the CPU returns the mean of its comparisons, one for
    every position of its 5000 validation sequences when the parameters of
    the model are there. *)
Lemma evaluate_runs (max_bits : Z) (vary_lengths : bool) (model : RNN_obj) (w : world) :
  evaluate_fits vary_lengths max_bits ->
  exists is_correct w',
    evaluate max_bits vary_lengths cpu model w = (Ok (np_mean is_correct), w') /\
    (params_in_store w model ->
     length is_correct = 5000 * Z.to_nat (3 * max_bits / 2)).
Proof.
  intros Hfit. set (n := (3 * max_bits / 2)%Z).
  assert (Hm : (1 <= max_bits < 2 ^ 51)%Z /\ (1 <= n)%Z /\ (8 * 5000 * n < 2 ^ 63)%Z /\
               lengths_fit vary_lengths (Z.to_nat n)).
  { unfold evaluate_fits, lengths_fit in *. fold n in Hfit.
    pose proof (Z.div_mod (3 * max_bits) 2 ltac:(lia)) as Hdm. fold n in Hdm.
    pose proof (Z.mod_pos_bound (3 * max_bits) 2 ltac:(lia)) as Hmod.
    change (2 ^ 51)%Z with 2251799813685248%Z.
    change (2 ^ 63)%Z with 9223372036854775808%Z.
    destruct vary_lengths.
    - unfold evaluate_limit in Hfit. lia.
    - change (2 ^ 31)%Z with 2147483648%Z in *. rewrite Z2Nat.id by lia. lia. }
  destruct Hm as (Hmb & Hn1 & Hsz & Hlf).
  assert (En : evaluate_num_bits max_bits = Ok n)
    by (apply evaluate_num_bits_floor; lia).
  destruct (XORDataset_init_ok 5000 n w) as (b & l & w1 & E1 & _ & _ & _ & Hh1 & Hn1' & _).
  { apply np_empty_ok_pos; lia. }
  set (ds := mk_XORDataset _ _ _ _) in E1.
  assert (I1 : intact ds w1 w1) by (split; [split; reflexivity|lia]).
  destruct (DataLoader_batches_spec _ _ _ _ _ (mk_DataLoader ds 500 false) w1 E1 eq_refl)
    as (batches & w2 & G & Hh & Hnl & Hp & _ & _ & Hj); [cbn; lia|].
  assert (I2 : intact ds w1 w2).
  { destruct I1 as [[Uf Ul] _]. split; [|lia].
    unfold dataset_unchanged, value_of, read_ref, buffer. by rewrite Hh. }
  destruct (evaluate_batches_total 5000 n w w1 ds (mk_DataLoader ds 500 false)
              vary_lengths model batches E1 eq_refl Hlf) with (is_correct := @nil bool) (w := w2)
    as (is_correct & w3 & Ev & Lc).
  { by apply (batches_valid _ 500). }
  { exact I2. }
  exists is_correct, w3. split.
  - unfold evaluate, evaluate_dataset.
    erewrite bind_ok; [|erewrite bind_lift_ok by exact En; exact E1].
    erewrite bind_ok; [|reflexivity].
    rewrite (bind_ok _ _ _ _ _ G), (bind_ok _ _ _ _ _ Ev). reflexivity.
  - intros Hpar. rewrite Lc.
    + apply Permutation_length in Hp. rewrite length_seq in Hp. rewrite Hp. cbn [length]. lia.
    + apply (params_in_store_frame w w2 model Hpar); [lia|].
      intros l0 Hl0. rewrite Hh, Hh1. by rewrite !lookup_insert_ne by lia.
Qed.

(** X10: on the CPU, for a sequence length that fits (from 2 to
    153722867280913 with varying lengths; at least 1 and with
    [floor(3 * max_bits / 2)] below [2^31] with fixed lengths), [evaluate]
    returns for every model and in every state: no batch of its own dataset
    is refused by [adjust_lengths], by the model or by the comparison.  What
    it returns is the mean of its comparisons; for a model whose parameters
    are in the store there is one comparison for every position of the 5000
    validation sequences.  It writes to the tensors it creates only: every
    buffer that existed before the call (the model's parameters, the training
    data) holds afterwards what it held. *)
Theorem evaluate_returns (max_bits : Z) (vary_lengths : bool) (model : RNN_obj)
    (w : world) :
  evaluate_fits vary_lengths max_bits ->
  exists is_correct w',
    evaluate max_bits vary_lengths cpu model w = (Ok (np_mean is_correct), w') /\
    (params_in_store w model ->
     length is_correct = 5000 * Z.to_nat (3 * max_bits / 2)) /\
    next_loc w <= next_loc w' /\
    forall l, l < next_loc w -> heap w' !! l = heap w !! l.
Proof.
  intros Hfit.
  destruct (evaluate_runs max_bits vary_lengths model w Hfit) as (is_correct & w' & Run & Lc).
  exists is_correct, w'. split; [exact Run|]. split; [exact Lc|].
  destruct (frame_evaluate (fun l => l < next_loc w) max_bits vary_lengths cpu model w)
    as (N & F & _); [done|].
  rewrite Run in N, F. cbn [snd] in N, F. auto.
Qed.

End Evaluation.

Lemma evaluate_returns_witness :
  exists model w,
    @RNN_init sample_ops 2 cpu sample_world = (Ok model, w) /\
    evaluate_fits true 2 /\ params_in_store w model /\
    exists is_correct w',
      @evaluate sample_ops 2 true cpu model w = (Ok (np_mean is_correct), w') /\
      length is_correct = 5000 * Z.to_nat (3 * 2 / 2) /\
      next_loc w <= next_loc w' /\
      forall l, l < next_loc w -> heap w' !! l = heap w !! l.
Proof.
  eexists _, _. split; [reflexivity|].
  assert (H1 : evaluate_fits true 2) by (unfold evaluate_fits, evaluate_limit; lia).
  split; [exact H1|].
  match goal with |- params_in_store ?w ?m /\ _ =>
    assert (H2 : params_in_store w m) by (split; [cbn; lia|reflexivity]);
    split; [exact H2|];
    destruct (@evaluate_returns sample_ops 2 true m w H1) as (ic & w' & Run & Lc & Hrest)
  end.
  exists ic, w'. split; [exact Run|]. split; [exact (Lc H2)|exact Hrest].
Defined.

(** ** The training loop *)

Section Training.
Context `{FloatOps}.
Variables (ns nb : Z) (w0 w1 : world) (ds : XORDataset).
Hypothesis E : XORDataset_init ns nb w0 = (Ok ds, w1).
Variables (cfg : settings) (dl : DataLoader) (model : RNN_obj).
Hypothesis on_cpu : dev cfg = cpu.
Hypothesis loader : dataset dl = ds.
Hypothesis params_apart : ~ stored_in ds (base (obj_params model)).
Hypothesis bits : lengths_fit (vary_lengths cfg) (Z.to_nat nb).
Hypothesis eval_bits : evaluate_fits (vary_lengths cfg) (max_bits cfg).

(** The loss accepts logits of the shape of the targets; the step allocates
    nothing and changes the size of no buffer. *)
Lemma train_step_ok (inputs logits targets : array_ref) (lengths : list Z) (w : world) :
  ashape logits = ashape targets ->
  exists w', train_step model inputs logits targets lengths w = (Ok tt, w') /\
    next_loc w' = next_loc w /\
    forall l, length (buffer w' l) = length (buffer w l).
Proof.
  intros Hs. unfold train_step. rewrite bool_decide_eq_true_2 by done. cbn [negb].
  rewrite !bind_get_value. eexists. split; [reflexivity|]. split; [reflexivity|].
  intros l. unfold buffer. cbn [heap].
  destruct (decide (l = base (obj_params model))) as [->|Hne].
  - rewrite lookup_alter_eq. destruct (heap w !! base (obj_params model)); cbn; [|done].
    by rewrite length_inserts.
  - by rewrite lookup_alter_ne.
Qed.

(** One pass of the loop body on a batch of the loader. *)
Lemma train_batch_total (st : loop_state) (idxs : list nat) (w : world) :
  intact ds w1 w -> valid_batch (Z.to_nat ns) idxs ->
  exists st' brk w',
    train_batch cfg dl model st idxs w = (Ok (st', brk), w') /\
    intact ds w1 w' /\
    step st' = (step st + 1)%Z /\
    (exists c, train_accs st' = train_accs st ++ [((step st + 1)%Z, torch_mean c)] /\
       (params_in_store w model -> length c = length idxs * Z.to_nat nb)) /\
    (if (step st + 1) mod 1000 =? 0
     then exists v, valid_accuracy st' = Some v /\ brk = SFeqb v f64_one /\
                    valid_accs st' = valid_accs st ++ [((step st + 1)%Z, v)]
     else valid_accuracy st' = valid_accuracy st /\ brk = false /\
          valid_accs st' = valid_accs st)%Z /\
    (((step st + 1) mod 1000 = 0)%Z ->
     exists is_correct, valid_accuracy st' = Some (np_mean is_correct) /\
       (params_in_store w model ->
        length is_correct = 5000 * Z.to_nat (3 * max_bits cfg / 2))).
Proof.
  intros Hint Hvb.
  destruct (batch_forward ns nb w0 w1 ds E w dl idxs (vary_lengths cfg) model
              Hint loader Hvb bits)
    as (inputs & targets & w2 & lengths & w3 & logits & predictions & w4
        & G & A & R & St & Sl & Sp & _ & N4 & F4 & Lt & Lp).
  destruct (train_step_ok inputs logits targets lengths w4) as (w5 & T5 & N5 & L5);
    [congruence|].
  destruct (is_correct_of_ok (value_of w5 predictions) (value_of w5 targets))
    as (c & Hc & Lc).
  { cbn. by rewrite St, Sp. }
  assert (Hlc : params_in_store w model -> length c = length idxs * Z.to_nat nb).
  { intros Hp. cbn [data value_of] in Lc.
    rewrite !length_read_ref, !L5, <- !length_read_ref, Lt, (Lp Hp) in Lc. lia. }
  assert (Hp5 : params_in_store w model -> params_in_store w5 model).
  { intros Hp. destruct (params_in_store_frame w w4 model Hp N4 F4) as [Hb4 Hl4].
    split; [lia|]. by rewrite length_read_ref, L5, <- length_read_ref. }
  assert (Run : exists st' brk w',
            train_batch cfg dl model st idxs w = (Ok (st', brk), w') /\
            step st' = (step st + 1)%Z /\
            train_accs st' = train_accs st ++ [((step st + 1)%Z, torch_mean c)] /\
            (if (step st + 1) mod 1000 =? 0
             then exists v, valid_accuracy st' = Some v /\ brk = SFeqb v f64_one /\
                            valid_accs st' = valid_accs st ++ [((step st + 1)%Z, v)]
             else valid_accuracy st' = valid_accuracy st /\ brk = false /\
                  valid_accs st' = valid_accs st)%Z /\
            (((step st + 1) mod 1000 = 0)%Z ->
             exists is_correct, valid_accuracy st' = Some (np_mean is_correct) /\
               (params_in_store w model ->
                length is_correct = 5000 * Z.to_nat (3 * max_bits cfg / 2)))).
  { unfold train_batch.
    rewrite (bind_ok _ _ _ _ _ G). cbv beta zeta. cbn [fst snd].
    rewrite (bind_ok _ _ _ _ _ A). rewrite on_cpu. cbn [to_device].
    rewrite bind_ret, (bind_ok _ _ _ _ _ R). cbn [fst snd].
    rewrite (bind_ok _ _ _ _ _ T5). rewrite !bind_get_value.
    rewrite (bind_lift_ok _ _ _ _ Hc).
    destruct (Z.eqb_spec ((step st + 1) mod 1000) 0) as [Hmod|Hmod].
    - destruct (evaluate_runs (max_bits cfg) (vary_lengths cfg) model w5 eval_bits)
        as (is_correct & w6 & Ev & Li).
      rewrite (bind_ok _ _ _ _ _ Ev).
      eexists _, _, _. split; [reflexivity|]. cbn [step train_accs valid_accs valid_accuracy].
      split; [done|]. split; [done|]. split; [by eexists|].
      intros _. exists is_correct. split; [done|]. intros Hp. apply Li. by apply Hp5.
    - eexists _, _, _. split; [reflexivity|]. cbn [step train_accs valid_accs valid_accuracy].
      split; [done|]. split; [done|]. split; [done|]. intros Hz. done. }
  destruct Run as (st' & brk & w' & Run & Hs & Ha & Hv & Hi).
  exists st', brk, w'. split; [exact Run|].
  split; [|split; [exact Hs|split; [by exists c|split; [exact Hv|exact Hi]]]].
  destruct (intact_step _ _ _ _ _ (train_batch cfg dl model st idxs) _ w E Hint
              (frame_train_batch _ cfg dl model st idxs params_apart)) as [I _].
  by rewrite Run in I.
Qed.

Lemma loop_inv_step (st st' : loop_state) (brk : bool) :
  loop_inv st -> step st' = (step st + 1)%Z ->
  (if (step st + 1) mod 1000 =? 0
   then exists v, valid_accuracy st' = Some v /\ brk = SFeqb v f64_one /\
                  valid_accs st' = valid_accs st ++ [((step st + 1)%Z, v)]
   else valid_accuracy st' = valid_accuracy st /\ brk = false /\
        valid_accs st' = valid_accs st)%Z ->
  loop_inv st' /\
  (brk = true -> exists v, valid_accuracy st' = Some v /\ SFeqb v f64_one = true).
Proof.
  intros [H0 Hv] Hs Hc. unfold loop_inv. rewrite Hs.
  destruct (Z.eqb_spec ((step st + 1) mod 1000) 0) as [Hm|Hm].
  - destruct Hc as (v & -> & -> & _). split.
    + split; [lia|]. split; [done|]. intros Hlt. exfalso.
      assert (Hq : (step st + 1 = 1000 * ((step st + 1) / 1000))%Z).
      { pose proof (Z.div_mod (step st + 1) 1000 ltac:(lia)). lia. }
      assert ((step st + 1) / 1000 = 0)%Z by (apply Z.div_small; lia). lia.
    + intros Hb. by exists v.
  - destruct Hc as (-> & -> & _). split; [|done].
    split; [lia|]. rewrite Hv. split; [|lia].
    intros Hlt. destruct (Z.eq_dec (step st + 1)%Z 1000%Z) as [He|]; [|lia].
    rewrite He in Hm. done.
Qed.

(** The inner loop over the batches of one pass. *)
Lemma train_batches_total (batches : list (list nat)) :
  Forall (valid_batch (Z.to_nat ns)) batches ->
  forall (st : loop_state) (w : world),
    intact ds w1 w -> loop_inv st ->
    exists st' brk w',
      train_batches cfg dl model batches st w = (Ok (st', brk), w') /\
      intact ds w1 w' /\ loop_inv st' /\
      (step st <= step st' <= step st + Z.of_nat (length batches))%Z /\
      (brk = false -> step st' = (step st + Z.of_nat (length batches))%Z) /\
      (brk = true -> exists v, valid_accuracy st' = Some v /\ SFeqb v f64_one = true).
Proof.
  induction 1 as [|idxs rest Hvb _ IH]; intros st w Hint Hinv.
  - exists st, false, w. cbn. split; [done|]. split; [done|]. split; [done|].
    split; [lia|]. split; [intros; lia|done].
  - destruct (train_batch_total st idxs w Hint Hvb)
      as (st1 & brk1 & w2 & T & I2 & Hs & _ & Hc & _).
    destruct (loop_inv_step st st1 brk1 Hinv Hs Hc) as [Hinv1 Hbrk1].
    cbn [train_batches]. rewrite (bind_ok _ _ _ _ _ T). cbn [fst snd].
    destruct brk1.
    + exists st1, true, w2. split; [done|]. split; [done|]. split; [done|].
      cbn [length]. split; [lia|]. split; [done|]. exact Hbrk1.
    + destruct (IH st1 w2 I2 Hinv1) as (st' & brk & w' & T' & I' & Hinv' & Hr & Hf & Ht).
      exists st', brk, w'. split; [done|]. split; [done|]. split; [done|].
      cbn [length]. split; [lia|]. split; [|done]. intros Hb. specialize (Hf Hb). lia.
Qed.

Hypothesis batch_size_pos : 1 <= batch_size dl.

(** The outer loop: it ends in [NameError] when the first pass ends before
    step 1000, and returns otherwise. *)
Lemma train_epochs_total (n : nat) :
  forall (st : loop_state) (w : world),
    intact ds w1 w -> loop_inv st ->
    let nbt := Z.of_nat (num_batches (Z.to_nat ns) (batch_size dl)) in
    (1 <= n -> (step st + nbt < 1000)%Z ->
     fst (train_epochs cfg dl model n st w) = Raise NameError) /\
    ((1000 <= step st + nbt)%Z ->
     exists st' w',
       train_epochs cfg dl model n st w = (Ok st', w') /\
       intact ds w1 w' /\ loop_inv st' /\ (step st <= step st')%Z /\
       (1 <= n -> (1000 <= step st')%Z)).
Proof.
  induction n as [|n IH]; intros st w Hint Hinv nbt.
  { split; [lia|]. intros _. exists st, w. cbn. split; [done|]. split; [done|].
    split; [done|]. split; lia. }
  destruct (DataLoader_batches_spec _ _ _ _ _ dl w E loader batch_size_pos)
    as (batches & w2 & G & Hh & Hnl & Hp & _ & Hlen & Hj).
  assert (Hvalid : Forall (valid_batch (Z.to_nat ns)) batches)
    by by apply (batches_valid _ (batch_size dl)).
  assert (I2 : intact ds w1 w2).
  { destruct Hint as [[Uf Ul] Hn]. split; [|lia].
    unfold dataset_unchanged, value_of, read_ref, buffer in *. by rewrite Hh. }
  destruct (train_batches_total batches Hvalid st w2 I2 Hinv)
    as (st1 & brk & w3 & T & I3 & Hinv1 & Hr & Hf & Ht).
  assert (Hnbt : Z.of_nat (length batches) = nbt) by (unfold nbt, num_batches; by rewrite Hlen).
  rewrite Hnbt in Hr, Hf.
  cbn [train_epochs]. rewrite (bind_ok _ _ _ _ _ G), (bind_ok _ _ _ _ _ T). cbn [fst snd].
  destruct Hinv1 as [H01 Hv1]. split.
  - intros _ Hlt.
    assert (Hnone : valid_accuracy st1 = None) by (apply Hv1; lia).
    by rewrite Hnone.
  - intros Hge.
    destruct (valid_accuracy st1) as [v|] eqn:Hva.
    2: { (* unbound: the pass ended before step 1000, so it did not break *)
         exfalso. assert (Hlt : (step st1 < 1000)%Z) by by apply Hv1.
         destruct brk; [by destruct (Ht eq_refl) as (v & ? & _)|].
         specialize (Hf eq_refl). lia. }
    assert (H1000 : (1000 <= step st1)%Z).
    { destruct (Z.lt_ge_cases (step st1) 1000) as [Hlt|]; [|done].
      apply Hv1 in Hlt. discriminate. }
    assert (Hinv1 : loop_inv st1).
    { split; [done|]. rewrite Hva. split; [done|lia]. }
    destruct (SFeqb v f64_one).
    + exists st1, w3. split; [done|]. split; [done|]. split; [done|]. split; lia.
    + destruct (IH st1 w3 I3 Hinv1) as [_ Hok].
      destruct Hok as (st' & w' & T' & I' & Hinv' & Hs' & _); [fold nbt; lia|].
      exists st', w'. split; [done|]. split; [done|]. split; [done|]. split; lia.
Qed.

End Training.

(** X11: on the CPU, one pass of the training loop's body never fails on a
    batch of the loader (at least one index, every index valid, no more
    indices than sequences) of an intact dataset whose sequence length fits
    [adjust_lengths] (at least 2 with varying lengths; at least 1 and below
    [2^31] with fixed lengths), for a model whose parameters lie outside the
    dataset and a [max_bits] that fits [evaluate]: the batch is made, its
    lengths adjusted, the model run, the loss taken (logits and targets have
    one shape) and the parameters updated.  It adds one to [step], records
    under the new step one training accuracy, the mean of its comparisons,
    calls [evaluate] exactly when the new step is a multiple of 1000 (binding
    [valid_accuracy] to the mean of the comparisons of [evaluate], recording
    it, and asking to stop when it is exactly 1.0), and leaves the dataset
    intact: of the buffers that existed before, it writes to the model's
    parameters only.  For a model whose parameters are in the store the
    training accuracy is over one comparison for every position of the batch,
    the validation accuracy over one for every position of the 5000
    validation sequences. *)
Theorem train_batch_returns `{FloatOps} (num_sequences num_bits : Z) (w0 w1 : world)
    (ds : XORDataset) (cfg : settings) (dl : DataLoader) (model : RNN_obj)
    (st : loop_state) (idxs : list nat) (w : world) :
  XORDataset_init num_sequences num_bits w0 = (Ok ds, w1) ->
  dev cfg = cpu -> dataset dl = ds ->
  ~ stored_in ds (base (obj_params model)) ->
  lengths_fit (vary_lengths cfg) (Z.to_nat num_bits) ->
  evaluate_fits (vary_lengths cfg) (max_bits cfg) ->
  intact ds w1 w -> valid_batch (Z.to_nat num_sequences) idxs ->
  exists st' brk w',
    train_batch cfg dl model st idxs w = (Ok (st', brk), w') /\
    intact ds w1 w' /\
    (forall l, l < next_loc w -> l <> base (obj_params model) ->
       heap w' !! l = heap w !! l) /\
    step st' = (step st + 1)%Z /\
    (exists c, train_accs st' = train_accs st ++ [((step st + 1)%Z, torch_mean c)] /\
       (params_in_store w model -> length c = length idxs * Z.to_nat num_bits)) /\
    (if (step st + 1) mod 1000 =? 0
     then exists v, valid_accuracy st' = Some v /\ brk = SFeqb v f64_one /\
                    valid_accs st' = valid_accs st ++ [((step st + 1)%Z, v)]
     else valid_accuracy st' = valid_accuracy st /\ brk = false /\
          valid_accs st' = valid_accs st)%Z /\
    (((step st + 1) mod 1000 = 0)%Z ->
     exists is_correct, valid_accuracy st' = Some (np_mean is_correct) /\
       (params_in_store w model ->
        length is_correct = 5000 * Z.to_nat (3 * max_bits cfg / 2))).
Proof.
  intros E Hcpu Hdl Hp Hb He Hint Hvb.
  destruct (train_batch_total num_sequences num_bits w0 w1 ds E cfg dl model
              Hcpu Hdl Hp Hb He st idxs w Hint Hvb)
    as (st' & brk & w' & Run & I & Hrest).
  exists st', brk, w'. split; [exact Run|]. split; [exact I|]. split; [|exact Hrest].
  destruct (frame_train_batch (fun l => l < next_loc w /\ l <> base (obj_params model))
              cfg dl model st idxs) with (w := w) as (_ & F & _).
  - unfold fresh. tauto.
  - by intros l [Hl _].
  - rewrite Run in F. cbn [snd] in F. auto.
Qed.

Lemma train_batch_returns_witness :
  exists ds w1 model w,
    XORDataset_init 3 4 sample_world = (Ok ds, w1) /\
    @RNN_init sample_ops 2 cpu w1 = (Ok model, w) /\
    dev (mk_settings 4 true cpu 1) = cpu /\
    dataset (mk_DataLoader ds 2 true) = ds /\
    ~ stored_in ds (base (obj_params model)) /\
    lengths_fit (vary_lengths (mk_settings 4 true cpu 1)) (Z.to_nat 4) /\
    evaluate_fits (vary_lengths (mk_settings 4 true cpu 1))
                  (max_bits (mk_settings 4 true cpu 1)) /\
    intact ds w1 w /\ valid_batch (Z.to_nat 3) [0; 2] /\
    params_in_store w model /\
    exists st' brk w',
      @train_batch sample_ops (mk_settings 4 true cpu 1) (mk_DataLoader ds 2 true)
        model initial_loop_state [0; 2] w = (Ok (st', brk), w') /\
      intact ds w1 w' /\
      (forall l, l < next_loc w -> l <> base (obj_params model) ->
         heap w' !! l = heap w !! l) /\
      step st' = (step initial_loop_state + 1)%Z /\
      (exists c, train_accs st' =
                   train_accs initial_loop_state
                     ++ [((step initial_loop_state + 1)%Z, torch_mean c)] /\
         (params_in_store w model -> length c = length [0; 2] * Z.to_nat 4)) /\
      (if (step initial_loop_state + 1) mod 1000 =? 0
       then exists v, valid_accuracy st' = Some v /\ brk = SFeqb v f64_one /\
                      valid_accs st' =
                        valid_accs initial_loop_state ++ [((step initial_loop_state + 1)%Z, v)]
       else valid_accuracy st' = valid_accuracy initial_loop_state /\ brk = false /\
            valid_accs st' = valid_accs initial_loop_state)%Z /\
      (((step initial_loop_state + 1) mod 1000 = 0)%Z ->
       exists is_correct, valid_accuracy st' = Some (np_mean is_correct) /\
         (params_in_store w model ->
          length is_correct =
            5000 * Z.to_nat (3 * max_bits (mk_settings 4 true cpu 1) / 2))).
Proof.
  eexists _, _, _, _. split; [reflexivity|]. split; [reflexivity|].
  split; [reflexivity|]. split; [reflexivity|].
  split; [intros [Hs | Hs]; discriminate Hs|].
  split; [cbn; lia|]. split; [unfold evaluate_fits, evaluate_limit; cbn; lia|].
  split; [split; [split; reflexivity|cbn; lia]|].
  split; [split; [discriminate|split; [repeat constructor; cbn; lia|cbn; lia]]|].
  split; [split; [cbn; lia|reflexivity]|].
  eapply (@train_batch_returns sample_ops 3 4 sample_world);
    [reflexivity|reflexivity|reflexivity|intros [Hs | Hs]; discriminate Hs
    |cbn; lia|unfold evaluate_fits, evaluate_limit; cbn; lia
    |split; [split; reflexivity|cbn; lia]
    |split; [discriminate|split; [repeat constructor; cbn; lia|cbn; lia]]].
Defined.

(** X12: on the CPU, for a dataset of at least one sequence, a positive batch
    size and a [max_bits] that fits [evaluate] (from 2 to 153722867280913
    with varying lengths; at least 1 and with [floor(3 * max_bits / 2)] below
    [2^31] with fixed lengths), the notebook from the construction of the
    dataset to the end of training ends in one of three ways.  When the int64
    array of the training bits would have [2^63] bytes or more, numpy refuses
    it and the notebook ends in [ValueError].  Otherwise it returns or ends in
    the [NameError] of reading [valid_accuracy] before it was bound, and no
    other error occurs: without epochs it returns at once; when one pass over
    the loader has fewer than 1000 batches, the first epoch ends in
    [NameError]; otherwise it returns, with at least 1000 steps taken and
    [valid_accuracy] bound. *)
Theorem training_loop_outcome `{FloatOps} (cfg : settings) (num_sequences batch_size : Z)
    (hidden_size : nat) (w : world) :
  dev cfg = cpu -> (1 <= num_sequences)%Z -> (1 <= batch_size)%Z ->
  evaluate_fits (vary_lengths cfg) (max_bits cfg) ->
  ((2 ^ 63 <= 8 * num_sequences * max_bits cfg)%Z ->
   notebook cfg num_sequences batch_size hidden_size w = (Raise ValueError, w)) /\
  ((8 * num_sequences * max_bits cfg < 2 ^ 63)%Z ->
   (epochs cfg = 0 ->
    exists ds model w',
      notebook cfg num_sequences batch_size hidden_size w
        = (Ok (ds, model, initial_loop_state), w')) /\
   (1 <= epochs cfg ->
    num_batches (Z.to_nat num_sequences) (Z.to_nat batch_size) < 1000 ->
    fst (notebook cfg num_sequences batch_size hidden_size w) = Raise NameError) /\
   (1 <= epochs cfg ->
    1000 <= num_batches (Z.to_nat num_sequences) (Z.to_nat batch_size) ->
    exists ds model st w',
      notebook cfg num_sequences batch_size hidden_size w = (Ok (ds, model, st), w') /\
      (1000 <= step st)%Z /\ is_Some (valid_accuracy st))).
Proof.
  revert batch_size. intros bs Hcpu Hns Hbs Hfit.
  assert (Hmb : (1 <= max_bits cfg)%Z /\
                lengths_fit (vary_lengths cfg) (Z.to_nat (max_bits cfg))).
  { unfold evaluate_fits, lengths_fit in *.
    destruct (vary_lengths cfg); [unfold evaluate_limit in Hfit; lia|].
    pose proof (Z.div_mod (3 * max_bits cfg) 2 ltac:(lia)) as Hdm.
    pose proof (Z.mod_pos_bound (3 * max_bits cfg) 2 ltac:(lia)) as Hmod.
    change (2 ^ 31)%Z with 2147483648%Z in *. rewrite Z2Nat.id by lia. lia. }
  destruct Hmb as [Hmb Hlf].
  pose proof (np_empty_ok_pos num_sequences (max_bits cfg) Hns Hmb) as Hsz.
  split.
  { intros Hbig. unfold notebook, bind.
    rewrite XORDataset_init_refused; [done|].
    destruct (np_empty_ok 8 [num_sequences; max_bits cfg]); [|done].
    pose proof (proj1 Hsz eq_refl). lia. }
  intros Hfits. apply Hsz in Hfits.
  destruct (XORDataset_init_ok num_sequences (max_bits cfg) w Hfits)
    as (b & l & w1 & E & _).
  set (ds := mk_XORDataset _ _ _ _) in E.
  set (dl := mk_DataLoader ds (Z.to_nat bs) true).
  assert (Hdl : DataLoader_init ds bs true w1 = (Ok dl, w1)).
  { unfold DataLoader_init. by destruct (Z.leb_spec bs 0); [lia|]. }
  assert (I1 : intact ds w1 w1) by (split; [split; reflexivity|lia]).
  destruct (RNN_init hidden_size (dev cfg) w1) as [[model|e] w2] eqn:Em.
  2: { unfold RNN_init, rng_take, alloc in Em. discriminate. }
  destruct (intact_step _ _ _ _ _ (RNN_init hidden_size (dev cfg)) _ w1 E I1
              (frame_RNN_init (stored_in ds) hidden_size (dev cfg))) as [I2 Q2].
  rewrite Em in I2, Q2. cbn [fst snd] in I2, Q2. specialize (Q2 _ eq_refl).
  assert (Hinit : loop_inv initial_loop_state).
  { split; [cbn; lia|]. cbn. split; [lia|done]. }
  destruct (train_epochs_total num_sequences (max_bits cfg) w w1 ds E cfg dl model
              Hcpu eq_refl Q2 Hlf Hfit ltac:(cbn; lia) (epochs cfg)
              initial_loop_state w2 I2 Hinit) as [Hname Hok].
  cbn [batch_size dl step initial_loop_state] in Hname, Hok.
  assert (Run : notebook cfg num_sequences bs hidden_size w =
                bind (train_epochs cfg dl model (epochs cfg) initial_loop_state)
                     (fun st => ret (ds, model, st)) w2).
  { unfold notebook. rewrite (bind_ok _ _ _ _ _ E). unfold after_dataset.
    by rewrite (bind_ok _ _ _ _ _ Hdl), (bind_ok _ _ _ _ _ Em). }
  rewrite Run. split; [|split].
  - intros H0. rewrite H0. cbn [train_epochs]. rewrite bind_ret. by eexists _, _, _.
  - intros H1 Hlt. specialize (Hname H1 ltac:(lia)). unfold bind.
    destruct (train_epochs cfg dl model (epochs cfg) initial_loop_state w2) as [[st|e] w3];
      cbn in Hname |- *; [discriminate|by injection Hname as ->].
  - intros H1 Hge. destruct Hok as (st & w3 & T & _ & [_ Hv] & _ & H1000); [lia|].
    rewrite (bind_ok _ _ _ _ _ T). exists ds, model, st, w3. split; [done|].
    specialize (H1000 H1). split; [done|].
    destruct (valid_accuracy st) as [v|]; [by eexists|].
    assert (step st < 1000)%Z by by apply Hv. lia.
Qed.

Lemma training_loop_outcome_witness :
  dev (mk_settings 3 false cpu 1) = cpu /\ (1 <= 5)%Z /\ (1 <= 2)%Z /\
  evaluate_fits (vary_lengths (mk_settings 3 false cpu 1))
                (max_bits (mk_settings 3 false cpu 1)) /\
  (8 * 5 * max_bits (mk_settings 3 false cpu 1) < 2 ^ 63)%Z /\
  (epochs (mk_settings 3 false cpu 1) = 0 ->
   exists ds model w',
     @notebook sample_ops (mk_settings 3 false cpu 1) 5 2 2 sample_world
       = (Ok (ds, model, initial_loop_state), w')) /\
  (1 <= epochs (mk_settings 3 false cpu 1) ->
   num_batches (Z.to_nat 5) (Z.to_nat 2) < 1000 ->
   fst (@notebook sample_ops (mk_settings 3 false cpu 1) 5 2 2 sample_world)
     = Raise NameError) /\
  (1 <= epochs (mk_settings 3 false cpu 1) ->
   1000 <= num_batches (Z.to_nat 5) (Z.to_nat 2) ->
   exists ds model st w',
     @notebook sample_ops (mk_settings 3 false cpu 1) 5 2 2 sample_world
       = (Ok (ds, model, st), w') /\
     (1000 <= step st)%Z /\ is_Some (valid_accuracy st)).
Proof.
  assert (H1 : dev (mk_settings 3 false cpu 1) = cpu) by reflexivity.
  assert (H2 : (1 <= 5)%Z) by lia. assert (H3 : (1 <= 2)%Z) by lia.
  assert (H4 : evaluate_fits (vary_lengths (mk_settings 3 false cpu 1))
                             (max_bits (mk_settings 3 false cpu 1)))
    by (unfold evaluate_fits; cbn [vary_lengths max_bits]; split; [lia|reflexivity]).
  assert (H5 : (8 * 5 * max_bits (mk_settings 3 false cpu 1) < 2 ^ 63)%Z) by (cbn; lia).
  split; [exact H1|]. split; [exact H2|]. split; [exact H3|]. split; [exact H4|].
  split; [exact H5|].
  exact (proj2 (@training_loop_outcome sample_ops (mk_settings 3 false cpu 1) 5 2 2
                  sample_world H1 H2 H3 H4) H5).
Defined.

(** Five sequences in batches of two: three steps, no evaluation, and the
    loop ends in [NameError]. *)
Example notebook_sample :
  fst (@notebook sample_ops (mk_settings 3 false cpu 1) 5 2 2 sample_world)
    = Raise NameError.
Proof. vm_compute. reflexivity. Qed.

(** ** Lengths and the model together *)

Lemma tensor_at_data (w : world) (x : array_ref) (B T i k : nat) :
  ashape x = [B; T; 1] -> i < B -> k < T ->
  tensor_at w x i k = data (value_of w x) !! (i * T + k).
Proof.
  intros Hs Hi Hk. unfold tensor_at. rewrite Hs. by rewrite decide_True by done.
Qed.

Lemma length_read_batch (w : world) (x : array_ref) (B T : nat) :
  ashape x = [B; T; 1] -> offset x + B * T <= length (buffer w (base x)) ->
  length (data (value_of w x)) = B * T.
Proof.
  intros Hs Hb. cbn. unfold read_ref. rewrite Hs, length_take, length_drop.
  unfold numel. cbn. lia.
Qed.

(** X13: cutting a batch with [adjust_lengths] does not change what the
    model computes for it: for the lengths that the call returns, [forward]
    on the cut inputs and [forward] on the inputs as they were before the
    call return the same logits and predictions. *)
Theorem adjust_lengths_keeps_output `{FloatOps} (w : world) (inputs targets : array_ref)
    (B max_bits : nat) :
  is_batch w inputs targets B max_bits -> 1 <= B -> 2 <= max_bits ->
  base inputs <> base targets ->
  exists lengths w',
    adjust_lengths true inputs targets w = (Ok lengths, w') /\
    forall self : RNN,
      exists out,
        forward self (value_of w' inputs) lengths = Ok out /\
        forward self (value_of w inputs) lengths = Ok out.
Proof.
  intros Hb HB HT Hne.
  destruct (adjust_lengths_vary_keeps w inputs targets B max_bits Hb HB HT Hne)
    as (lengths & w' & E & Hv & Hb' & Hpre & _).
  exists lengths, w'. split; [exact E|]. intros self.
  destruct Hb as (Hsi & _ & Hbi & _), Hb' as (_ & _ & Hbi' & _).
  destruct (forward_pair_ext self (value_of w' inputs) (value_of w inputs) lengths B max_bits)
    as (l1 & p1 & l2 & p2 & E1 & E2 & Sl & Dl & Sp & Dp); try done.
  - by apply length_read_batch.
  - by apply length_read_batch.
  - intros b t l Hl Ht.
    assert (HbB : b < B).
    { destruct Hv as (Hlen & _). apply lookup_lt_Some in Hl. lia. }
    assert (Hlr : (1 <= l <= Z.of_nat max_bits)%Z).
    { destruct Hv as (_ & _ & _ & Hr). rewrite Forall_forall in Hr. apply Hr.
      by eapply list_elem_of_lookup_2. }
    rewrite <- !(tensor_at_data _ _ B max_bits) by (done || lia).
    by apply (Hpre b l t).
  - exists (l1, p1). split; [done|]. rewrite E2.
    destruct l1 as [sl1 dl1], l2 as [sl2 dl2], p1 as [sp1 dp1], p2 as [sp2 dp2].
    cbn in Sl, Dl, Sp, Dp. by subst.
Qed.

Lemma adjust_lengths_keeps_output_witness :
  is_batch sample_batch_world sample_inputs sample_targets 2 3 /\ 1 <= 2 /\ 2 <= 3 /\
  base sample_inputs <> base sample_targets /\
  exists lengths w',
    adjust_lengths true sample_inputs sample_targets sample_batch_world = (Ok lengths, w') /\
    forall self : RNN,
      exists out,
        @forward sample_ops self (value_of w' sample_inputs) lengths = Ok out /\
        @forward sample_ops self (value_of sample_batch_world sample_inputs) lengths = Ok out.
Proof.
  assert (Hb : is_batch sample_batch_world sample_inputs sample_targets 2 3).
  { unfold is_batch. vm_compute. repeat split; lia. }
  split; [exact Hb|]. split; [lia|]. split; [lia|]. split; [discriminate|].
  apply (@adjust_lengths_keeps_output sample_ops sample_batch_world sample_inputs
           sample_targets 2 3 Hb); [lia|lia|discriminate].
Defined.

(** The model on lengths it accepts: two new tensors as long as the first
    length. *)
Lemma RNN_call_shape `{FloatOps} (model : RNN_obj) (inputs : array_ref) (lengths : list Z)
    (B T : nat) (w : world) :
  ashape inputs = [B; T; 1] -> offset inputs + B * T <= length (buffer w (base inputs)) ->
  valid_lengths B T lengths ->
  exists w',
    RNN_call model inputs lengths w =
      (Ok (mk_ref (next_loc w) 0 [B; Z.to_nat (default 0%Z (head lengths)); 1],
           mk_ref (S (next_loc w)) 0 [B; Z.to_nat (default 0%Z (head lengths)); 1]), w').
Proof.
  intros Hs Hbuf Hv.
  destruct (forward_spec (RNN_of_flat (obj_hidden_size model)
                            (data (value_of w (obj_params model))))
              (value_of w inputs) lengths B T Hs (length_read_batch _ _ _ _ Hs Hbuf) Hv)
    as (logits & predictions & E & Sl & _ & Sp & _).
  rewrite RNN_of_flat_one_logit in Sl. rewrite Sl in Sp.
  unfold RNN_call, bind, get_value, lift. rewrite E. cbn [fst snd alloc].
  unfold alloc, ret. cbn [next_loc heap np_rng torch_rng]. rewrite Sl, Sp.
  by eexists.
Qed.

(** X14: the first length has to be the whole sequence dimension, as the
    comment in [adjust_lengths] says: for lengths that the model accepts but
    whose first entry is smaller than the sequence dimension, the model
    returns logits that are shorter than the targets, and the loss of the
    training step refuses them with [ValueError]. *)
Theorem short_lengths_break_the_loss `{FloatOps} (model : RNN_obj)
    (inputs targets : array_ref) (lengths : list Z) (B T : nat) (w : world) :
  batch_windows w inputs targets B T -> valid_lengths B T lengths ->
  (default 0 (head lengths) < Z.of_nat T)%Z ->
  exists logits predictions w',
    RNN_call model inputs lengths w = (Ok (logits, predictions), w') /\
    ashape logits = [B; Z.to_nat (default 0%Z (head lengths)); 1] /\
    ashape predictions = ashape logits /\
    train_step model inputs logits targets lengths w' = (Raise ValueError, w').
Proof.
  intros (Hsi & Hst & Hbi & _) Hv Hlt.
  destruct (RNN_call_shape model inputs lengths B T w Hsi Hbi Hv) as [w' R].
  eexists _, _, w'. split; [exact R|]. split; [reflexivity|]. split; [reflexivity|].
  unfold train_step. cbn [ashape]. rewrite Hst.
  rewrite bool_decide_eq_false_2; [reflexivity|].
  intros Heq. injection Heq as Heq.
  destruct (head_valid_lengths B T lengths Hv) as (l0 & Hh & Hl0 & _).
  rewrite Hh in Heq, Hlt. cbn in Heq, Hlt. lia.
Qed.

Lemma short_lengths_break_the_loss_witness :
  batch_windows sample_batch_world sample_inputs sample_targets 2 3 /\
  valid_lengths 2 3 [2; 1]%Z /\
  (default 0 (head [2; 1]%Z) < Z.of_nat 3)%Z /\
  exists logits predictions w',
    @RNN_call sample_ops (mk_RNN_obj 2 (mk_ref 5 0 [num_params 2])) sample_inputs [2; 1]%Z
      sample_batch_world = (Ok (logits, predictions), w') /\
    ashape logits = [2; Z.to_nat (default 0%Z (head [2; 1]%Z)); 1] /\
    ashape predictions = ashape logits /\
    @train_step sample_ops (mk_RNN_obj 2 (mk_ref 5 0 [num_params 2])) sample_inputs logits
      sample_targets [2; 1]%Z w' = (Raise ValueError, w').
Proof.
  assert (Hb : batch_windows sample_batch_world sample_inputs sample_targets 2 3).
  { unfold batch_windows. vm_compute. repeat split; lia. }
  assert (Hv : valid_lengths 2 3 [2; 1]%Z).
  { split; [reflexivity|]. split; [lia|]. split.
    - apply non_increasing_of_decreasing. reflexivity.
    - repeat constructor; lia. }
  split; [exact Hb|]. split; [exact Hv|]. split; [cbn; lia|].
  apply (@short_lengths_break_the_loss sample_ops _ sample_inputs sample_targets
           [2; 1]%Z 2 3 sample_batch_world Hb Hv). cbn. lia.
Defined.

(** ** Items are views *)

(** X15: the items that [__getitem__] returns are views of the dataset's
    stored arrays, not copies: an in-place write of [v] over the whole
    feature item of index [index] shows in the dataset's features, where row
    [index mod num_sequences] then holds [v] everywhere and the other rows
    hold what they held. *)
Theorem getitem_is_a_view (num_sequences num_bits : Z) (w0 w1 : world) (ds : XORDataset)
    (w w' : world) (index : Z) (x y : array_ref) (v : float32) :
  XORDataset_init num_sequences num_bits w0 = (Ok ds, w1) ->
  intact ds w1 w ->
  XORDataset_getitem ds index w = (Ok (x, y), w') ->
  base x = base (features ds) /\ base y = base (labels ds) /\
  forall i t, i < Z.to_nat num_sequences -> t < Z.to_nat num_bits ->
    read_ref (snd (fill x 0 (Z.to_nat num_bits) v w)) (features ds)
      !! (i * Z.to_nat num_bits + t) =
    if decide (i = Z.to_nat (index mod num_sequences)) then Some v
    else read_ref w (features ds) !! (i * Z.to_nat num_bits + t).
Proof.
  intros E [U Hn] G.
  destruct (XORDataset_init_contents _ _ _ _ _ E) as (Hns & Hnb & Hds & _).
  destruct (dataset_lengths _ _ _ _ _ _ E U) as [LF _].
  assert (Hi : (- num_sequences <= index < num_sequences)%Z).
  { destruct (decide (- num_sequences <= index < num_sequences)%Z) as [Hi|Hi]; [done|exfalso].
    rewrite Hds in G. unfold XORDataset_getitem, bind, lift, np_index0_all in G.
    cbn [features labels ashape] in G.
    pose proof (np_index0_spec (mk_ref (next_loc w0) 0
                  [Z.to_nat num_sequences; Z.to_nat num_bits; 1]) index
                  (Z.to_nat num_sequences) [Z.to_nat num_bits; 1] eq_refl) as Sf.
    destruct (np_index0 (mk_ref (next_loc w0) 0 _) index) as [x'|e]; [|discriminate].
    destruct Sf as [Hr _]. lia. }
  destruct (getitem_ok _ _ _ _ _ index w E Hi) as [Hk G'].
  rewrite G' in G. injection G as <- <- <-.
  set (n := Z.to_nat num_sequences) in *. set (m := Z.to_nat num_bits) in *.
  set (k := Z.to_nat (index mod num_sequences)) in *.
  split; [reflexivity|]. split; [reflexivity|].
  intros i t Hin Ht.
  assert (Hlen : n * m <= length (buffer w (base (features ds)))).
  { unfold read_ref in LF. rewrite Hds in LF |- *. cbn [features base offset ashape] in *.
    rewrite length_take, drop_0 in LF. unfold numel in LF. cbn in LF. lia. }
  assert (Hrd : forall w2, read_ref w2 (features ds) !! (i * m + t) =
                           buffer w2 (base (features ds)) !! (i * m + t)).
  { intros w2. rewrite Hds. unfold read_ref. cbn [features base offset ashape].
    rewrite drop_0. apply lookup_take_lt. unfold numel. cbn. nia. }
  rewrite !Hrd, buffer_fill. cbn [base offset]. rewrite decide_True by done.
  replace (k * (m * 1) + 0) with (k * m) by lia.
  destruct (decide (i = k)) as [->|Hik].
  - rewrite list_lookup_inserts; [|rewrite length_replicate; lia|nia].
    apply lookup_replicate_2. lia.
  - destruct (decide (i < k)).
    + apply list_lookup_inserts_lt. nia.
    + apply list_lookup_inserts_ge. rewrite length_replicate. nia.
Qed.

Lemma getitem_is_a_view_witness :
  exists ds w1 x y w',
    XORDataset_init 2 3 sample_world = (Ok ds, w1) /\
    intact ds w1 w1 /\
    XORDataset_getitem ds (-1) w1 = (Ok (x, y), w') /\
    base x = base (features ds) /\ base y = base (labels ds) /\
    forall i t, i < Z.to_nat 2 -> t < Z.to_nat 3 ->
      read_ref (snd (fill x 0 (Z.to_nat 3) f32_one w1)) (features ds)
        !! (i * Z.to_nat 3 + t) =
      if decide (i = Z.to_nat (-1 mod 2)) then Some f32_one
      else read_ref w1 (features ds) !! (i * Z.to_nat 3 + t).
Proof.
  eexists _, _, _, _, _.
  split; [reflexivity|]. split; [split; [split; reflexivity|lia]|]. split; [reflexivity|].
  exact (getitem_is_a_view 2 3 sample_world _ _ _ _ (-1) _ _ f32_one
           eq_refl (conj (conj eq_refl eq_refl) (le_n _)) eq_refl).
Defined.
